(** * Polysport: entry strategy and trade executor

    A shallow embedding of [src/strategy/entry_strategy.py] and
    [src/execution/trade_executor.py], and the properties of the entry
    ladder, the take-profit split, order recreation and fill inference.

    Numbers.  Prices, sizes and balances, which Python holds as [int],
    [float] and [Decimal] values, are modelled by the rational number they
    denote ([Q]); a literal such as [63.99] or [Decimal("0.96")] is the
    decimal numeral it is written as (the binary rounding of float
    literals is not modelled) and comparisons are exact.  Sums,
    differences, products and quotients of [Decimal] values are those of
    the decimal context: the exact result rounded to 28 significant
    digits, ties to even (exponent limits are not modelled).  Two
    rationals that denote the same number are related by [==] ([Qeq]); [=]
    is used where the code copies a value unchanged.  Counters are natural
    numbers, and the inferred fill count, a difference, is an integer.

    Collaborators.  The exchange client, the market scanner and the market
    queue are outside the sources: they are functions over a state of the
    outside world that may answer anything and may raise.  The order
    monitor is outside the sources too; its ledger follows the
    specification of the repository (sections 3 and 4.2). *)

From Stdlib Require Import QArith ZArith Qround Qabs Qpower List String Bool Lia Lqa
  Permutation.
Import ListNotations.

Local Open Scope string_scope.
Local Open Scope Z_scope.

(** ** Python values shared by both modules *)

(** *** Decimal arithmetic

    A [Decimal] is the rational number it denotes.  Python builds a
    [Decimal] from a string exactly, compares exactly, and rounds the
    result of every arithmetic operation to the precision of the context:
    28 significant digits, ties to the even digit (the default context of
    the [decimal] module, which the sources do not change). *)

Definition Decimal := Q.

(** [getcontext().prec]. *)
Definition prec : Z := 28.

(** The integer nearest to [y], the even one of two that are equally
    near ([ROUND_HALF_EVEN]). *)
Definition round_half_even (y : Q) : Z :=
  let f := Qfloor y in
  match (y - inject_Z f ?= 1 # 2)%Q with
  | Lt => f
  | Eq => if Z.even f then f else f + 1
  | Gt => f + 1
  end.

(** The exponent of the leading digit of a positive number
    ([Decimal.adjusted()]): the [k] with [10^k <= x < 10^(k+1)], searched
    downwards from a bound that the size of the numerator gives. *)
Fixpoint adjusted_from (fuel : nat) (k : Z) (x : Q) : Z :=
  match fuel with
  | O => k
  | S fuel' => if Qle_bool (10 ^ k) x then k else adjusted_from fuel' (k - 1) x
  end.

Definition adjusted (x : Q) : Z :=
  let n := Qnum x in
  let d := Z.pos (Qden x) in
  adjusted_from (Z.to_nat (Z.log2 n + Z.log2 d + 1)) (Z.log2 n) x.

(** [x] rounded to [prec] significant digits. *)
Definition rounded (x : Q) : Q :=
  if Qeq_bool x 0 then 0%Q
  else
    let e := adjusted (Qabs x) - prec + 1 in
    (inject_Z (round_half_even (x / 10 ^ e)) * 10 ^ e)%Q.

(** The result of an operation whose exact value is [x]; a value of at
    most [prec] digits is returned as it stands. *)
Definition context_round (x : Q) : Decimal :=
  let y := rounded x in
  if Qeq_bool y x then x else y.

(** [a + b], [a - b], [a * b] and [a / b] on [Decimal] values. *)
Definition decimal_add (a b : Decimal) : Decimal := context_round (a + b).

Definition decimal_sub (a b : Decimal) : Decimal := context_round (a - b).

Definition decimal_mul (a b : Decimal) : Decimal := context_round (a * b).

Definition decimal_div (a b : Decimal) : Decimal := context_round (a / b).

Arguments context_round : simpl never.
Arguments decimal_add : simpl never.
Arguments decimal_sub : simpl never.
Arguments decimal_mul : simpl never.
Arguments decimal_div : simpl never.

(** A number that can be written with at most [n] significant digits. *)
Definition digits_at_most (n : Z) (x : Q) : Prop :=
  exists m j, Z.abs m < 10 ^ n /\ (x == inject_Z m * 10 ^ j)%Q.

(** [Decimal(str(n)) / Decimal("100")]: cents to a price in dollars. *)
Definition cents_to_price (c : Q) : Decimal := decimal_div c 100%Q.

(** [x in xs] for a Python set or list of integers. *)
Definition py_in (x : Z) (xs : list Z) : bool := existsb (Z.eqb x) xs.

(** [xs[:n]] for a Python integer [n]: a negative bound counts from the
    end of the list. *)
Definition py_slice_to {A : Type} (xs : list A) (n : Z) : list A :=
  if n <? 0
  then firstn (Z.to_nat (Z.of_nat (List.length xs) + n)) xs
  else firstn (Z.to_nat n) xs.

(** ** EntryStrategy ([src/strategy/entry_strategy.py]) *)

Module EntryStrategy.

(** [STRATEGY_TABLE]: [(min_price, max_price) -> (entry1, entry2)], in
    the insertion order of the dict literal. *)
Definition STRATEGY_TABLE : list ((Q * Q) * (Z * Z)) :=
  [ ((61, 63.99)%Q, (42, 27));
    ((64, 66.99)%Q, (44, 31));
    ((67, 69.99)%Q, (45, 33));
    ((70, 74.99)%Q, (52, 38));
    ((75, 79.99)%Q, (58, 42));
    ((80, 100)%Q,   (68, 55)) ].

(** The dict returned by [get_entry_prices]. *)
Record EntryConfig : Type := mkEntryConfig {
  entry1_cents : Z;
  entry1_price : Decimal;
  entry2_cents : Z;
  entry2_price : Decimal;
  entry_size_usd : Decimal
}.

(** The loop of [get_entry_prices] over the items of a table: the first
    band with [min_price <= p <= max_price] returns. *)
Fixpoint find_band (table : list ((Q * Q) * (Z * Z))) (self_entry_size_usd : Decimal)
    (strong_team_price_cents : Q) : option EntryConfig :=
  match table with
  | [] => None
  | ((min_price, max_price), (entry1, entry2)) :: rest =>
      if Qle_bool min_price strong_team_price_cents
         && Qle_bool strong_team_price_cents max_price
      then Some {| entry1_cents := entry1;
                   entry1_price := cents_to_price (inject_Z entry1);
                   entry2_cents := entry2;
                   entry2_price := cents_to_price (inject_Z entry2);
                   entry_size_usd := self_entry_size_usd |}
      else find_band rest self_entry_size_usd strong_team_price_cents
  end.

Definition get_entry_prices (self_entry_size_usd : Decimal)
    (strong_team_price_cents : Q) : option EntryConfig :=
  find_band STRATEGY_TABLE self_entry_size_usd strong_team_price_cents.

(** [market['strong_team']] and the fields of [market] that
    [calculate_orders] reads. *)
Record Team : Type := mkTeam {
  team_token_id : string;
  team_name : string;
  team_price_cents : Q
}.

Record Market : Type := mkMarket {
  market_slug : string;
  market_question : string;
  strong_team : Team
}.

(** One order specification of [calculate_orders]. *)
Record OrderSpec : Type := mkOrderSpec {
  os_order_type : string;
  os_token_id : string;
  os_team_name : string;
  os_price : Decimal;
  os_price_cents : Z;
  os_amount_usd : Decimal;
  os_entry_number : Z;
  os_market_question : string;
  os_market_slug : string
}.

Definition calculate_orders (self_entry_size_usd : Decimal) (market : Market)
    : option (list OrderSpec) :=
  let strong_price_cents := team_price_cents (strong_team market) in
  match get_entry_prices self_entry_size_usd strong_price_cents with
  | None => None
  | Some entry_config =>
      let strong_team_token_id := team_token_id (strong_team market) in
      Some
        [ {| os_order_type := "limit_buy";
             os_token_id := strong_team_token_id;
             os_team_name := team_name (strong_team market);
             os_price := entry1_price entry_config;
             os_price_cents := entry1_cents entry_config;
             os_amount_usd := self_entry_size_usd;
             os_entry_number := 1;
             os_market_question := market_question market;
             os_market_slug := market_slug market |};
          {| os_order_type := "limit_buy";
             os_token_id := strong_team_token_id;
             os_team_name := team_name (strong_team market);
             os_price := entry2_price entry_config;
             os_price_cents := entry2_cents entry_config;
             os_amount_usd := self_entry_size_usd;
             os_entry_number := 2;
             os_market_question := market_question market;
             os_market_slug := market_slug market |} ]
  end.

(** An element of [filled_entries]. *)
Record FilledEntry : Type := mkFilledEntry {
  fe_entry_number : Z;
  fe_price : Decimal
}.

(** A take-profit leg.  [tp_price] is the Python value stored under
    ['price']: [entry1_price] starts as [None] and is a [Decimal] once an
    entry numbered 1 has been seen. *)
Record TPSpec : Type := mkTPSpec {
  tp_price : option Decimal;
  tp_size : Decimal;
  tp_label : string
}.

(** The loop that reads the entry prices off the filled orders; a later
    entry with the same number overwrites an earlier one. *)
Fixpoint scan_entry_prices (filled_entries : list FilledEntry)
    (entry1_price entry2_price : option Decimal) : option Decimal * option Decimal :=
  match filled_entries with
  | [] => (entry1_price, entry2_price)
  | entry :: rest =>
      if fe_entry_number entry =? 1
      then scan_entry_prices rest (Some (fe_price entry)) entry2_price
      else if fe_entry_number entry =? 2
      then scan_entry_prices rest entry1_price (Some (fe_price entry))
      else scan_entry_prices rest entry1_price entry2_price
  end.

Definition calculate_take_profit_orders (filled_entries : list FilledEntry)
    (strong_team_start_price_cents : Q) (total_position_size : Decimal) : list TPSpec :=
  let entry_numbers := map fe_entry_number filled_entries in
  let '(entry1_price, entry2_price) := scan_entry_prices filled_entries None None in
  let strong_start_decimal := cents_to_price strong_team_start_price_cents in
  let half_position := decimal_div total_position_size 2%Q in
  if py_in 1 entry_numbers && negb (py_in 2 entry_numbers)
  then [ {| tp_price := Some strong_start_decimal;
            tp_size := half_position;
            tp_label := "TP1 (50% at start price)" |};
         {| tp_price := Some 0.96%Q;
            tp_size := half_position;
            tp_label := "TP2 (50% at 0.96)" |} ]
  else if py_in 1 entry_numbers && py_in 2 entry_numbers
  then [ {| tp_price := entry1_price;
            tp_size := half_position;
            tp_label := "TP1 (50% at Entry1 price)" |};
         {| tp_price := Some strong_start_decimal;
            tp_size := half_position;
            tp_label := "TP2 (50% at start price)" |} ]
  else if py_in 2 entry_numbers && negb (py_in 1 entry_numbers)
  then [ {| tp_price := Some strong_start_decimal;
            tp_size := half_position;
            tp_label := "TP1 (50% at start price)" |};
         {| tp_price := Some 0.96%Q;
            tp_size := half_position;
            tp_label := "TP2 (50% at 0.96)" |} ]
  else [].

(** [__init__]'s default for [entry_size_usd]. *)
Definition default_entry_size_usd : Decimal := 5%Q.

(** The default [target_profit_pct] of [get_take_profit_price]. *)
Definition default_target_profit_pct : Decimal := 0.15%Q.


Definition should_skip_market (market_slug : string)
    (already_profitable_markets : list string) : bool :=
  existsb (String.eqb market_slug) already_profitable_markets.

End EntryStrategy.

(** ** OrderMonitor: the order ledger *)

Module OrderMonitor.

Inductive Side : Type := BUY | SELL.

(** Modelled from the spec: the lifecycle status of a tracked order, which
    the missing [OrderMonitor] keeps (spec section 3). *)
Inductive Status : Type := OPEN | FILLED | DISAPPEARED | RECREATED | REMOVED.

(** Modelled from the spec: the tracked-order record of
    [src/monitor/order_monitor.py], which is not among the sources (spec
    section 3, TrackedOrder).  [entry_number] and
    [strong_team_price_cents] are [None] when absent. *)
Record TrackedOrder : Type := mkTrackedOrder {
  order_id : string;
  token_id : string;
  market_slug : string;
  side : Side;
  price : Decimal;
  size : Decimal;
  entry_number : option Z;
  strong_team_price_cents : option Q;
  status : Status;
  replaced_by : option string
}.

(** Modelled from the spec: [tracked_orders], the dict of the missing
    [OrderMonitor], as the list of its values in insertion order. *)
Definition Ledger : Type := list TrackedOrder.

Definition side_eqb (a b : Side) : bool :=
  match a, b with
  | BUY, BUY | SELL, SELL => true
  | _, _ => false
  end.

Definition status_eqb (a b : Status) : bool :=
  match a, b with
  | OPEN, OPEN | FILLED, FILLED | DISAPPEARED, DISAPPEARED
  | RECREATED, RECREATED | REMOVED, REMOVED => true
  | _, _ => false
  end.

Definition set_status (s : Status) (o : TrackedOrder) : TrackedOrder :=
  {| order_id := order_id o; token_id := token_id o; market_slug := market_slug o;
     side := side o; price := price o; size := size o;
     entry_number := entry_number o;
     strong_team_price_cents := strong_team_price_cents o;
     status := s; replaced_by := replaced_by o |}.

Definition set_replaced_by (new_id : string) (o : TrackedOrder) : TrackedOrder :=
  {| order_id := order_id o; token_id := token_id o; market_slug := market_slug o;
     side := side o; price := price o; size := size o;
     entry_number := entry_number o;
     strong_team_price_cents := strong_team_price_cents o;
     status := status o; replaced_by := Some new_id |}.

(** Modelled from the spec: an update of the missing [OrderMonitor] in
    place, [f] applied to the record stored under [id]; an id that is not
    tracked changes nothing. *)
Definition update_order (id : string) (f : TrackedOrder -> TrackedOrder)
    (tracked_orders : Ledger) : Ledger :=
  map (fun o => if String.eqb (order_id o) id then f o else o) tracked_orders.

(** Modelled from the spec: [tracked_orders.keys()] of the missing
    [OrderMonitor]. *)
Definition keys (tracked_orders : Ledger) : list string :=
  map order_id tracked_orders.

Definition has_order (id : string) (tracked_orders : Ledger) : bool :=
  existsb (String.eqb id) (keys tracked_orders).

(** Modelled from the spec: [add_order] of the missing [OrderMonitor]
    (spec 4.2: [add(order)] fails if order_id already present).  A new
    order is OPEN, with no replacement; [None] is the failure. *)
Definition add_order (order_id token_id market_slug : string) (side : Side)
    (price size : Decimal) (entry_number : option Z)
    (strong_team_price_cents : option Q) (tracked_orders : Ledger) : option Ledger :=
  if has_order order_id tracked_orders then None
  else Some (tracked_orders ++
               [ {| order_id := order_id; token_id := token_id;
                    market_slug := market_slug; side := side;
                    price := price; size := size;
                    entry_number := entry_number;
                    strong_team_price_cents := strong_team_price_cents;
                    status := OPEN; replaced_by := None |} ])%list.

(** Modelled from the spec: [update_order_status] of the missing
    [OrderMonitor] (spec 4.2, [setPresence]: if not present and order
    currently OPEN, transitions to DISAPPEARED). *)
Definition update_order_status (id : string) (still_exists : bool)
    (tracked_orders : Ledger) : Ledger :=
  update_order id
    (fun o => if negb still_exists && status_eqb (status o) OPEN
              then set_status DISAPPEARED o else o)
    tracked_orders.

(** Modelled from the spec: [get_disappeared_orders] of the missing
    [OrderMonitor] (spec 4.2, [disappeared() -> list]). *)
Definition get_disappeared_orders (tracked_orders : Ledger) : list TrackedOrder :=
  filter (fun o => status_eqb (status o) DISAPPEARED) tracked_orders.

(** Modelled from the spec: [mark_order_filled] of the missing
    [OrderMonitor] (spec 4.2, [markFilled(order_id)]). *)
Definition mark_order_filled (id : string) (tracked_orders : Ledger) : Ledger :=
  update_order id (set_status FILLED) tracked_orders.

(** Modelled from the spec: [mark_order_recreated] of the missing
    [OrderMonitor] (spec 4.2, [markRecreated(oldId, newId)]: sets
    old.status=RECREATED, old.replaced_by=newId). *)
Definition mark_order_recreated (old_id new_id : string) (tracked_orders : Ledger) : Ledger :=
  update_order old_id (fun o => set_replaced_by new_id (set_status RECREATED o))
    tracked_orders.

(** Modelled from the spec: [remove_order] of the missing [OrderMonitor]
    (spec 4.2, [remove(order_id)]; spec 3: the order is dropped from the
    ledger entirely). *)
Definition remove_order (id : string) (tracked_orders : Ledger) : Ledger :=
  filter (fun o => negb (String.eqb (order_id o) id)) tracked_orders.

(** Modelled from the spec: the non-terminal statuses of the missing
    [OrderMonitor] are OPEN and DISAPPEARED (spec section 3). *)
Definition is_active (s : Status) : bool :=
  match s with
  | OPEN | DISAPPEARED => true
  | FILLED | RECREATED | REMOVED => false
  end.

(** Modelled from the spec: [get_active_orders_by_market] of the missing
    [OrderMonitor] (spec 4.2, [activeByMarket(slug) -> list] of
    non-terminal orders). *)
Definition get_active_orders_by_market (slug : string) (tracked_orders : Ledger)
    : list TrackedOrder :=
  filter (fun o => String.eqb (market_slug o) slug && is_active (status o))
    tracked_orders.

(** Modelled from the spec: [get_markets_with_orders] of the missing
    [OrderMonitor] (spec 4.2, [marketsWithOrders() -> set of slugs]); the
    slugs in the order in which they enter the set. *)
Definition get_markets_with_orders (tracked_orders : Ledger) : list string :=
  map market_slug tracked_orders.

End OrderMonitor.

(** ** TradeExecutor ([src/execution/trade_executor.py]) *)

Module TradeExecutor.

Import OrderMonitor.

(** The result of a Python call: a value, or an exception. *)
Inductive outcome (A : Type) : Type :=
| Ret (a : A)
| Raise.

Arguments Ret {A} a.
Arguments Raise {A}.

(** An element of [client.get_open_orders()], read with [order.get]:
    a missing key is [None]. *)
Record OpenOrder : Type := mkOpenOrder {
  oo_id : option string;
  oo_asset_id : option string;
  oo_side : option string;
  oo_original_size : option Decimal
}.

(** The calls the executor makes on its collaborators, as they are
    recorded in the environment. *)
Inductive Call : Type :=
| GetOpenOrders
| GetTokenBalance (token_id : string)
| PlaceLimitBuy (token_id : string) (price amount_usdc : Decimal)
| PlaceLimitSell (token_id : string) (price size : Decimal)
| IsMarketActive (market_slug : string)
| RemoveMarket (market_slug : string).

(** The collaborators held by [self], over a state [W] of the world
    outside the executor.  A placement answers [Some id] when the response
    is truthy and has an ['orderID'].  [market_scanner] and [market_queue]
    are optional; when present they stand for [is_market_active] and
    [remove_market]. *)
Record Self (W : Type) : Type := mkSelf {
  client_get_open_orders : W -> outcome (list OpenOrder) * W;
  client_get_token_balance : string -> W -> outcome Decimal * W;
  client_place_limit_buy : string -> Decimal -> Decimal -> W -> outcome (option string) * W;
  client_place_limit_sell : string -> Decimal -> Decimal -> W -> outcome (option string) * W;
  market_scanner : option (string -> W -> outcome bool * W);
  market_queue : option (string -> W -> outcome unit * W)
}.

Arguments client_get_open_orders {W} _ _.
Arguments client_get_token_balance {W} _ _ _.
Arguments client_place_limit_buy {W} _ _ _ _ _.
Arguments client_place_limit_sell {W} _ _ _ _ _.
Arguments market_scanner {W} _.
Arguments market_queue {W} _.

(** Iteration over a Python set of strings built by inserting [xs] in
    order: every element once, in an order the language leaves open. *)
Record SetIteration : Type := mkSetIteration {
  iter_set : list string -> list string;
  iter_set_NoDup : forall xs, NoDup (iter_set xs);
  iter_set_In : forall xs x, In x (iter_set xs) <-> In x xs
}.

(** What a run reads and changes: the outside world, the ledger of
    [self.order_monitor], and the calls made so far (oldest first). *)
Record Env (W : Type) : Type := mkEnv {
  world : W;
  tracked_orders : Ledger;
  calls : list Call
}.

Arguments mkEnv {W} _ _ _.
Arguments world {W} _.
Arguments tracked_orders {W} _.
Arguments calls {W} _.

Definition str_in (x : string) (xs : list string) : bool :=
  existsb (String.eqb x) xs.

(** Truth value of a Python string. *)
Definition truthy (s : string) : bool := negb (String.eqb s "").

Definition opt_eqb (a : option string) (b : string) : bool :=
  match a with
  | Some x => String.eqb x b
  | None => false
  end.

(** [tokens_in_market[token_id]]: the tracked BUY orders of one token and
    the favored start price read off the first of them. *)
Record TokenData : Type := mkTokenData {
  buy_orders : list TrackedOrder;
  td_strong_team_price_cents : option Q
}.

(** One BUY order enters [tokens_in_market], a dict in insertion order:
    the first order of a token creates its entry, later ones are appended
    to ['buy_orders']. *)
Fixpoint tokens_add (tokens_in_market : list (string * TokenData))
    (order_data : TrackedOrder) : list (string * TokenData) :=
  match tokens_in_market with
  | [] =>
      [ (token_id order_data,
         {| buy_orders := [order_data];
            td_strong_team_price_cents := strong_team_price_cents order_data |}) ]
  | (t, token_data) :: rest =>
      if String.eqb t (token_id order_data)
      then (t, {| buy_orders := (buy_orders token_data ++ [order_data])%list;
                  td_strong_team_price_cents :=
                    td_strong_team_price_cents token_data |}) :: rest
      else (t, token_data) :: tokens_add rest order_data
  end.

(** The grouping loop over [market_orders]; orders that are not BUY are
    passed over. *)
Definition group_by_token (market_orders : list TrackedOrder)
    : list (string * TokenData) :=
  fold_left
    (fun tokens_in_market order_data =>
       match side order_data with
       | BUY => tokens_add tokens_in_market order_data
       | SELL => tokens_in_market
       end)
    market_orders [].

(** [sum(1 for order in all_open_orders if order.get('asset_id') ==
    token_id and order.get('side') == 'BUY')]. *)
Definition open_buy_count_of (all_open_orders : list OpenOrder) (token_id : string) : Z :=
  Z.of_nat
    (List.length
       (filter (fun order => opt_eqb (oo_asset_id order) token_id
                             && opt_eqb (oo_side order) "BUY")
               all_open_orders)).

(** [sum(Decimal(str(order.get('original_size', 0))) for ... 'SELL')]. *)
Definition existing_sell_size_of (all_open_orders : list OpenOrder) (token_id : string)
    : Decimal :=
  fold_left
    (fun acc order =>
       if opt_eqb (oo_asset_id order) token_id && opt_eqb (oo_side order) "SELL"
       then decimal_add acc match oo_original_size order with
                            | Some original_size => original_size
                            | None => 0%Q
                            end
       else acc)
    all_open_orders 0%Q.

(** The [filled_entries] built from [enumerate(buy_orders[:n])], from
    index [i] on: [order_data.get('entry_number', i + 1)]. *)
Fixpoint build_filled_entries (i : Z) (orders : list TrackedOrder)
    : list EntryStrategy.FilledEntry :=
  match orders with
  | [] => []
  | order_data :: rest =>
      {| EntryStrategy.fe_entry_number :=
           match entry_number order_data with
           | Some n => n
           | None => i + 1
           end;
         EntryStrategy.fe_price := price order_data |}
      :: build_filled_entries (i + 1) rest
  end.

(** [if strong_team_price_cents:], false for [None] and for zero. *)
Definition price_recorded (strong_team_price_cents : option Q) : bool :=
  match strong_team_price_cents with
  | Some c => negb (Qeq_bool c 0)
  | None => false
  end.

Section Executor.

Context {W : Type}.
Variable self : Self W.
Variable sets : SetIteration.

(** *** A state and exception monad for the method bodies *)

Definition M (A : Type) : Type := Env W -> outcome A * Env W.

Definition ret {A : Type} (a : A) : M A := fun e => (Ret a, e).

Definition bind {A B : Type} (m : M A) (k : A -> M B) : M B :=
  fun e =>
    match m e with
    | (Ret a, e') => k a e'
    | (Raise, e') => (Raise, e')
    end.

Definition raise {A : Type} : M A := fun e => (Raise, e).

(** [try: body / except Exception: handler]; what the body changed before
    it raised stays changed. *)
Definition try_except {A : Type} (body handler : M A) : M A :=
  fun e =>
    match body e with
    | (Ret a, e') => (Ret a, e')
    | (Raise, e') => handler e'
    end.

Notation "x <- m ;; k" := (bind m (fun x => k))
  (at level 61, m at next level, right associativity).
Notation "m ;;; k" := (bind m (fun _ => k))
  (at level 61, right associativity).

(** A call on a collaborator, recorded in [calls]. *)
Definition external {A : Type} (c : Call) (f : W -> outcome A * W) : M A :=
  fun e =>
    let (r, w') := f (world e) in
    (r, mkEnv w' (tracked_orders e) (calls e ++ [c])%list).

(** A method of [self.order_monitor] that updates the ledger. *)
Definition order_monitor (f : Ledger -> Ledger) : M unit :=
  fun e => (Ret tt, mkEnv (world e) (f (tracked_orders e)) (calls e)).

(** A method of [self.order_monitor] that reads the ledger. *)
Definition order_monitor_get {A : Type} (f : Ledger -> A) : M A :=
  fun e => (Ret (f (tracked_orders e)), e).

(** [self.order_monitor.add_order(...)]; a failed [add] is an exception. *)
Definition order_monitor_add_order (order_id token_id market_slug : string)
    (side : Side) (price size : Decimal) (entry_number : option Z)
    (strong_team_price_cents : option Q) : M unit :=
  fun e =>
    match add_order order_id token_id market_slug side price size entry_number
            strong_team_price_cents (tracked_orders e) with
    | Some l => (Ret tt, mkEnv (world e) l (calls e))
    | None => (Raise, e)
    end.

(** A [for] loop whose body has no result. *)
Fixpoint for_each {A : Type} (xs : list A) (body : A -> M unit) : M unit :=
  match xs with
  | [] => ret tt
  | x :: rest => body x ;;; for_each rest body
  end.

(** A [for] loop whose body adds to a counter. *)
Fixpoint for_sum {A : Type} (xs : list A) (body : A -> M nat) (count : nat) : M nat :=
  match xs with
  | [] => ret count
  | x :: rest => n <- body x ;; for_sum rest body (count + n)%nat
  end.

Definition get_open_orders : M (list OpenOrder) :=
  external GetOpenOrders (client_get_open_orders self).

Definition get_token_balance (token_id : string) : M Decimal :=
  external (GetTokenBalance token_id) (client_get_token_balance self token_id).

Definition place_limit_buy (token_id : string) (price amount_usdc : Decimal)
    : M (option string) :=
  external (PlaceLimitBuy token_id price amount_usdc)
    (client_place_limit_buy self token_id price amount_usdc).

Definition place_limit_sell (token_id : string) (price size : Decimal)
    : M (option string) :=
  external (PlaceLimitSell token_id price size)
    (client_place_limit_sell self token_id price size).

(** *** place_entry_orders *)

(** One turn of the loop of [place_entry_orders], from [placed_order_ids]
    to its next value.  The id is appended before the size is computed and
    the order tracked, so it stays in the list when one of them raises
    ([amount_usd / price] raises on a zero price). *)
Definition place_entry_order (strong_team_price_cents : option Q)
    (placed_order_ids : list string) (order_spec : EntryStrategy.OrderSpec)
    : M (list string) :=
  response <- try_except
                (place_limit_buy (EntryStrategy.os_token_id order_spec)
                   (EntryStrategy.os_price order_spec)
                   (EntryStrategy.os_amount_usd order_spec))
                (ret None) ;;
  match response with
  | Some order_id =>
      let placed_order_ids := (placed_order_ids ++ [order_id])%list in
      try_except
        ((if Qeq_bool (EntryStrategy.os_price order_spec) 0
          then raise
          else
            let size := decimal_div (EntryStrategy.os_amount_usd order_spec)
                          (EntryStrategy.os_price order_spec) in
            order_monitor_add_order order_id
              (EntryStrategy.os_token_id order_spec)
              (EntryStrategy.os_market_slug order_spec)
              BUY
              (EntryStrategy.os_price order_spec)
              size
              (Some (EntryStrategy.os_entry_number order_spec))
              strong_team_price_cents) ;;;
         ret placed_order_ids)
        (ret placed_order_ids)
  | None => ret placed_order_ids
  end.

Fixpoint place_entry_orders_from (strong_team_price_cents : option Q)
    (placed_order_ids : list string) (orders : list EntryStrategy.OrderSpec)
    : M (list string) :=
  match orders with
  | [] => ret placed_order_ids
  | order_spec :: rest =>
      ids <- place_entry_order strong_team_price_cents placed_order_ids order_spec ;;
      place_entry_orders_from strong_team_price_cents ids rest
  end.

Definition place_entry_orders (orders : list EntryStrategy.OrderSpec)
    (strong_team_price_cents : option Q) : M (list string) :=
  place_entry_orders_from strong_team_price_cents [] orders.

(** *** place_take_profit_orders *)

Definition place_take_profit_orders (token_id market_slug team_name : string)
    (tp_price position_size : Decimal) : M (option string) :=
  try_except
    (response <- place_limit_sell token_id tp_price position_size ;;
     match response with
     | Some order_id =>
         order_monitor_add_order order_id token_id market_slug SELL
           tp_price position_size None None ;;;
         ret (Some order_id)
     | None => ret None
     end)
    (ret None).

(** *** check_and_recreate_orders *)

(** [{order.get('id') for order in open_orders if order.get('id')}]. *)
Definition open_order_ids_of (open_orders : list OpenOrder) : list string :=
  flat_map (fun order =>
              match oo_id order with
              | Some id => if truthy id then [id] else []
              | None => []
              end)
           open_orders.

(** The batch check: one [is_market_active] per market of
    [unique_markets]; the inactive ones are collected. *)
Fixpoint batch_check (is_market_active : string -> W -> outcome bool * W)
    (unique_markets : list string) (ended_markets : list string)
    : M (list string) :=
  match unique_markets with
  | [] => ret ended_markets
  | market_slug :: rest =>
      active <- external (IsMarketActive market_slug) (is_market_active market_slug) ;;
      batch_check is_market_active rest
        (if active then ended_markets else (ended_markets ++ [market_slug])%list)
  end.

(** The body of the [try] for one disappeared order; the result is what
    it adds to [recreated_count]. *)
Definition recreate_order_body (ended_markets : list string)
    (order_data : TrackedOrder) : M nat :=
  let market_slug := market_slug order_data in
  if str_in market_slug ended_markets
  then
    order_monitor (remove_order (order_id order_data)) ;;;
    match market_queue self with
    | Some remove_market =>
        external (RemoveMarket market_slug) (remove_market market_slug) ;;;
        ret 0%nat
    | None => ret 0%nat
    end
  else
    let token_id := token_id order_data in
    existing_balance <- get_token_balance token_id ;;
    if negb (Qle_bool existing_balance 0.1)
    then
      order_monitor (mark_order_filled (order_id order_data)) ;;;
      ret 0%nat
    else
      let side := side order_data in
      let price := price order_data in
      let size := size order_data in
      response <- match side with
                  | BUY =>
                      let amount_usd := decimal_mul price size in
                      place_limit_buy token_id price amount_usd
                  | SELL => place_limit_sell token_id price size
                  end ;;
      match response with
      | Some new_order_id =>
          order_monitor_add_order new_order_id token_id market_slug side
            price size (entry_number order_data) None ;;;
          order_monitor (mark_order_recreated (order_id order_data) new_order_id) ;;;
          ret 1%nat
      | None => ret 0%nat
      end.

(** One turn of the loop over the disappeared orders. *)
Definition recreate_order (ended_markets : list string) (order_data : TrackedOrder)
    : M nat :=
  try_except (recreate_order_body ended_markets order_data) (ret 0%nat).

Definition check_and_recreate_orders : M nat :=
  open_orders <- get_open_orders ;;
  let open_order_ids := open_order_ids_of open_orders in
  order_ids <- order_monitor_get keys ;;
  for_each order_ids
    (fun order_id =>
       let still_exists := str_in order_id open_order_ids in
       order_monitor (update_order_status order_id still_exists)) ;;;
  disappeared <- order_monitor_get get_disappeared_orders ;;
  match disappeared with
  | [] => ret 0%nat
  | _ :: _ =>
      ended_markets <- match market_scanner self with
                       | Some is_market_active =>
                           let unique_markets :=
                             iter_set sets (map market_slug disappeared) in
                           batch_check is_market_active unique_markets []
                       | None => ret []
                       end ;;
      for_sum disappeared (recreate_order ended_markets) 0%nat
  end.

(** *** check_filled_positions_and_set_tp *)

(** Place one leg and count it.  Every leg the strategy returns has a
    price ([EntryStrategy.calculate_take_profit_orders] fills ['price'] on
    each, see [take_profit_price_set]), so the [None] arm is never taken. *)
Definition place_leg (token_id market_slug : string) (tp_spec : EntryStrategy.TPSpec)
    : M nat :=
  match EntryStrategy.tp_price tp_spec with
  | Some tp_price =>
      tp_order_id <- place_take_profit_orders token_id market_slug
                       (EntryStrategy.tp_label tp_spec) tp_price
                       (EntryStrategy.tp_size tp_spec) ;;
      match tp_order_id with
      | Some id => ret (if truthy id then 1%nat else 0%nat)
      | None => ret 0%nat
      end
  | None => ret 0%nat
  end.

(** The body of [for token_id, token_data in tokens_in_market.items()];
    the result is what it adds to [tp_placed]. *)
Definition set_tp_for_token (all_open_orders : list OpenOrder) (market_slug : string)
    (token_id : string) (token_data : TokenData) : M nat :=
  let buy_orders := buy_orders token_data in
  let strong_team_price_cents := td_strong_team_price_cents token_data in
  let open_buy_count := open_buy_count_of all_open_orders token_id in
  let total_entries := Z.of_nat (List.length buy_orders) in
  let filled_entries_count := total_entries - open_buy_count in
  position_size <- get_token_balance token_id ;;
  if Qle_bool position_size 0
  then ret 0%nat
  else
    let existing_sell_size := existing_sell_size_of all_open_orders token_id in
    let unsold_position := decimal_sub position_size existing_sell_size in
    if Qle_bool unsold_position 0.01
    then ret 0%nat
    else
      let filled_entries :=
        build_filled_entries 0 (py_slice_to buy_orders filled_entries_count) in
      for_each (py_slice_to buy_orders filled_entries_count)
        (fun order_data => order_monitor (mark_order_filled (order_id order_data))) ;;;
      match strong_team_price_cents with
      | Some cents =>
          if price_recorded strong_team_price_cents
          then
            let tp_specs :=
              EntryStrategy.calculate_take_profit_orders filled_entries cents
                unsold_position in
            for_sum tp_specs (place_leg token_id market_slug) 0%nat
          else ret 0%nat
      | None => ret 0%nat
      end.

(** The body of [for market_slug in markets]. *)
Definition set_tp_for_market (all_open_orders : list OpenOrder)
    (already_profitable_markets : list string) (market_slug : string) : M nat :=
  if str_in market_slug already_profitable_markets
  then ret 0%nat
  else
    market_orders <- order_monitor_get (get_active_orders_by_market market_slug) ;;
    let tokens_in_market := group_by_token market_orders in
    for_sum tokens_in_market
      (fun item => set_tp_for_token all_open_orders market_slug (fst item) (snd item))
      0%nat.

Definition check_filled_positions_and_set_tp (already_profitable_markets : list string)
    : M nat :=
  all_open_orders <- get_open_orders ;;
  markets <- order_monitor_get get_markets_with_orders ;;
  for_sum (iter_set sets markets)
    (set_tp_for_market all_open_orders already_profitable_markets) 0%nat.

End Executor.

End TradeExecutor.

(** ** Vocabulary of the statements *)

Module Reading.

Import OrderMonitor TradeExecutor.

(** How often [is_market_active] was asked about [slug] in a list of
    calls, and how often it was asked at all. *)
Definition liveness_queries (slug : string) (cs : list Call) : nat :=
  List.length
    (filter (fun c => match c with
                      | IsMarketActive m => String.eqb m slug
                      | _ => false
                      end) cs).

Definition all_liveness_queries (cs : list Call) : nat :=
  List.length
    (filter (fun c => match c with
                      | IsMarketActive _ => true
                      | _ => false
                      end) cs).

(** Whether a call places an order. *)
Definition is_placement (c : Call) : bool :=
  match c with
  | PlaceLimitBuy _ _ _ | PlaceLimitSell _ _ _ => true
  | _ => false
  end.

(** The ledger after the presence update of [check_and_recreate_orders]:
    every tracked id is checked against the ids the exchange lists. *)
Definition presence_updated (open_order_ids : list string) (l : Ledger) : Ledger :=
  fold_left (fun acc id => update_order_status id (str_in id open_order_ids) acc)
    (keys l) l.

(** The ledger with every order whose id is in [ids] marked FILLED. *)
Definition filled_where (ids : list string) (l : Ledger) : Ledger :=
  map (fun o => if str_in (order_id o) ids then set_status FILLED o else o) l.

(** The number of orders of a ledger in a given status. *)
Definition count_status (s : Status) (l : Ledger) : nat :=
  List.length (filter (fun o => status_eqb (status o) s) l).

(** The ledger entry that replaces [order_data] under the id [new_id]:
    the same token, market, side, price, size and entry number, OPEN, and
    no favored start price. *)
Definition replacement_of (order_data : TrackedOrder) (new_id : string) : TrackedOrder :=
  {| order_id := new_id;
     token_id := token_id order_data;
     market_slug := market_slug order_data;
     side := side order_data;
     price := price order_data;
     size := size order_data;
     entry_number := entry_number order_data;
     strong_team_price_cents := None;
     status := OPEN;
     replaced_by := None |}.

(** The placement that recreates [order_data]: a BUY with the notional
    [price * size], a SELL with the size. *)
Definition recreate_call (order_data : TrackedOrder) : Call :=
  match side order_data with
  | BUY => PlaceLimitBuy (token_id order_data) (price order_data)
             (decimal_mul (price order_data) (size order_data))
  | SELL => PlaceLimitSell (token_id order_data) (price order_data) (size order_data)
  end.

(** What the client answers to that placement in the world [w]. *)
Definition recreate_answer {W : Type} (self : Self W) (order_data : TrackedOrder) (w : W)
    : outcome (option string) * W :=
  match side order_data with
  | BUY => client_place_limit_buy self (token_id order_data) (price order_data)
             (decimal_mul (price order_data) (size order_data)) w
  | SELL => client_place_limit_sell self (token_id order_data) (price order_data)
              (size order_data) w
  end.

(** What the turn of one disappeared order can do to the ledger, with
    what it adds to [recreated_count]: nothing; the removal of the order;
    the order marked FILLED; or a replacement under a new id with the
    order marked RECREATED and linked to it. *)
Inductive turn_effect (order_data : TrackedOrder) (l : Ledger) : nat -> Ledger -> Prop :=
| turn_unchanged : turn_effect order_data l 0 l
| turn_removed : turn_effect order_data l 0 (remove_order (order_id order_data) l)
| turn_filled : turn_effect order_data l 0 (mark_order_filled (order_id order_data) l)
| turn_recreated (new_id : string) :
    has_order new_id l = false ->
    turn_effect order_data l 1
      (mark_order_recreated (order_id order_data) new_id
         (l ++ [replacement_of order_data new_id])%list).

(** The market slugs of the orders that [check_and_recreate_orders] finds
    disappeared in [e]: those of the DISAPPEARED orders of the ledger once
    its presence has been updated from the listing of the exchange. *)
Definition disappeared_slugs {W : Type} (self : Self W) (e : Env W) : list string :=
  match client_get_open_orders self (world e) with
  | (Ret open_orders, _) =>
      map market_slug
        (get_disappeared_orders
           (presence_updated (open_order_ids_of open_orders) (tracked_orders e)))
  | (Raise, _) => []
  end.

(** [tokens_in_market[token_id]], when the token has an entry. *)
Fixpoint token_group (token_id : string) (tokens_in_market : list (string * TokenData))
    : option TokenData :=
  match tokens_in_market with
  | [] => None
  | (t, token_data) :: rest =>
      if String.eqb t token_id then Some token_data else token_group token_id rest
  end.

(** The BUY orders of a token among the orders of a market. *)
Definition buys_of (token : string) (market_orders : list TrackedOrder)
    : list TrackedOrder :=
  filter (fun o => side_eqb (side o) BUY && String.eqb (token_id o) token) market_orders.

(** The orders of the market [m] in a ledger, in ledger order. *)
Definition orders_of (m : string) (l : Ledger) : list TrackedOrder :=
  filter (fun o => String.eqb (market_slug o) m) l.

(** Every order of [l] is still tracked in [l'] under its id and market. *)
Definition keeps_ids (l l' : Ledger) : Prop :=
  forall o, In o l ->
    exists o', In o' l' /\ order_id o' = order_id o /\ market_slug o' = market_slug o.

(** A change of the ledger that leaves the market [m] alone: every order
    stays tracked and, over distinct ids, the ids stay distinct and the
    orders of [m] are the same records as before. *)
Definition leaves_market (m : string) (l l' : Ledger) : Prop :=
  keeps_ids l l' /\
  (NoDup (keys l) -> NoDup (keys l') /\ orders_of m l' = orders_of m l).

(** The placement that [place_entry_orders] makes for a specification. *)
Definition entry_call (order_spec : EntryStrategy.OrderSpec) : Call :=
  PlaceLimitBuy (EntryStrategy.os_token_id order_spec)
    (EntryStrategy.os_price order_spec) (EntryStrategy.os_amount_usd order_spec).

(** The ledger entry under which [place_entry_orders] tracks a placed
    specification: a BUY of [amount_usd / price] shares, OPEN, with the
    entry number of the specification and the favored start price. *)
Definition entry_order (strong_team_price_cents : option Q) (id : string)
    (order_spec : EntryStrategy.OrderSpec) : TrackedOrder :=
  {| order_id := id;
     token_id := EntryStrategy.os_token_id order_spec;
     market_slug := EntryStrategy.os_market_slug order_spec;
     side := BUY;
     price := EntryStrategy.os_price order_spec;
     size := decimal_div (EntryStrategy.os_amount_usd order_spec)
               (EntryStrategy.os_price order_spec);
     entry_number := Some (EntryStrategy.os_entry_number order_spec);
     strong_team_price_cents := strong_team_price_cents;
     status := OPEN;
     replaced_by := None |}.

(** The ledger entry under which [place_take_profit_orders] tracks a
    placed leg. *)
Definition take_profit_order (id token slug : string) (tp_price position_size : Decimal)
    : TrackedOrder :=
  {| order_id := id; token_id := token; market_slug := slug; side := SELL;
     price := tp_price; size := position_size; entry_number := None;
     strong_team_price_cents := None; status := OPEN; replaced_by := None |}.

(** Calls that read from the exchange, and how many calls of a list place
    an order or ask for a balance. *)
Definition is_exchange_read (c : Call) : bool :=
  match c with
  | GetOpenOrders | GetTokenBalance _ => true
  | _ => false
  end.

Definition is_balance_query (c : Call) : bool :=
  match c with
  | GetTokenBalance _ => true
  | _ => false
  end.

Definition placements (cs : list Call) : nat := List.length (filter is_placement cs).

Definition balance_queries (cs : list Call) : nat :=
  List.length (filter is_balance_query cs).

(** An order as it was, or marked FILLED. *)
Definition same_or_filled (o o' : TrackedOrder) : Prop :=
  o' = o \/ o' = set_status FILLED o.

(** A ledger that kept every order in place, each as it was or marked
    FILLED, and gained [n] SELL orders at its end. *)
Definition grown_by_sells (n : nat) (l l' : Ledger) : Prop :=
  exists kept added,
    l' = (kept ++ added)%list /\ Forall2 same_or_filled l kept /\
    Forall (fun o => side o = SELL) added /\ List.length added = n.

(** The calls that [check_filled_positions_and_set_tp] makes inside its
    loops: balance queries and SELL placements. *)
Definition is_sell_placement (c : Call) : bool :=
  match c with
  | PlaceLimitSell _ _ _ => true
  | _ => false
  end.

Definition sells_placed (cs : list Call) : nat :=
  List.length (filter is_sell_placement cs).

Definition take_profit_call (c : Call) : bool :=
  is_balance_query c || is_sell_placement c.

(** What a stretch of [check_filled_positions_and_set_tp] does between
    two environments, when it started with [count] take-profit orders
    counted and ended with the outcome [r]: the ledger grew by SELL
    orders only, at most one per SELL placement, the counter grew by at
    most that many, only balances were queried and SELL orders placed,
    and an exception comes right after a balance query. *)
Definition take_profit_pass {W : Type} (count : nat) (r : outcome nat)
    (e e' : Env W) : Prop :=
  exists n cs,
    grown_by_sells n (tracked_orders e) (tracked_orders e') /\
    calls e' = (calls e ++ cs)%list /\
    forallb take_profit_call cs = true /\
    (n <= sells_placed cs)%nat /\
    match r with
    | Ret k => (count <= k <= count + n)%nat
    | Raise => exists before token, cs = (before ++ [GetTokenBalance token])%list
    end.

(** The same of a run from [e], given as its outcome and final
    environment. *)
Definition take_profit_run {W : Type} (count : nat) (e : Env W)
    (run : outcome nat * Env W) : Prop :=
  take_profit_pass count (fst run) e (snd run).

(** The calls that a turn of the loop over the disappeared orders can
    make: a balance query, a placement, a removal from the queue. *)
Definition turn_call (c : Call) : bool :=
  match c with
  | GetTokenBalance _ | PlaceLimitBuy _ _ _ | PlaceLimitSell _ _ _
  | RemoveMarket _ => true
  | _ => false
  end.

(** The shares offered by a list of orders. *)
Definition total_size (orders : list TrackedOrder) : Decimal :=
  fold_right (fun o acc => (size o + acc)%Q) 0%Q orders.

(** An OPEN SELL order of [h] shares on a token of a market. *)
Definition sell_of (token slug : string) (h : Decimal) (o : TrackedOrder) : Prop :=
  side o = SELL /\ token_id o = token /\ market_slug o = slug /\ status o = OPEN /\
  size o = h.

(** The pass of the scanner in [check_and_recreate_orders]: the ended
    markets among those of the disappeared orders, each market asked
    once; without a scanner no market counts as ended. *)
Definition scanner_pass {W : Type} (self : Self W) (sets : SetIteration)
    (disappeared : list TrackedOrder) : Env W -> outcome (list string) * Env W :=
  match market_scanner self with
  | Some is_market_active =>
      batch_check is_market_active (iter_set sets (map market_slug disappeared)) []
  | None => fun e => (Ret [], e)
  end.

(** The orders that [check_and_recreate_orders] finds disappeared when
    the exchange lists [open_orders], and the environment in which it
    finds them: the presence of every tracked order updated, the read
    recorded. *)
Definition found_disappeared (open_orders : list OpenOrder) (l : Ledger)
    : list TrackedOrder :=
  get_disappeared_orders (presence_updated (open_order_ids_of open_orders) l).

Definition after_read {W : Type} (e : Env W) (open_orders : list OpenOrder) (w1 : W)
    : Env W :=
  mkEnv w1 (presence_updated (open_order_ids_of open_orders) (tracked_orders e))
    (calls e ++ [GetOpenOrders])%list.

(** The turn of one disappeared order, as the reconciliation is meant to
    take it: from the environment [e] it adds [n] to the count of
    recreated orders and ends in the environment given.  The order of an
    ended market is removed and the queue told; an order whose token shows
    a balance above 0.1 is marked FILLED; otherwise the order is placed
    again, and when the placement answers with a new id the replacement is
    tracked and the order marked RECREATED and linked to it.  A balance
    query that raises, and a placement that raises, answers without an id
    or answers with an id that is tracked already, end the turn with the
    ledger as it was. *)
Inductive turn_run {W : Type} (self : Self W) (ended_markets : list string)
    (order_data : TrackedOrder) (e : Env W) : nat -> Env W -> Prop :=
| run_ended :
    str_in (market_slug order_data) ended_markets = true ->
    turn_run self ended_markets order_data e 0
      match market_queue self with
      | Some remove_market =>
          mkEnv (snd (remove_market (market_slug order_data) (world e)))
            (remove_order (order_id order_data) (tracked_orders e))
            (calls e ++ [RemoveMarket (market_slug order_data)])%list
      | None =>
          mkEnv (world e) (remove_order (order_id order_data) (tracked_orders e))
            (calls e)
      end
| run_filled (b : Decimal) (w1 : W) :
    str_in (market_slug order_data) ended_markets = false ->
    client_get_token_balance self (token_id order_data) (world e) = (Ret b, w1) ->
    (0.1 < b)%Q ->
    turn_run self ended_markets order_data e 0
      (mkEnv w1 (mark_order_filled (order_id order_data) (tracked_orders e))
         (calls e ++ [GetTokenBalance (token_id order_data)])%list)
| run_recreated (b : Decimal) (w1 : W) (new_id : string) (w2 : W) :
    str_in (market_slug order_data) ended_markets = false ->
    client_get_token_balance self (token_id order_data) (world e) = (Ret b, w1) ->
    (b <= 0.1)%Q ->
    recreate_answer self order_data w1 = (Ret (Some new_id), w2) ->
    has_order new_id (tracked_orders e) = false ->
    turn_run self ended_markets order_data e 1
      (mkEnv w2
         (mark_order_recreated (order_id order_data) new_id
            (tracked_orders e ++ [replacement_of order_data new_id])%list)
         (calls e ++ [GetTokenBalance (token_id order_data);
                      recreate_call order_data])%list)
| run_balance_raised (w1 : W) :
    str_in (market_slug order_data) ended_markets = false ->
    client_get_token_balance self (token_id order_data) (world e) = (Raise, w1) ->
    turn_run self ended_markets order_data e 0
      (mkEnv w1 (tracked_orders e)
         (calls e ++ [GetTokenBalance (token_id order_data)])%list)
| run_not_placed (b : Decimal) (w1 : W) (r : outcome (option string)) (w2 : W) :
    str_in (market_slug order_data) ended_markets = false ->
    client_get_token_balance self (token_id order_data) (world e) = (Ret b, w1) ->
    (b <= 0.1)%Q ->
    recreate_answer self order_data w1 = (r, w2) ->
    match r with
    | Ret (Some new_id) => has_order new_id (tracked_orders e) = true
    | Ret None | Raise => True
    end ->
    turn_run self ended_markets order_data e 0
      (mkEnv w2 (tracked_orders e)
         (calls e ++ [GetTokenBalance (token_id order_data);
                      recreate_call order_data])%list).

(** The turns of a list of disappeared orders, one after the other, each
    from the environment the one before it left; [n] is what they add to
    the count together. *)
Inductive turns_run {W : Type} (self : Self W) (ended_markets : list string)
    : list TrackedOrder -> Env W -> nat -> Env W -> Prop :=
| turns_done (e : Env W) : turns_run self ended_markets [] e 0 e
| turns_next (order_data : TrackedOrder) (rest : list TrackedOrder)
    (e e1 e' : Env W) (k n : nat) :
    turn_run self ended_markets order_data e k e1 ->
    turns_run self ended_markets rest e1 n e' ->
    turns_run self ended_markets (order_data :: rest) e (k + n) e'.

(** A turn that fails: the queue raises at the order of an ended market,
    the balance query raises, or the placement raises, answers without an
    order id, or answers with an id that is tracked already. *)
Definition turn_fails {W : Type} (self : Self W) (ended_markets : list string)
    (order_data : TrackedOrder) (e : Env W) : Prop :=
  (str_in (market_slug order_data) ended_markets = true /\
   exists remove_market,
     market_queue self = Some remove_market /\
     fst (remove_market (market_slug order_data) (world e)) = Raise)
  \/ (str_in (market_slug order_data) ended_markets = false /\
      exists w1,
        client_get_token_balance self (token_id order_data) (world e) = (Raise, w1))
  \/ (str_in (market_slug order_data) ended_markets = false /\
      exists b w1 r w2,
        client_get_token_balance self (token_id order_data) (world e) = (Ret b, w1) /\
        (b <= 0.1)%Q /\
        recreate_answer self order_data w1 = (r, w2) /\
        match r with
        | Ret (Some new_id) => has_order new_id (tracked_orders e) = true
        | Ret None | Raise => True
        end).

(** The token groups that [check_filled_positions_and_set_tp] visits over
    a ledger, in order: for every market with tracked orders, in the order
    in which the set of markets is iterated, unless it is in the skip set,
    the groups of its active orders by token. *)
Definition visits (sets : SetIteration) (already_profitable_markets : list string)
    (l : Ledger) : list (string * (string * TokenData)) :=
  flat_map
    (fun market_slug =>
       if str_in market_slug already_profitable_markets then []
       else map (fun item => (market_slug, item))
              (group_by_token (get_active_orders_by_market market_slug l)))
    (iter_set sets (get_markets_with_orders l)).

(** The turn of a visited group. *)
Definition visit_turn {W : Type} (self : Self W) (all_open_orders : list OpenOrder)
    (v : string * (string * TokenData)) : Env W -> outcome nat * Env W :=
  set_tp_for_token self all_open_orders (fst v) (fst (snd v)) (snd (snd v)).

(** A token whose group is passed over whenever its balance is asked:
    the balance is at most 0, or what is unsold of it is at most 0.01. *)
Definition always_passed_over {W : Type} (self : Self W)
    (all_open_orders : list OpenOrder) (token : string) : Prop :=
  forall w, exists b w',
    client_get_token_balance self token w = (Ret b, w') /\
    ((b <= 0)%Q \/
     (decimal_sub b (existing_sell_size_of all_open_orders token) <= 0.01)%Q).

(** An order as another one was tracked, up to its status and its link
    to a replacement. *)
Definition tracked_as (o0 o : TrackedOrder) : Prop :=
  order_id o = order_id o0 /\ token_id o = token_id o0 /\
  market_slug o = market_slug o0 /\ side o = side o0 /\
  price o = price o0 /\ size o = size o0 /\
  entry_number o = entry_number o0 /\
  strong_team_price_cents o = strong_team_price_cents o0.

(** An order of the ledger after a reconciliation: one that was tracked
    in [l] before it, or the replacement of one of the [disappeared]
    orders. *)
Definition tracked_or_replacement (l : Ledger) (disappeared : list TrackedOrder)
    (o : TrackedOrder) : Prop :=
  (exists o0, In o0 l /\ tracked_as o0 o)
  \/ (exists d new_id, In d disappeared /\ tracked_as (replacement_of d new_id) o).

(** The placements of the legs of a token, one SELL per leg. *)
Definition leg_calls (token : string) (tp_specs : list EntryStrategy.TPSpec)
    : list Call :=
  flat_map
    (fun tp_spec =>
       match EntryStrategy.tp_price tp_spec with
       | Some tp_price => [PlaceLimitSell token tp_price (EntryStrategy.tp_size tp_spec)]
       | None => []
       end)
    tp_specs.

(** The tracked BUY orders of a group that a turn takes as filled. *)
Definition taken_as_filled (all_open_orders : list OpenOrder) (token : string)
    (data : TokenData) : list TrackedOrder :=
  py_slice_to (buy_orders data)
    (Z.of_nat (List.length (buy_orders data))
     - open_buy_count_of all_open_orders token).

End Reading.

(** ** A small exchange for concrete runs *)

Module Scenario.

Import OrderMonitor TradeExecutor.

(** The outside world of the runs below: what the exchange lists as open,
    the balance per token, the ids the next placements will get, the
    markets the scanner reports as ended, and whether the market queue
    raises on removal. *)
Record World : Type := mkWorld {
  listed : list OpenOrder;
  balances : list (string * Decimal);
  next_ids : list string;
  ended : list string;
  queue_raises : bool
}.

Fixpoint balance_of (token_id : string) (bs : list (string * Decimal)) : Decimal :=
  match bs with
  | [] => 0%Q
  | (t, b) :: rest => if String.eqb t token_id then b else balance_of token_id rest
  end.

(** A placement takes the next id; with none left it answers without an
    order id. *)
Definition place (w : World) : outcome (option string) * World :=
  match next_ids w with
  | id :: rest =>
      (Ret (Some id), mkWorld (listed w) (balances w) rest (ended w) (queue_raises w))
  | [] => (Ret None, w)
  end.

Definition exchange : Self World :=
  {| client_get_open_orders := fun w => (Ret (listed w), w);
     client_get_token_balance := fun t w => (Ret (balance_of t (balances w)), w);
     client_place_limit_buy := fun _ _ _ w => place w;
     client_place_limit_sell := fun _ _ _ w => place w;
     market_scanner := Some (fun slug w => (Ret (negb (str_in slug (ended w))), w));
     market_queue :=
       Some (fun _ w => (if queue_raises w then Raise else Ret tt, w)) |}.

(** Sets iterate in first-insertion order here. *)
Definition insertion_order : SetIteration :=
  {| iter_set := nodup string_dec;
     iter_set_NoDup := fun xs => NoDup_nodup string_dec xs;
     iter_set_In := fun xs x => nodup_In string_dec xs x |}.

Definition entry (id token slug : string) (p s : Decimal) (n : Z)
    (cents : option Q) (st : Status) : TrackedOrder :=
  {| order_id := id; token_id := token; market_slug := slug; side := BUY;
     price := p; size := s; entry_number := Some n;
     strong_team_price_cents := cents; status := st; replaced_by := None |}.

Definition listed_order (id token sd : string) (sz : Decimal) : OpenOrder :=
  {| oo_id := Some id; oo_asset_id := Some token; oo_side := Some sd;
     oo_original_size := Some sz |}.

(** An entry order of a market that has ended, with a market queue that
    raises on removal: the order before and after the exchange stopped
    listing it, and the environments before the call, at the order's turn
    and after it. *)
Definition ended_entry : TrackedOrder :=
  entry "o1" "tok-a" "market-1" 0.42%Q 10%Q 1 (Some 65%Q) OPEN.

Definition ended_world : World := mkWorld [] [] ["n1"] ["market-1"] true.

Definition ended_start : Env World := mkEnv ended_world [ended_entry] [].

Definition ended_turn : Env World :=
  mkEnv ended_world [set_status DISAPPEARED ended_entry]
    [GetOpenOrders; IsMarketActive "market-1"].

Definition ended_after : Env World :=
  mkEnv ended_world []
    [GetOpenOrders; IsMarketActive "market-1"; RemoveMarket "market-1"].

(** Two entry orders tracked on one token, and an exchange that lists
    three open BUY orders on it: the two and one that is not tracked. *)
Definition tracked_two : Ledger :=
  [ entry "o1" "tok-a" "market-1" 0.44%Q 11%Q 1 (Some 65%Q) OPEN;
    entry "o2" "tok-a" "market-1" 0.31%Q 16%Q 2 (Some 65%Q) OPEN ].

Definition crowded_world : World :=
  mkWorld
    [ listed_order "o1" "tok-a" "BUY" 11%Q;
      listed_order "o2" "tok-a" "BUY" 16%Q;
      listed_order "x9" "tok-a" "BUY" 5%Q ]
    [("tok-a", 4%Q)] ["n1"; "n2"] [] false.

Definition crowded_start : Env World := mkEnv crowded_world tracked_two [].

(** The same two orders with only the second still listed, and a
    balance. *)
Definition one_open_start : Env World :=
  mkEnv (mkWorld [listed_order "o2" "tok-a" "BUY" 16%Q] [("tok-a", 11%Q)]
           ["n1"; "n2"] [] false)
    tracked_two [].

(** A market with the favorite at 65 cents, its two entry orders placed
    through [place_entry_orders] with that price recorded, then the second
    entry gone from the listing with no balance, then both entries filled. *)
Definition market_1 : EntryStrategy.Market :=
  EntryStrategy.mkMarket "market-1" "Who wins?"
    (EntryStrategy.mkTeam "tok-a" "Team A" 65%Q).

Definition entry_specs : list EntryStrategy.OrderSpec :=
  match EntryStrategy.calculate_orders 5%Q market_1 with
  | Some orders => orders
  | None => []
  end.

Definition placed : Env World :=
  snd (place_entry_orders exchange entry_specs (Some 65%Q)
         (mkEnv (mkWorld [] [] ["o1"; "o2"] [] false) [] [])).

Definition second_gone : Env World :=
  mkEnv (mkWorld [listed_order "o1" "tok-a" "BUY" 11%Q] [] ["n1"] [] false)
    (tracked_orders placed) [].

Definition recreated : Env World :=
  snd (check_and_recreate_orders exchange insertion_order second_gone).

Definition both_filled : Env World :=
  mkEnv (mkWorld [] [("tok-a", 27%Q)] ["n2"; "n3"] [] false)
    (tracked_orders recreated) [].

(** The same market with both entries gone from the listing and no
    balance, so that both are recreated, and then both replacements
    filled. *)
Definition both_gone : Env World :=
  mkEnv (mkWorld [] [] ["n1"; "n2"] [] false) (tracked_orders placed) [].

Definition both_recreated : Env World :=
  snd (check_and_recreate_orders exchange insertion_order both_gone).

Definition replacements_filled : Env World :=
  mkEnv (mkWorld [] [("tok-a", 27%Q)] ["n3"; "n4"] [] false)
    (tracked_orders both_recreated) [].

(** What a statement shows of a ledger entry: its id, its status and its
    recorded favored start price. *)
Definition summary (o : TrackedOrder) : string * Status * option Q :=
  (order_id o, status o, strong_team_price_cents o).

(** Four tracked orders at one reconciliation: one of an ended market, one
    whose token shows a balance, a take-profit SELL that vanished with
    only dust left, and one the exchange still lists. *)
Definition four_orders : Ledger :=
  [ entry "a1" "tok-a" "market-2" 0.42%Q 10%Q 1 (Some 62%Q) OPEN;
    entry "a2" "tok-b" "market-3" 0.44%Q 10%Q 1 (Some 65%Q) OPEN;
    {| order_id := "a3"; token_id := "tok-c"; market_slug := "market-3";
       side := SELL; price := 0.96%Q; size := 4%Q; entry_number := None;
       strong_team_price_cents := None; status := OPEN; replaced_by := None |};
    entry "a4" "tok-d" "market-4" 0.52%Q 9%Q 1 (Some 72%Q) OPEN ].

Definition four_orders_start : Env World :=
  mkEnv (mkWorld [listed_order "a4" "tok-d" "BUY" 9%Q]
           [("tok-b", 3%Q); ("tok-c", 0.05%Q)] ["n1"] ["market-2"] false)
    four_orders [].

(** The four orders again with a market queue that raises on removal:
    the orders found disappeared, and the environment once the scanner
    has been asked about their markets. *)
Definition failing_queue_start : Env World :=
  mkEnv (mkWorld [listed_order "a4" "tok-d" "BUY" 9%Q]
           [("tok-b", 3%Q); ("tok-c", 0.05%Q)] ["n1"] ["market-2"] true)
    four_orders [].

Definition four_gone : list TrackedOrder :=
  Reading.found_disappeared [listed_order "a4" "tok-d" "BUY" 9%Q] four_orders.

Definition four_scanned : Env World :=
  mkEnv (world failing_queue_start)
    (Reading.presence_updated ["a4"] four_orders)
    [GetOpenOrders; IsMarketActive "market-2"; IsMarketActive "market-3"].

(** The two orders again, the second still listed, and no balance on the
    token. *)
Definition no_balance_start : Env World :=
  mkEnv (mkWorld [listed_order "o2" "tok-a" "BUY" 16%Q] [] ["n1"; "n2"] [] false)
    tracked_two [].

(** An entry specification with a price of zero, and an environment with
    an empty ledger in which the next two placements are answered with
    the ids o1 and o2. *)
Definition zero_price_spec : EntryStrategy.OrderSpec :=
  EntryStrategy.mkOrderSpec "limit_buy" "tok-a" "Team A" 0%Q 0 5%Q 1 "Who wins?"
    "market-1".

Definition placing_start : Env World :=
  mkEnv (mkWorld [] [] ["o1"; "o2"] [] false) [] [].

(** The two entry specifications of [market_1]. *)
Definition first_spec : EntryStrategy.OrderSpec := nth 0 entry_specs zero_price_spec.

Definition second_spec : EntryStrategy.OrderSpec := nth 1 entry_specs zero_price_spec.

End Scenario.

(** * Properties *)

Local Open Scope list_scope.

(** ** Decimal arithmetic *)

(** A boolean comparison of rationals, read as a proposition. *)
Lemma Qle_bool_false (a b : Q) : Qle_bool a b = false <-> (b < a)%Q.
Proof.
  split; intro H.
  - apply Qnot_le_lt. intro Hle. apply Qle_bool_iff in Hle. congruence.
  - apply not_true_is_false. intro Hle. apply Qle_bool_iff in Hle.
    apply (Qlt_not_le _ _ H Hle).
Qed.

(** *** Powers of ten *)

Lemma pow10_pos (k : Z) : (0 < 10 ^ k)%Q.
Proof. apply Qpower_0_lt. reflexivity. Qed.

Lemma pow10_plus (a b : Z) : (10 ^ (a + b) == 10 ^ a * 10 ^ b)%Q.
Proof. apply Qpower_plus. discriminate. Qed.

Lemma pow10_le (a b : Z) : a <= b -> (10 ^ a <= 10 ^ b)%Q.
Proof. intro H. apply Qpower_le_compat_l; [ exact H | discriminate ]. Qed.

Lemma pow10_lt_inv (a b : Z) : (10 ^ a < 10 ^ b)%Q -> a < b.
Proof. intro H. apply (Qpower_lt_compat_l_inv 10); [ exact H | reflexivity ]. Qed.

Lemma pow10_Z (n : Z) : 0 <= n -> (inject_Z (10 ^ n) == 10 ^ n)%Q.
Proof. intro H. apply (Zpower_Qpower 10 n H). Qed.

(** *** The adjusted exponent *)

Lemma adjusted_from_spec (x : Q) (fuel : nat) :
  forall k,
    (x < 10 ^ (k + 1))%Q -> (10 ^ (k - Z.of_nat fuel) <= x)%Q ->
    (10 ^ adjusted_from fuel k x <= x)%Q /\ (x < 10 ^ (adjusted_from fuel k x + 1))%Q.
Proof.
  induction fuel as [| fuel IH]; intros k Hup Hlow.
  - cbn [adjusted_from]. rewrite Z.sub_0_r in Hlow. split; assumption.
  - cbn [adjusted_from]. destruct (Qle_bool (10 ^ k) x) eqn:Hk.
    + apply Qle_bool_iff in Hk. split; assumption.
    + apply Qle_bool_false in Hk. apply IH.
      * replace (k - 1 + 1) with k by lia. exact Hk.
      * replace (k - 1 - Z.of_nat fuel) with (k - Z.of_nat (S fuel)) by lia.
        exact Hlow.
Qed.

Lemma two_le_ten_pow (n : Z) : 0 <= n -> 2 ^ n <= 10 ^ n.
Proof. intro H. apply Z.pow_le_mono_l. lia. Qed.

Lemma adjusted_spec (x : Q) :
  (0 < x)%Q -> (10 ^ adjusted x <= x)%Q /\ (x < 10 ^ (adjusted x + 1))%Q.
Proof.
  intro Hx. unfold adjusted.
  destruct x as [n d]. cbn [Qnum Qden].
  assert (Hn : 0 < n).
  { unfold Qlt in Hx. cbn in Hx. lia. }
  pose proof (Z.log2_nonneg n) as Hln.
  pose proof (Z.log2_nonneg (Z.pos d)) as Hld.
  apply adjusted_from_spec.
  - (* x <= n < 2^(log2 n + 1) <= 10^(log2 n + 1) *)
    apply Qle_lt_trans with (inject_Z n).
    + unfold Qle. cbn. nia.
    + apply Qlt_le_trans with (inject_Z (10 ^ (Z.log2 n + 1))).
      * rewrite <- Zlt_Qlt.
        apply Z.lt_le_trans with (2 ^ (Z.log2 n + 1)).
        -- replace (Z.log2 n + 1) with (Z.succ (Z.log2 n)) by lia.
           apply Z.log2_spec. exact Hn.
        -- apply two_le_ten_pow. lia.
      * rewrite pow10_Z by lia. apply Qle_refl.
  - rewrite Z2Nat.id by lia.
    replace (Z.log2 n - (Z.log2 n + Z.log2 (Z.pos d) + 1))
      with (- (Z.log2 (Z.pos d) + 1)) by lia.
    set (m := Z.log2 (Z.pos d) + 1).
    rewrite Qpower_opp.
    assert (Hm : (0 < 10 ^ m)%Q) by apply pow10_pos.
    assert (Hd : (inject_Z (Z.pos d) <= 10 ^ m)%Q).
    { rewrite <- pow10_Z by (subst m; lia). rewrite <- Zle_Qle.
      apply Z.le_trans with (2 ^ m).
      - subst m. replace (Z.log2 (Z.pos d) + 1) with (Z.succ (Z.log2 (Z.pos d))) by lia.
        apply Z.lt_le_incl. apply Z.log2_spec. lia.
      - apply two_le_ten_pow. subst m. lia. }
    assert (Hone : (1 <= (n # d) * 10 ^ m)%Q).
    { apply Qle_trans with ((n # d) * inject_Z (Z.pos d))%Q.
      - unfold Qle. cbn. nia.
      - apply Qmult_le_l; [ exact Hx | exact Hd ]. }
    apply Qle_shift_inv_r; [ exact Hm | ].
    rewrite Qmult_comm in Hone. rewrite Qmult_comm. exact Hone.
Qed.

(** *** Rounding to an integer, ties to even *)

Lemma round_half_even_floor (y : Q) :
  Qfloor y <= round_half_even y <= Qfloor y + 1.
Proof.
  unfold round_half_even.
  destruct (y - inject_Z (Qfloor y) ?= 1 # 2)%Q; [ | lia | lia ].
  destruct (Z.even (Qfloor y)); lia.
Qed.

Lemma round_half_even_Z (n : Z) : round_half_even (inject_Z n) = n.
Proof.
  unfold round_half_even. rewrite Qfloor_Z.
  destruct (Qcompare_spec (inject_Z n - inject_Z n) (1 # 2)) as [H | H | H];
    [ exfalso; lra | reflexivity | exfalso; lra ].
Qed.

Lemma round_half_even_mono (y z : Q) :
  (y <= z)%Q -> round_half_even y <= round_half_even z.
Proof.
  intro Hyz.
  pose proof (Qfloor_resp_le y z Hyz) as Hf.
  pose proof (round_half_even_floor y) as Hy.
  pose proof (round_half_even_floor z) as Hz.
  destruct (Z.eq_dec (Qfloor y) (Qfloor z)) as [Heq | Hne]; [ | lia ].
  unfold round_half_even in *. rewrite <- Heq in *.
  set (f := Qfloor y) in *.
  destruct (Qcompare_spec (y - inject_Z f) (1 # 2)) as [Cy | Cy | Cy];
    destruct (Qcompare_spec (z - inject_Z f) (1 # 2)) as [Cz | Cz | Cz];
    try lia; try (destruct (Z.even f); lia); exfalso; lra.
Qed.

(** *** Rounding to the precision of the context *)

Lemma rounded_zero (x : Q) : (x == 0)%Q -> rounded x = 0%Q.
Proof.
  intro H. unfold rounded. apply Qeq_bool_iff in H. rewrite H. reflexivity.
Qed.

Lemma rounded_nonzero (x : Q) :
  ~ (x == 0)%Q ->
  rounded x =
    (inject_Z (round_half_even (x / 10 ^ (adjusted (Qabs x) - prec + 1)))
     * 10 ^ (adjusted (Qabs x) - prec + 1))%Q.
Proof.
  intro H. unfold rounded.
  destruct (Qeq_bool x 0) eqn:Hx; [ | reflexivity ].
  apply Qeq_bool_iff in Hx. contradiction.
Qed.

Lemma scaled_le (e : Z) (x y : Q) : (x <= y)%Q -> (x / 10 ^ e <= y / 10 ^ e)%Q.
Proof.
  intro H. unfold Qdiv. apply Qmult_le_compat_r; [ exact H | ].
  apply Qinv_le_0_compat. apply Qlt_le_weak. apply pow10_pos.
Qed.

Lemma scaled_pow (k e : Z) : (10 ^ k / 10 ^ e == 10 ^ (k - e))%Q.
Proof. symmetry. apply Qpower_minus. discriminate. Qed.

(** A positive number rounds into its own decade. *)
Lemma rounded_pos_bounds (x : Q) :
  (0 < x)%Q ->
  (10 ^ adjusted (Qabs x) <= rounded x)%Q /\
  (rounded x <= 10 ^ (adjusted (Qabs x) + 1))%Q.
Proof.
  intro Hx.
  assert (Habs : (Qabs x == x)%Q) by (apply Qabs_pos; lra).
  assert (Hpos : (0 < Qabs x)%Q) by (rewrite Habs; exact Hx).
  destruct (adjusted_spec (Qabs x) Hpos) as [Hlow Hup].
  set (k := adjusted (Qabs x)) in *.
  rewrite Habs in Hlow, Hup.
  rewrite rounded_nonzero by lra. fold k.
  set (e := k - prec + 1).
  assert (He : (0 < 10 ^ e)%Q) by apply pow10_pos.
  split.
  - assert (H : 10 ^ 27 <= round_half_even (x / 10 ^ e)).
    { rewrite <- (round_half_even_Z (10 ^ 27)). apply round_half_even_mono.
      rewrite pow10_Z by lia.
      assert (Hk : (10 ^ 27 == 10 ^ k / 10 ^ e)%Q).
      { rewrite scaled_pow. subst e. unfold prec.
        replace (k - (k - 28 + 1)) with 27 by lia. reflexivity. }
      rewrite Hk. apply scaled_le. exact Hlow. }
    apply Qle_trans with (inject_Z (10 ^ 27) * 10 ^ e)%Q.
    + rewrite pow10_Z by lia. rewrite <- pow10_plus. subst e. unfold prec.
      replace (27 + (k - 28 + 1)) with k by lia. apply Qle_refl.
    + apply Qmult_le_compat_r; [ | lra ]. rewrite <- Zle_Qle. exact H.
  - assert (H : round_half_even (x / 10 ^ e) <= 10 ^ 28).
    { rewrite <- (round_half_even_Z (10 ^ 28)). apply round_half_even_mono.
      rewrite pow10_Z by lia.
      assert (Hk : (10 ^ 28 == 10 ^ (k + 1) / 10 ^ e)%Q).
      { rewrite scaled_pow. subst e. unfold prec.
        replace (k + 1 - (k - 28 + 1)) with 28 by lia. reflexivity. }
      rewrite Hk. apply scaled_le. lra. }
    apply Qle_trans with (inject_Z (10 ^ 28) * 10 ^ e)%Q.
    + apply Qmult_le_compat_r; [ | lra ]. rewrite <- Zle_Qle. exact H.
    + rewrite pow10_Z by lia. rewrite <- pow10_plus. subst e. unfold prec.
      replace (28 + (k - 28 + 1)) with (k + 1) by lia. apply Qle_refl.
Qed.

(** A negative number rounds into its own decade. *)
Lemma rounded_neg_bounds (x : Q) :
  (x < 0)%Q ->
  (- 10 ^ (adjusted (Qabs x) + 1) <= rounded x)%Q /\
  (rounded x <= - 10 ^ adjusted (Qabs x))%Q.
Proof.
  intro Hx.
  assert (Habs : (Qabs x == - x)%Q) by (apply Qabs_neg; lra).
  assert (Hpos : (0 < Qabs x)%Q) by (rewrite Habs; lra).
  destruct (adjusted_spec (Qabs x) Hpos) as [Hlow Hup].
  set (k := adjusted (Qabs x)) in *.
  rewrite Habs in Hlow, Hup.
  rewrite rounded_nonzero by lra. fold k.
  set (e := k - prec + 1).
  assert (He : (0 < 10 ^ e)%Q) by apply pow10_pos.
  split.
  - assert (H : - 10 ^ 28 <= round_half_even (x / 10 ^ e)).
    { rewrite <- (round_half_even_Z (- 10 ^ 28)). apply round_half_even_mono.
      rewrite inject_Z_opp. rewrite pow10_Z by lia.
      assert (Hk : (- 10 ^ 28 == (- 10 ^ (k + 1)) / 10 ^ e)%Q).
      { assert (H0 : (10 ^ 28 == 10 ^ (k + 1) / 10 ^ e)%Q).
        { rewrite scaled_pow. subst e. unfold prec.
          replace (k + 1 - (k - 28 + 1)) with 28 by lia. reflexivity. }
        rewrite H0. unfold Qdiv. ring. }
      rewrite Hk. apply scaled_le. lra. }
    apply Qle_trans with (inject_Z (- 10 ^ 28) * 10 ^ e)%Q.
    + rewrite inject_Z_opp. rewrite pow10_Z by lia.
      assert (H0 : (10 ^ 28 * 10 ^ e == 10 ^ (k + 1))%Q).
      { rewrite <- pow10_plus. subst e. unfold prec.
        replace (28 + (k - 28 + 1)) with (k + 1) by lia. reflexivity. }
      rewrite <- H0. lra.
    + apply Qmult_le_compat_r; [ | lra ]. rewrite <- Zle_Qle. exact H.
  - assert (H : round_half_even (x / 10 ^ e) <= - 10 ^ 27).
    { rewrite <- (round_half_even_Z (- 10 ^ 27)). apply round_half_even_mono.
      rewrite inject_Z_opp. rewrite pow10_Z by lia.
      assert (Hk : (- 10 ^ 27 == (- 10 ^ k) / 10 ^ e)%Q).
      { assert (H0 : (10 ^ 27 == 10 ^ k / 10 ^ e)%Q).
        { rewrite scaled_pow. subst e. unfold prec.
          replace (k - (k - 28 + 1)) with 27 by lia. reflexivity. }
        rewrite H0. unfold Qdiv. ring. }
      rewrite Hk. apply scaled_le. lra. }
    apply Qle_trans with (inject_Z (- 10 ^ 27) * 10 ^ e)%Q.
    + apply Qmult_le_compat_r; [ | lra ]. rewrite <- Zle_Qle. exact H.
    + rewrite inject_Z_opp. rewrite pow10_Z by lia.
      assert (H0 : (10 ^ 27 * 10 ^ e == 10 ^ k)%Q).
      { rewrite <- pow10_plus. subst e. unfold prec.
        replace (27 + (k - 28 + 1)) with k by lia. reflexivity. }
      rewrite <- H0. lra.
Qed.

(** The adjusted exponent does not fall when the number grows. *)
Lemma adjusted_mono (a b : Q) :
  (0 < a)%Q -> (a <= b)%Q -> adjusted a <= adjusted b.
Proof.
  intros Ha Hab.
  destruct (adjusted_spec a Ha) as [Hla _].
  destruct (adjusted_spec b) as [_ Hub]; [ lra | ].
  assert (H : (10 ^ adjusted a < 10 ^ (adjusted b + 1))%Q) by lra.
  apply pow10_lt_inv in H. lia.
Qed.

Lemma rounded_same_exponent (x y : Q) :
  ~ (x == 0)%Q -> ~ (y == 0)%Q -> (x <= y)%Q ->
  adjusted (Qabs x) = adjusted (Qabs y) ->
  (rounded x <= rounded y)%Q.
Proof.
  intros Hx Hy Hxy Hk.
  rewrite (rounded_nonzero x Hx), (rounded_nonzero y Hy), Hk.
  set (e := adjusted (Qabs y) - prec + 1).
  apply Qmult_le_compat_r.
  - rewrite <- Zle_Qle. apply round_half_even_mono. apply scaled_le. exact Hxy.
  - apply Qlt_le_weak. apply pow10_pos.
Qed.

Lemma rounded_mono (x y : Q) : (x <= y)%Q -> (rounded x <= rounded y)%Q.
Proof.
  intro Hxy.
  destruct (Q_dec x 0) as [[Hx | Hx] | Hx];
    destruct (Q_dec y 0) as [[Hy | Hy] | Hy]; try (exfalso; lra).
  - (* both negative *)
    assert (Hax : (Qabs x == - x)%Q) by (apply Qabs_neg; lra).
    assert (Hay : (Qabs y == - y)%Q) by (apply Qabs_neg; lra).
    assert (Hk : adjusted (Qabs y) <= adjusted (Qabs x)).
    { apply adjusted_mono; [ rewrite Hay; lra | rewrite Hax, Hay; lra ]. }
    destruct (Z.eq_dec (adjusted (Qabs x)) (adjusted (Qabs y))) as [Heq | Hne].
    + apply rounded_same_exponent; [ lra | lra | exact Hxy | exact Heq ].
    + destruct (rounded_neg_bounds x Hx) as [_ Hux].
      destruct (rounded_neg_bounds y Hy) as [Hly _].
      assert (Hp : (10 ^ (adjusted (Qabs y) + 1) <= 10 ^ adjusted (Qabs x))%Q)
        by (apply pow10_le; lia).
      lra.
  - destruct (rounded_neg_bounds x Hx) as [_ Hux].
    destruct (rounded_pos_bounds y Hy) as [Hly _].
    pose proof (pow10_pos (adjusted (Qabs x))) as Hp.
    pose proof (pow10_pos (adjusted (Qabs y))) as Hq.
    lra.
  - destruct (rounded_neg_bounds x Hx) as [_ Hux].
    pose proof (pow10_pos (adjusted (Qabs x))) as Hp.
    rewrite (rounded_zero y Hy). lra.
  - (* both positive *)
    assert (Hax : (Qabs x == x)%Q) by (apply Qabs_pos; lra).
    assert (Hay : (Qabs y == y)%Q) by (apply Qabs_pos; lra).
    assert (Hk : adjusted (Qabs x) <= adjusted (Qabs y)).
    { apply adjusted_mono; [ rewrite Hax; lra | rewrite Hax, Hay; lra ]. }
    destruct (Z.eq_dec (adjusted (Qabs x)) (adjusted (Qabs y))) as [Heq | Hne].
    + apply rounded_same_exponent; [ lra | lra | exact Hxy | exact Heq ].
    + destruct (rounded_pos_bounds x Hx) as [_ Hux].
      destruct (rounded_pos_bounds y Hy) as [Hly _].
      assert (Hp : (10 ^ (adjusted (Qabs x) + 1) <= 10 ^ adjusted (Qabs y))%Q)
        by (apply pow10_le; lia).
      lra.
  - rewrite (rounded_zero x Hx). destruct (rounded_pos_bounds y Hy) as [Hly _].
    pose proof (pow10_pos (adjusted (Qabs y))) as Hq. lra.
  - rewrite (rounded_zero x Hx), (rounded_zero y Hy). apply Qle_refl.
Qed.

Lemma context_round_rounded (x : Q) : (context_round x == rounded x)%Q.
Proof.
  unfold context_round. destruct (Qeq_bool (rounded x) x) eqn:H.
  - apply Qeq_bool_iff in H. symmetry. exact H.
  - reflexivity.
Qed.

Lemma context_round_mono (x y : Q) :
  (x <= y)%Q -> (context_round x <= context_round y)%Q.
Proof.
  intro H. rewrite !context_round_rounded. apply rounded_mono. exact H.
Qed.

Lemma round_half_even_comp (y z : Q) :
  (y == z)%Q -> round_half_even y = round_half_even z.
Proof.
  intro H. apply Z.le_antisymm; apply round_half_even_mono; rewrite H; apply Qle_refl.
Qed.

Lemma rounded_comp (x y : Q) : (x == y)%Q -> (rounded x == rounded y)%Q.
Proof.
  intro H. apply Qle_antisym; apply rounded_mono; rewrite H; apply Qle_refl.
Qed.

(** A number of at most 28 significant digits is not changed. *)
Lemma rounded_short (m j : Z) :
  Z.abs m < 10 ^ 28 -> (rounded (inject_Z m * 10 ^ j) == inject_Z m * 10 ^ j)%Q.
Proof.
  intro Hm. set (x := (inject_Z m * 10 ^ j)%Q).
  pose proof (pow10_pos j) as Hj.
  destruct (Z.eq_dec m 0) as [-> | Hm0].
  { subst x. rewrite rounded_zero by apply Qmult_0_l. symmetry. apply Qmult_0_l. }
  assert (Hx0 : ~ (x == 0)%Q).
  { subst x. intro H. apply Qmult_integral in H. destruct H as [H | H]; [ | lra ].
    apply Hm0. apply (inject_Z_injective m 0). exact H. }
  assert (Habs : (Qabs x == inject_Z (Z.abs m) * 10 ^ j)%Q).
  { subst x. rewrite Qabs_Qmult. rewrite (Qabs_pos (10 ^ j)) by lra.
    apply Qmult_comp; [ | reflexivity ].
    unfold Qabs, inject_Z. reflexivity. }
  assert (Hpos : (0 < Qabs x)%Q).
  { rewrite Habs. apply Qmult_lt_0_compat; [ | exact Hj ].
    change 0%Q with (inject_Z 0). rewrite <- Zlt_Qlt. lia. }
  destruct (adjusted_spec (Qabs x) Hpos) as [Hlow _].
  rewrite (rounded_nonzero x Hx0).
  set (k := adjusted (Qabs x)) in *.
  set (e := k - prec + 1).
  assert (Hke : e <= j).
  { assert (H : (10 ^ k < 10 ^ (28 + j))%Q).
    { apply Qle_lt_trans with (Qabs x); [ exact Hlow | ].
      rewrite Habs, pow10_plus. apply Qmult_lt_compat_r; [ exact Hj | ].
      rewrite <- pow10_Z by lia. rewrite <- Zlt_Qlt. exact Hm. }
    apply pow10_lt_inv in H. subst e. unfold prec. lia. }
  assert (Hscaled : (x / 10 ^ e == inject_Z (m * 10 ^ (j - e)))%Q).
  { rewrite inject_Z_mult, pow10_Z by lia. subst x. unfold Qdiv.
    rewrite <- Qmult_assoc. apply Qmult_comp; [ reflexivity | ].
    fold (Qdiv (10 ^ j) (10 ^ e)). apply scaled_pow. }
  rewrite (round_half_even_comp _ _ Hscaled).
  rewrite round_half_even_Z, inject_Z_mult, pow10_Z by lia.
  subst x. rewrite <- Qmult_assoc. apply Qmult_comp; [ reflexivity | ].
  rewrite <- pow10_plus. replace (j - e + e) with j by lia. reflexivity.
Qed.

Lemma context_round_short (x : Q) : digits_at_most 28 x -> (context_round x == x)%Q.
Proof.
  intros [m [j [Hm Hx]]].
  rewrite context_round_rounded, (rounded_comp _ _ Hx), rounded_short by exact Hm.
  symmetry. exact Hx.
Qed.

(** Half of a number of at most 27 significant digits has at most 28. *)
Lemma half_digits (x : Q) : digits_at_most 27 x -> digits_at_most 28 (x / 2).
Proof.
  intros [m [j [Hm Hx]]]. exists (5 * m), (j - 1). split.
  - change (10 ^ 28) with (10 * 10 ^ 27). lia.
  - rewrite Hx, inject_Z_mult.
    assert (H : (10 ^ j == 10 * 10 ^ (j - 1))%Q).
    { rewrite <- (Qpower_1_r 10) at 2. rewrite <- pow10_plus.
      replace (1 + (j - 1)) with j by lia. reflexivity. }
    rewrite H. unfold Qdiv. change (inject_Z 5) with 5%Q. field.
Qed.

(** ** The entry ladder *)

Import EntryStrategy.

Ltac qle_cases :=
  repeat match goal with
         | |- context [Qle_bool ?a ?b] =>
             let E := fresh "E" in
             destruct (Qle_bool a b) eqn:E;
             [ apply Qle_bool_iff in E | apply Qle_bool_false in E ];
             cbn [andb negb]
         end.

(** The entry configuration of a band, as [get_entry_prices] builds it. *)
Lemma band_config (size p : Q) (lo hi : Q) (e1 e2 : Z) :
  In ((lo, hi), (e1, e2)) STRATEGY_TABLE ->
  (lo <= p <= hi)%Q ->
  get_entry_prices size p =
    Some (mkEntryConfig e1 (cents_to_price (inject_Z e1))
                        e2 (cents_to_price (inject_Z e2)) size).
Proof.
  intros Hin [Hlo Hhi].
  unfold STRATEGY_TABLE in Hin. cbn [In] in Hin.
  unfold get_entry_prices, STRATEGY_TABLE, find_band.
  repeat (destruct Hin as [Hin | Hin];
          [ injection Hin as <- <- <- <-; qle_cases;
            try reflexivity; exfalso; lra | ]).
  contradiction.
Qed.

(** Outside every band there is no configuration. *)
Lemma no_band_none (size p : Q) :
  ~ ((61 <= p <= 63.99) \/ (64 <= p <= 66.99) \/ (67 <= p <= 69.99) \/
     (70 <= p <= 74.99) \/ (75 <= p <= 79.99) \/ (80 <= p <= 100))%Q ->
  get_entry_prices size p = None.
Proof.
  intro Hout.
  unfold get_entry_prices, STRATEGY_TABLE, find_band.
  qle_cases; try reflexivity; exfalso; apply Hout; lra.
Qed.

(** C2. For every favored price [p], [get_entry_prices] returns a result
    exactly when [p] lies in one of the six closed bands [61,63.99],
    [64,66.99], [67,69.99], [70,74.99], [75,79.99], [80,100]; within a band
    the result carries the table's entry cents (42/27, 44/31, 45/33, 52/38,
    58/42, 68/55), the prices being those cents over 100 and the size the
    strategy's own; the result is [None] below 61, above 100 and strictly
    inside each sub-cent gap between two bands; and 65 gives 44/31, 80
    gives 68/55, 60 gives [None], 63.99 gives 42/27 and 64.0 gives 44/31. *)
Theorem get_entry_prices_bands (size p : Q) :
  let config e1 e2 :=
    Some (mkEntryConfig e1 (cents_to_price (inject_Z e1))
                        e2 (cents_to_price (inject_Z e2)) size) in
  (get_entry_prices size p <> None <->
     ((61 <= p <= 63.99) \/ (64 <= p <= 66.99) \/ (67 <= p <= 69.99) \/
      (70 <= p <= 74.99) \/ (75 <= p <= 79.99) \/ (80 <= p <= 100))%Q)
  /\ ((61 <= p <= 63.99)%Q -> get_entry_prices size p = config 42 27)
  /\ ((64 <= p <= 66.99)%Q -> get_entry_prices size p = config 44 31)
  /\ ((67 <= p <= 69.99)%Q -> get_entry_prices size p = config 45 33)
  /\ ((70 <= p <= 74.99)%Q -> get_entry_prices size p = config 52 38)
  /\ ((75 <= p <= 79.99)%Q -> get_entry_prices size p = config 58 42)
  /\ ((80 <= p <= 100)%Q -> get_entry_prices size p = config 68 55)
  /\ ((p < 61)%Q -> get_entry_prices size p = None)
  /\ ((100 < p)%Q -> get_entry_prices size p = None)
  /\ ((63.99 < p < 64)%Q \/ (66.99 < p < 67)%Q \/ (69.99 < p < 70)%Q \/
      (74.99 < p < 75)%Q \/ (79.99 < p < 80)%Q ->
      get_entry_prices size p = None)
  /\ get_entry_prices size 65 = config 44 31
  /\ get_entry_prices size 80 = config 68 55
  /\ get_entry_prices size 60 = None
  /\ get_entry_prices size 63.99 = config 42 27
  /\ get_entry_prices size 64.0 = config 44 31.
Proof.
  intro config.
  assert (Hband : forall lo hi e1 e2,
             In ((lo, hi), (e1, e2)) STRATEGY_TABLE ->
             (lo <= p <= hi)%Q -> get_entry_prices size p = config e1 e2).
  { intros lo hi e1 e2 Hin Hp. apply (band_config size p lo hi e1 e2 Hin Hp). }
  assert (Hnone : forall q : Q,
             ~ ((61 <= q <= 63.99) \/ (64 <= q <= 66.99) \/ (67 <= q <= 69.99) \/
                (70 <= q <= 74.99) \/ (75 <= q <= 79.99) \/ (80 <= q <= 100))%Q ->
             get_entry_prices size q = None).
  { intros q Hq. apply (no_band_none size q Hq). }
  split.
  { split.
    - intro Hsome.
      destruct (Qlt_le_dec p 61) as [H61 | H61];
        [ exfalso; apply Hsome, Hnone; lra | ].
      destruct (Qlt_le_dec 100 p) as [H100 | H100];
        [ exfalso; apply Hsome, Hnone; lra | ].
      destruct (Qlt_le_dec 63.99 p) as [Ha | Ha]; [ | left; lra ].
      destruct (Qlt_le_dec p 64) as [Ha' | Ha'];
        [ exfalso; apply Hsome, Hnone; lra | ].
      destruct (Qlt_le_dec 66.99 p) as [Hb | Hb]; [ | right; left; lra ].
      destruct (Qlt_le_dec p 67) as [Hb' | Hb'];
        [ exfalso; apply Hsome, Hnone; lra | ].
      destruct (Qlt_le_dec 69.99 p) as [Hc | Hc]; [ | do 2 right; left; lra ].
      destruct (Qlt_le_dec p 70) as [Hc' | Hc'];
        [ exfalso; apply Hsome, Hnone; lra | ].
      destruct (Qlt_le_dec 74.99 p) as [Hd | Hd]; [ | do 3 right; left; lra ].
      destruct (Qlt_le_dec p 75) as [Hd' | Hd'];
        [ exfalso; apply Hsome, Hnone; lra | ].
      destruct (Qlt_le_dec 79.99 p) as [He | He]; [ | do 4 right; left; lra ].
      destruct (Qlt_le_dec p 80) as [He' | He'];
        [ exfalso; apply Hsome, Hnone; lra | ].
      do 5 right; lra.
    - intros [H | [H | [H | [H | [H | H]]]]].
      + rewrite (Hband _ _ 42 27 (or_introl eq_refl) H). discriminate.
      + rewrite (Hband _ _ 44 31 (or_intror (or_introl eq_refl)) H). discriminate.
      + rewrite (Hband _ _ 45 33 (or_intror (or_intror (or_introl eq_refl))) H).
        discriminate.
      + rewrite (Hband _ _ 52 38
                   (or_intror (or_intror (or_intror (or_introl eq_refl)))) H).
        discriminate.
      + rewrite (Hband _ _ 58 42
                   (or_intror (or_intror (or_intror (or_intror (or_introl eq_refl))))) H).
        discriminate.
      + rewrite (Hband _ _ 68 55
                   (or_intror (or_intror (or_intror (or_intror
                      (or_intror (or_introl eq_refl)))))) H).
        discriminate. }
  split; [ intro H; apply (Hband _ _ _ _ (or_introl eq_refl) H) | ].
  split; [ intro H; apply (Hband _ _ _ _ (or_intror (or_introl eq_refl)) H) | ].
  split; [ intro H;
           apply (Hband _ _ _ _ (or_intror (or_intror (or_introl eq_refl))) H) | ].
  split; [ intro H;
           apply (Hband _ _ _ _
                    (or_intror (or_intror (or_intror (or_introl eq_refl)))) H) | ].
  split; [ intro H;
           apply (Hband _ _ _ _
                    (or_intror (or_intror (or_intror (or_intror (or_introl eq_refl)))))
                    H) | ].
  split; [ intro H;
           apply (Hband _ _ _ _
                    (or_intror (or_intror (or_intror (or_intror
                       (or_intror (or_introl eq_refl)))))) H) | ].
  split; [ intro H; apply Hnone; lra | ].
  split; [ intro H; apply Hnone; lra | ].
  split; [ intro H; apply Hnone; lra | ].
  repeat split; reflexivity.
Qed.

(** C9. For every market whose favored price falls in a band of the table,
    [calculate_orders] returns exactly two [limit_buy] specifications on
    the favored outcome's token, priced at the band's entry 1 and entry 2,
    each with the notional [entry_size_usd], numbered 1 and 2; outside all
    bands it returns [None]. *)
Theorem calculate_orders_two_buys (size : Q) (market : Market) :
  let p := team_price_cents (strong_team market) in
  let spec cents n :=
    mkOrderSpec "limit_buy" (team_token_id (strong_team market))
      (team_name (strong_team market)) (cents_to_price (inject_Z cents)) cents
      size n (market_question market) (market_slug market) in
  (forall lo hi e1 e2,
      In ((lo, hi), (e1, e2)) STRATEGY_TABLE -> (lo <= p <= hi)%Q ->
      calculate_orders size market = Some [spec e1 1; spec e2 2])
  /\ (~ ((61 <= p <= 63.99) \/ (64 <= p <= 66.99) \/ (67 <= p <= 69.99) \/
         (70 <= p <= 74.99) \/ (75 <= p <= 79.99) \/ (80 <= p <= 100))%Q ->
      calculate_orders size market = None).
Proof.
  intros p spec. split.
  - intros lo hi e1 e2 Hin Hp. unfold calculate_orders. fold p.
    rewrite (band_config size p lo hi e1 e2 Hin Hp). reflexivity.
  - intro Hout. unfold calculate_orders. fold p.
    rewrite (no_band_none size p Hout). reflexivity.
Qed.

(** ** The take-profit split *)

Lemma py_in_In (x : Z) (xs : list Z) : py_in x xs = true <-> In x xs.
Proof.
  unfold py_in. rewrite existsb_exists. split.
  - intros [y [Hy Heq]]. apply Z.eqb_eq in Heq. subst. exact Hy.
  - intro H. exists x. split; [ exact H | apply Z.eqb_refl ].
Qed.

Lemma py_in_not_In (x : Z) (xs : list Z) : py_in x xs = false <-> ~ In x xs.
Proof.
  rewrite <- py_in_In. destruct (py_in x xs); split; congruence.
Qed.

(** The scan keeps what it was given for entry 1 when no entry is
    numbered 1. *)
Lemma scan_entry1_keep (filled : list FilledEntry) (p1 p2 : option Decimal) :
  (forall e, In e filled -> fe_entry_number e <> 1) ->
  fst (scan_entry_prices filled p1 p2) = p1.
Proof.
  revert p1 p2. induction filled as [| e rest IH]; intros p1 p2 Hno; cbn.
  - reflexivity.
  - destruct (Z.eqb_spec (fe_entry_number e) 1) as [H1 | H1].
    + exfalso. apply (Hno e); [ left; reflexivity | exact H1 ].
    + destruct (fe_entry_number e =? 2); apply IH;
        intros x Hx; apply Hno; right; exact Hx.
Qed.

(** [entry1_price] is the price of the last filled entry numbered 1. *)
Lemma scan_entry1_last (pre post : list FilledEntry) (e : FilledEntry)
    (p1 p2 : option Decimal) :
  fe_entry_number e = 1 ->
  (forall x, In x post -> fe_entry_number x <> 1) ->
  fst (scan_entry_prices (pre ++ e :: post) p1 p2) = Some (fe_price e).
Proof.
  intros He Hpost. revert p1 p2.
  induction pre as [| a pre IH]; intros p1 p2; cbn.
  - rewrite He. cbn. apply scan_entry1_keep. exact Hpost.
  - destruct (fe_entry_number a =? 1); [ apply IH | ].
    destruct (fe_entry_number a =? 2); apply IH.
Qed.

(** A list with an entry numbered [n] splits at the last such entry. *)
Lemma last_numbered (n : Z) (filled : list FilledEntry) :
  In n (map fe_entry_number filled) ->
  exists pre e post,
    filled = (pre ++ e :: post)%list /\ fe_entry_number e = n /\
    (forall x, In x post -> fe_entry_number x <> n).
Proof.
  induction filled as [| a rest IH]; cbn; [ contradiction | ].
  intros Hin.
  destruct (in_dec Z.eq_dec n (map fe_entry_number rest)) as [Hrest | Hrest].
  - destruct (IH Hrest) as [pre [e [post [-> [He Hpost]]]]].
    exists (a :: pre), e, post. repeat split; assumption.
  - destruct Hin as [Ha | Hin]; [ | contradiction ].
    exists [], a, rest. repeat split; [ exact Ha | ].
    intros x Hx Hn. apply Hrest. rewrite <- Hn. apply in_map. exact Hx.
Qed.

(** Every leg that [calculate_take_profit_orders] returns has a price. *)
Lemma take_profit_price_set (filled : list FilledEntry) (cents total : Q)
    (leg : TPSpec) :
  In leg (calculate_take_profit_orders filled cents total) ->
  tp_price leg <> None.
Proof.
  unfold calculate_take_profit_orders.
  destruct (scan_entry_prices filled None None) as [p1 p2] eqn:Hscan.
  destruct (py_in 1 (map fe_entry_number filled)) eqn:H1;
    destruct (py_in 2 (map fe_entry_number filled)) eqn:H2; cbn.
  - apply py_in_In in H1.
    destruct (last_numbered 1 filled H1) as [pre [e [post [Heq [He Hpost]]]]].
    pose proof (scan_entry1_last pre post e None None He Hpost) as Hlast.
    rewrite <- Heq, Hscan in Hlast. cbn in Hlast. subst p1.
    intros [<- | [<- | []]]; discriminate.
  - intros [<- | [<- | []]]; discriminate.
  - intros [<- | [<- | []]]; discriminate.
  - contradiction.
Qed.

(** C4. [calculate_take_profit_orders] by case: with entry 1 filled and
    entry 2 not, the legs are at the favored start price and at the fixed
    ceiling 0.96; with both filled, at the price of entry 1 (the last
    filled entry numbered 1) and at the favored start price; with entry 2
    filled and entry 1 not, the same legs as with entry 1 alone; with no
    filled entry, or none numbered 1 or 2, none.  Every set of filled
    entries that holds entry 1 or entry 2 gives exactly two legs, each of
    size [total / 2], the quotient of the decimal context. *)
Theorem take_profit_cases (filled : list FilledEntry) (cents total : Q) :
  let nums := map fe_entry_number filled in
  let half := decimal_div total 2%Q in
  let start := cents_to_price cents in
  let result := calculate_take_profit_orders filled cents total in
  let start_and_ceiling :=
    [ mkTPSpec (Some start) half "TP1 (50% at start price)";
      mkTPSpec (Some 0.96%Q) half "TP2 (50% at 0.96)" ] in
  (In 1 nums -> ~ In 2 nums -> result = start_and_ceiling)
  /\ (In 1 nums -> In 2 nums ->
      exists pre e post,
        filled = (pre ++ e :: post)%list /\ fe_entry_number e = 1 /\
        (forall x, In x post -> fe_entry_number x <> 1) /\
        result = [ mkTPSpec (Some (fe_price e)) half "TP1 (50% at Entry1 price)";
                   mkTPSpec (Some start) half "TP2 (50% at start price)" ])
  /\ (In 2 nums -> ~ In 1 nums -> result = start_and_ceiling)
  /\ (filled = [] -> result = [])
  /\ (~ In 1 nums -> ~ In 2 nums -> result = [])
  /\ (In 1 nums \/ In 2 nums ->
      exists a b, result = [a; b] /\ tp_size a = half /\ tp_size b = half).
Proof.
  intros nums half start result start_and_ceiling.
  assert (Hcase : forall b1 b2,
             py_in 1 nums = b1 -> py_in 2 nums = b2 ->
             result =
               if b1 && negb b2 then start_and_ceiling
               else if b1 && b2
                    then [ mkTPSpec (fst (scan_entry_prices filled None None)) half
                             "TP1 (50% at Entry1 price)";
                           mkTPSpec (Some start) half "TP2 (50% at start price)" ]
                    else if b2 && negb b1 then start_and_ceiling else []).
  { intros b1 b2 H1 H2. subst result. unfold calculate_take_profit_orders.
    fold nums. rewrite H1, H2.
    destruct (scan_entry_prices filled None None) as [p1 p2].
    destruct b1, b2; reflexivity. }
  split; [ | split; [ | split; [ | split; [ | split ] ] ] ].
  - intros H1 H2. apply py_in_In in H1. apply py_in_not_In in H2.
    apply (Hcase true false H1 H2).
  - intros H1 H2.
    destruct (last_numbered 1 filled H1) as [pre [e [post [Heq [He Hpost]]]]].
    exists pre, e, post. repeat split; try assumption.
    apply py_in_In in H1. apply py_in_In in H2.
    rewrite (Hcase true true H1 H2). cbn [andb negb].
    rewrite Heq at 1. rewrite (scan_entry1_last pre post e None None He Hpost).
    reflexivity.
  - intros H2 H1. apply py_in_In in H2. apply py_in_not_In in H1.
    apply (Hcase false true H1 H2).
  - intros ->. reflexivity.
  - intros H1 H2. apply py_in_not_In in H1. apply py_in_not_In in H2.
    apply (Hcase false false H1 H2).
  - intros Hsome.
    pose proof (Hcase _ _ eq_refl eq_refl) as Hres. clear Hcase.
    destruct (py_in 1 nums) eqn:H1; destruct (py_in 2 nums) eqn:H2;
      cbn [andb negb] in Hres; rewrite Hres.
    + eexists; eexists; repeat split.
    + eexists; eexists; repeat split.
    + eexists; eexists; repeat split.
    + exfalso. apply py_in_not_In in H1. apply py_in_not_In in H2.
      destruct Hsome as [H | H]; [ apply (H1 H) | apply (H2 H) ].
Qed.




(** The two worked take-profit splits: entry 1 alone at 65 cents on a
    total of 10, and both entries with entry 1 bought at 0.44. *)
Example take_profit_entry1_only :
  calculate_take_profit_orders [mkFilledEntry 1 0.44%Q] 65 10%Q =
    [ mkTPSpec (Some (65 / 100)%Q) (10 / 2)%Q "TP1 (50% at start price)";
      mkTPSpec (Some 0.96%Q) (10 / 2)%Q "TP2 (50% at 0.96)" ]
  /\ (65 / 100 == 0.65)%Q /\ (10 / 2 == 5)%Q.
Proof. repeat split. Qed.

Example take_profit_both_entries :
  calculate_take_profit_orders [mkFilledEntry 1 0.44%Q; mkFilledEntry 2 0.31%Q] 65 10%Q =
    [ mkTPSpec (Some 0.44%Q) (10 / 2)%Q "TP1 (50% at Entry1 price)";
      mkTPSpec (Some (65 / 100)%Q) (10 / 2)%Q "TP2 (50% at start price)" ].
Proof. reflexivity. Qed.

(** ** The executor *)

Import OrderMonitor TradeExecutor Reading.

(** *** Calls and loops *)

Lemma external_run {W A : Type} (c : Call) (f : W -> outcome A * W) (e : Env W) :
  external c f e =
    (fst (f (world e)),
     mkEnv (snd (f (world e))) (tracked_orders e) (calls e ++ [c])%list).
Proof.
  unfold external. destruct (f (world e)) as [r w']. reflexivity.
Qed.

Lemma bind_ret_run {W A B : Type} (m : M A) (k : A -> M B) (e e' : Env W) (a : A) :
  m e = (Ret a, e') -> bind m k e = k a e'.
Proof.
  intro H. unfold bind. rewrite H. reflexivity.
Qed.

(** *** One disappeared order *)

Section RecreateOrder.

Context {W : Type}.
Variable self : Self W.
Variable ended_markets : list string.
Variable order_data : TrackedOrder.
Variable e : Env W.

Let id := order_id order_data.
Let token := token_id order_data.
Let slug := market_slug order_data.
Let ledger := tracked_orders e.

(** The order of an ended market is removed, the queue is told when there
    is one, and nothing is placed, whether or not the queue raises. *)
Lemma recreate_order_ended :
  str_in slug ended_markets = true ->
  recreate_order self ended_markets order_data e =
    (Ret 0%nat,
     match market_queue self with
     | Some remove_market =>
         mkEnv (snd (remove_market slug (world e))) (remove_order id ledger)
           (calls e ++ [RemoveMarket slug])%list
     | None => mkEnv (world e) (remove_order id ledger) (calls e)
     end).
Proof.
  intro Hended.
  unfold recreate_order, try_except, recreate_order_body.
  fold slug. rewrite Hended.
  unfold bind, order_monitor. cbn.
  destruct (market_queue self) as [remove_market |]; [ | reflexivity ].
  rewrite external_run. cbn.
  destruct (remove_market slug (world e)) as [[[] |] w']; reflexivity.
Qed.

(** When the liveness check passed and the balance query raises, the
    turn ends with nothing changed in the ledger. *)
Lemma recreate_order_balance_raises (w1 : W) :
  str_in slug ended_markets = false ->
  client_get_token_balance self token (world e) = (Raise, w1) ->
  recreate_order self ended_markets order_data e =
    (Ret 0%nat, mkEnv w1 ledger (calls e ++ [GetTokenBalance token])%list).
Proof.
  intros Hended Hbal.
  unfold recreate_order, try_except, recreate_order_body.
  fold slug token. rewrite Hended.
  unfold bind, get_token_balance. rewrite external_run, Hbal. reflexivity.
Qed.

(** A balance above 0.1 marks the order FILLED; nothing is placed. *)
Lemma recreate_order_filled (b : Decimal) (w1 : W) :
  str_in slug ended_markets = false ->
  client_get_token_balance self token (world e) = (Ret b, w1) ->
  (0.1 < b)%Q ->
  recreate_order self ended_markets order_data e =
    (Ret 0%nat,
     mkEnv w1 (mark_order_filled id ledger) (calls e ++ [GetTokenBalance token])%list).
Proof.
  intros Hended Hbal Hb.
  unfold recreate_order, try_except, recreate_order_body.
  fold slug token. rewrite Hended.
  unfold bind, get_token_balance. rewrite external_run, Hbal. cbn.
  apply Qle_bool_false in Hb. rewrite Hb. reflexivity.
Qed.

(** The environment once the balance (at most 0.1) has been read and the
    placement has been answered. *)
Let after_placement (w2 : W) (l : Ledger) : Env W :=
  mkEnv w2 l (calls e ++ [GetTokenBalance token; recreate_call order_data])%list.

Lemma recreate_order_placement (b : Decimal) (w1 : W) :
  str_in slug ended_markets = false ->
  client_get_token_balance self token (world e) = (Ret b, w1) ->
  (b <= 0.1)%Q ->
  recreate_order self ended_markets order_data e =
    match recreate_answer self order_data w1 with
    | (Ret (Some new_id), w2) =>
        if has_order new_id ledger
        then (Ret 0%nat, after_placement w2 ledger)
        else (Ret 1%nat,
              after_placement w2
                (mark_order_recreated id new_id
                   (ledger ++ [replacement_of order_data new_id])%list))
    | (Ret None, w2) => (Ret 0%nat, after_placement w2 ledger)
    | (Raise, w2) => (Ret 0%nat, after_placement w2 ledger)
    end.
Proof.
  intros Hended Hbal Hb.
  unfold recreate_order, try_except, recreate_order_body.
  fold slug token. rewrite Hended.
  unfold bind at 1. unfold get_token_balance. rewrite external_run, Hbal. cbn.
  apply Qle_bool_iff in Hb. rewrite Hb. cbn.
  unfold after_placement, recreate_answer, recreate_call, bind.
  fold token.
  destruct (side order_data) eqn:Hside.
  - unfold place_limit_buy. rewrite external_run. cbn.
    destruct (client_place_limit_buy self token (price order_data)
                (decimal_mul (price order_data) (size order_data)) w1)
      as [[[new_id |] |] w2];
      cbn; rewrite <- ?app_assoc; cbn; try reflexivity.
    unfold order_monitor_add_order, add_order.
    cbn [tracked_orders world calls]. fold ledger.
    destruct (has_order new_id ledger); cbn; [ reflexivity | ].
    unfold replacement_of. rewrite Hside. reflexivity.
  - unfold place_limit_sell. rewrite external_run. cbn.
    destruct (client_place_limit_sell self token (price order_data)
                (size order_data) w1) as [[[new_id |] |] w2];
      cbn; rewrite <- ?app_assoc; cbn; try reflexivity.
    unfold order_monitor_add_order, add_order.
    cbn [tracked_orders world calls]. fold ledger.
    destruct (has_order new_id ledger); cbn; [ reflexivity | ].
    unfold replacement_of. rewrite Hside. reflexivity.
Qed.

End RecreateOrder.

(** *** The ledger *)

Lemma str_in_In (x : string) (xs : list string) : str_in x xs = true <-> In x xs.
Proof.
  unfold str_in. rewrite existsb_exists. split.
  - intros [y [Hy Heq]]. apply String.eqb_eq in Heq. subst. exact Hy.
  - intro H. exists x. split; [ exact H | apply String.eqb_refl ].
Qed.

Lemma str_in_not_In (x : string) (xs : list string) : str_in x xs = false <-> ~ In x xs.
Proof.
  rewrite <- str_in_In. destruct (str_in x xs); split; congruence.
Qed.

Lemma has_order_In (id : string) (l : Ledger) :
  has_order id l = true <-> In id (keys l).
Proof. apply str_in_In. Qed.

Lemma keys_update_order (id : string) (f : TrackedOrder -> TrackedOrder) (l : Ledger) :
  (forall o, order_id (f o) = order_id o) ->
  keys (update_order id f l) = keys l.
Proof.
  intro Hf. unfold keys, update_order. rewrite map_map. apply map_ext.
  intro o. destruct (String.eqb (order_id o) id); [ apply Hf | reflexivity ].
Qed.

Lemma keys_app (a b : Ledger) : keys (a ++ b) = (keys a ++ keys b)%list.
Proof. apply map_app. Qed.

Lemma count_status_app (s : Status) (a b : Ledger) :
  count_status s (a ++ b) = (count_status s a + count_status s b)%nat.
Proof.
  unfold count_status. rewrite filter_app, length_app. reflexivity.
Qed.

(** With distinct ids, the order stored under an id is the only one that
    an update or a removal by that id touches. *)
Lemma ledger_split (d : TrackedOrder) (l : Ledger) :
  NoDup (keys l) -> In d l ->
  exists pre post,
    l = (pre ++ d :: post)%list /\
    (forall f, update_order (order_id d) f l = (pre ++ f d :: post)%list) /\
    remove_order (order_id d) l = (pre ++ post)%list.
Proof.
  induction l as [| a rest IH]; intros Hnd Hin; [ contradiction | ].
  cbn in Hnd. inversion Hnd as [| ? ? Hnotin Hnd']; subst.
  assert (Hfresh : forall x, ~ In x (keys rest) ->
             (forall f, update_order x f rest = rest) /\ remove_order x rest = rest).
  { intros x Hx. split.
    - intro f. unfold update_order. rewrite <- (map_id rest) at 2.
      apply map_ext_in. intros o Ho.
      destruct (String.eqb_spec (order_id o) x) as [Heq | Hneq]; [ | reflexivity ].
      exfalso. apply Hx. rewrite <- Heq. apply in_map. exact Ho.
    - unfold remove_order. apply forallb_filter_id. apply forallb_forall.
      intros o Ho.
      destruct (String.eqb_spec (order_id o) x) as [Heq | Hneq]; [ | reflexivity ].
      exfalso. apply Hx. rewrite <- Heq. apply in_map. exact Ho. }
  destruct Hin as [-> | Hin].
  - exists [], rest. destruct (Hfresh (order_id d) Hnotin) as [Hupd Hrem].
    repeat split.
    + intro f. cbn. rewrite String.eqb_refl. f_equal. apply Hupd.
    + cbn. rewrite String.eqb_refl. cbn. exact Hrem.
  - destruct (IH Hnd' Hin) as [pre [post [Heq [Hupd Hrem]]]].
    assert (Hne : String.eqb (order_id a) (order_id d) = false).
    { apply String.eqb_neq. intro Heq'. apply Hnotin. rewrite Heq'.
      apply in_map. exact Hin. }
    exists (a :: pre), post. repeat split.
    + cbn. f_equal. exact Heq.
    + intro f. cbn. rewrite Hne. f_equal. apply Hupd.
    + cbn. rewrite Hne. cbn. f_equal. exact Hrem.
Qed.

(** The turn of a disappeared order always ends normally, with one of the
    four effects on the ledger, and asks nothing of the market scanner. *)
Lemma recreate_order_effect {W : Type} (self : Self W) (ended_markets : list string)
    (order_data : TrackedOrder) (e : Env W) :
  exists n e' cs,
    recreate_order self ended_markets order_data e = (Ret n, e') /\
    turn_effect order_data (tracked_orders e) n (tracked_orders e') /\
    calls e' = calls e ++ cs /\ all_liveness_queries cs = 0%nat.
Proof.
  destruct (str_in (market_slug order_data) ended_markets) eqn:Hended.
  - pose proof (recreate_order_ended self ended_markets order_data e Hended) as H.
    cbv zeta in H. rewrite H.
    destruct (market_queue self).
    + eexists; eexists; exists [RemoveMarket (market_slug order_data)].
      split; [ reflexivity | ]. cbn.
      split; [ apply turn_removed | split; reflexivity ].
    + eexists; eexists; exists []. split; [ reflexivity | ]. cbn.
      split; [ apply turn_removed | split; [ symmetry; apply app_nil_r | reflexivity ] ].
  - destruct (client_get_token_balance self (token_id order_data) (world e))
      as [[b |] w1] eqn:Hbal.
    + destruct (Qlt_le_dec 0.1 b) as [Hb | Hb].
      * pose proof (recreate_order_filled self ended_markets order_data e b w1
                      Hended Hbal Hb) as H.
        cbv zeta in H. rewrite H.
        eexists; eexists; exists [GetTokenBalance (token_id order_data)].
        split; [ reflexivity | ]. cbn.
        split; [ apply turn_filled | split; reflexivity ].
      * pose proof (recreate_order_placement self ended_markets order_data e b w1
                      Hended Hbal Hb) as H.
        cbv zeta in H. rewrite H.
        assert (Hcs : all_liveness_queries
                        [GetTokenBalance (token_id order_data);
                         recreate_call order_data] = 0%nat).
        { unfold recreate_call. destruct (side order_data); reflexivity. }
        destruct (recreate_answer self order_data w1) as [[[new_id |] |] w2].
        -- destruct (has_order new_id (tracked_orders e)) eqn:Hnew;
             eexists; eexists; eexists; (split; [ reflexivity | ]); cbn.
           ++ split; [ apply turn_unchanged | split; [ reflexivity | exact Hcs ] ].
           ++ split; [ apply turn_recreated; exact Hnew
                     | split; [ reflexivity | exact Hcs ] ].
        -- eexists; eexists; eexists; split; [ reflexivity | ]. cbn.
           split; [ apply turn_unchanged | split; [ reflexivity | exact Hcs ] ].
        -- eexists; eexists; eexists; split; [ reflexivity | ]. cbn.
           split; [ apply turn_unchanged | split; [ reflexivity | exact Hcs ] ].
    + pose proof (recreate_order_balance_raises self ended_markets order_data e w1
                    Hended Hbal) as H.
      cbv zeta in H. rewrite H.
      eexists; eexists; exists [GetTokenBalance (token_id order_data)].
      split; [ reflexivity | ]. cbn.
      split; [ apply turn_unchanged | split; reflexivity ].
Qed.

(** What an effect does to a ledger with distinct ids in which the order
    is tracked as DISAPPEARED: the ids stay distinct, every other order
    stays as it is, and the number of RECREATED orders grows by what the
    turn counted. *)
Lemma turn_effect_invariant (d : TrackedOrder) (l l' : Ledger) (n : nat) :
  turn_effect d l n l' ->
  NoDup (keys l) -> In d l -> status d = DISAPPEARED ->
  NoDup (keys l') /\
  (forall o, In o l -> order_id o <> order_id d -> In o l') /\
  count_status RECREATED l' = (count_status RECREATED l + n)%nat.
Proof.
  intros Heff Hnd Hin Hst.
  destruct (ledger_split d l Hnd Hin) as [pre [post [Hl [Hupd Hrem]]]].
  assert (Hd : count_status RECREATED [d] = 0%nat).
  { unfold count_status. cbn. rewrite Hst. reflexivity. }
  assert (Hcount : count_status RECREATED l =
                     (count_status RECREATED pre + count_status RECREATED post)%nat).
  { rewrite Hl. change (d :: post) with ([d] ++ post).
    rewrite !count_status_app, Hd. lia. }
  assert (Hother : forall o, In o l -> order_id o <> order_id d ->
                     In o pre \/ In o post).
  { intros o Ho Hne. rewrite Hl in Ho. apply in_app_or in Ho.
    destruct Ho as [Ho | [Ho | Ho]]; [ left; exact Ho | | right; exact Ho ].
    subst o. contradiction. }
  destruct Heff as [ | | | new_id Hfresh].
  - repeat split; [ exact Hnd | intros; assumption | lia ].
  - rewrite Hrem. repeat split.
    + rewrite Hl in Hnd. rewrite keys_app in *. cbn in Hnd.
      apply NoDup_remove_1 in Hnd. exact Hnd.
    + intros o Ho Hne. apply in_or_app. apply (Hother o Ho Hne).
    + rewrite count_status_app. lia.
  - unfold mark_order_filled. rewrite Hupd. repeat split.
    + rewrite <- (Hupd (set_status FILLED)).
      rewrite keys_update_order; [ exact Hnd | reflexivity ].
    + intros o Ho Hne. apply in_or_app.
      destruct (Hother o Ho Hne) as [H | H]; [ left | right; right ]; exact H.
    + change (set_status FILLED d :: post) with ([set_status FILLED d] ++ post).
      rewrite !count_status_app. unfold count_status at 2. cbn. lia.
  - set (r := replacement_of d new_id).
    assert (Hnd2 : NoDup (keys (l ++ [r]))).
    { rewrite keys_app. cbn.
      apply NoDup_app; [ exact Hnd | apply NoDup_cons; [ intros [] | apply NoDup_nil ] | ].
      intros x Hx [<- | []].
      assert (Hh : has_order new_id l = true) by (apply has_order_In; exact Hx).
      congruence. }
    assert (Hin2 : In d (l ++ [r])) by (apply in_or_app; left; exact Hin).
    destruct (ledger_split d (l ++ [r]) Hnd2 Hin2) as [pre2 [post2 [Hl2 [Hupd2 _]]]].
    unfold mark_order_recreated. rewrite Hupd2. repeat split.
    + rewrite <- (Hupd2 (fun o => set_replaced_by new_id (set_status RECREATED o))).
      rewrite keys_update_order; [ exact Hnd2 | reflexivity ].
    + intros o Ho Hne.
      assert (Ho2 : In o (pre2 ++ d :: post2)).
      { rewrite <- Hl2. apply in_or_app. left. exact Ho. }
      apply in_app_or in Ho2. apply in_or_app.
      destruct Ho2 as [Ho2 | [Ho2 | Ho2]]; [ left; exact Ho2 | | right; right; exact Ho2 ].
      subst o. contradiction.
    + assert (Hc2 : count_status RECREATED (l ++ [r]) =
                      (count_status RECREATED pre2 + count_status RECREATED post2)%nat).
      { rewrite Hl2. change (d :: post2) with ([d] ++ post2).
        rewrite !count_status_app, Hd. lia. }
      rewrite count_status_app in Hc2.
      assert (Hr : count_status RECREATED [r] = 0%nat) by reflexivity.
      match goal with
      | |- count_status _ (pre2 ++ ?x :: post2) = _ =>
          change (x :: post2) with ([x] ++ post2)
      end.
      rewrite !count_status_app. unfold count_status at 2. cbn. lia.
Qed.

(** *** The loop over the disappeared orders *)

Lemma for_sum_cons_run {W A : Type} (x : A) (rest : list A) (body : A -> @M W nat)
    (count n : nat) (e e1 : Env W) :
  body x e = (Ret n, e1) ->
  for_sum (x :: rest) body count e = for_sum rest body (count + n)%nat e1.
Proof.
  intro H. cbn. unfold bind. rewrite H. reflexivity.
Qed.

(** The loop never raises, and the count it returns grows by the number
    of orders that turned RECREATED. *)
Lemma recreate_loop_count {W : Type} (self : Self W) (ended_markets : list string)
    (rest : list TrackedOrder) :
  forall (count : nat) (e : Env W),
    NoDup (keys (tracked_orders e)) ->
    NoDup (map order_id rest) ->
    (forall o, In o rest -> In o (tracked_orders e) /\ status o = DISAPPEARED) ->
    exists n e',
      for_sum rest (recreate_order self ended_markets) count e = (Ret n, e') /\
      NoDup (keys (tracked_orders e')) /\
      (count_status RECREATED (tracked_orders e') + count =
       count_status RECREATED (tracked_orders e) + n)%nat.
Proof.
  induction rest as [| d rest IH]; intros count e Hnd Hids Hin.
  - exists count, e. split; [ reflexivity | split; [ exact Hnd | lia ] ].
  - destruct (recreate_order_effect self ended_markets d e)
      as [k [e1 [cs [Hrun [Heff _]]]]].
    destruct (Hin d (or_introl eq_refl)) as [Hd Hst].
    destruct (turn_effect_invariant d _ _ k Heff Hnd Hd Hst) as [Hnd1 [Hkeep Hcount]].
    inversion Hids as [| ? ? Hnotin Hids']; subst.
    destruct (IH (count + k)%nat e1 Hnd1 Hids') as [n [e' [Hloop [Hnd' Hc]]]].
    + intros o Ho. destruct (Hin o (or_intror Ho)) as [Hol Host].
      split; [ | exact Host ].
      apply Hkeep; [ exact Hol | ].
      intro Heq. apply Hnotin. rewrite <- Heq. apply in_map. exact Ho.
    + exists n, e'. rewrite (for_sum_cons_run d rest _ count k e e1 Hrun).
      split; [ exact Hloop | split; [ exact Hnd' | lia ] ].
Qed.

(** *** The presence update and the batch check *)

Lemma presence_loop_run {W : Type} (open_order_ids ks : list string) :
  forall e : Env W,
    for_each ks
      (fun order_id =>
         order_monitor (update_order_status order_id (str_in order_id open_order_ids))) e =
      (Ret tt,
       mkEnv (world e)
         (fold_left (fun acc id => update_order_status id (str_in id open_order_ids) acc)
            ks (tracked_orders e))
         (calls e)).
Proof.
  induction ks as [| k ks IH]; intro e; cbn.
  - destruct e; reflexivity.
  - unfold bind, order_monitor. rewrite IH. reflexivity.
Qed.

Lemma keys_update_order_status (id : string) (b : bool) (l : Ledger) :
  keys (update_order_status id b l) = keys l.
Proof.
  apply keys_update_order. intro o.
  destruct (negb b && status_eqb (status o) OPEN); reflexivity.
Qed.

Lemma count_status_map (s : Status) (g : TrackedOrder -> TrackedOrder) (l : Ledger) :
  (forall o, status_eqb (status (g o)) s = status_eqb (status o) s) ->
  count_status s (map g l) = count_status s l.
Proof.
  intro Hg. unfold count_status.
  induction l as [| o rest IH]; cbn; [ reflexivity | ].
  rewrite Hg. destruct (status_eqb (status o) s); cbn; rewrite IH; reflexivity.
Qed.

Lemma recreated_update_order_status (id : string) (b : bool) (l : Ledger) :
  count_status RECREATED (update_order_status id b l) = count_status RECREATED l.
Proof.
  unfold update_order_status, update_order. apply count_status_map.
  intro o. destruct (String.eqb (order_id o) id); [ | reflexivity ].
  destruct (negb b); [ | reflexivity ].
  destruct (status o) eqn:Hst; cbn; rewrite ?Hst; reflexivity.
Qed.

Lemma presence_updated_keys (open_order_ids : list string) (l : Ledger) :
  keys (presence_updated open_order_ids l) = keys l
  /\ count_status RECREATED (presence_updated open_order_ids l) =
     count_status RECREATED l.
Proof.
  unfold presence_updated.
  assert (Hfold : forall ks l0,
             let l1 := fold_left
                         (fun acc id =>
                            update_order_status id (str_in id open_order_ids) acc)
                         ks l0 in
             keys l1 = keys l0 /\
             count_status RECREATED l1 = count_status RECREATED l0).
  { induction ks as [| k ks IH]; intro l0; cbv zeta in *; cbn [fold_left];
      [ split; reflexivity | ].
    destruct (IH (update_order_status k (str_in k open_order_ids) l0)) as [Hk Hc].
    rewrite Hk, Hc, keys_update_order_status, recreated_update_order_status.
    split; reflexivity. }
  apply Hfold.
Qed.

(** A batch check leaves the ledger alone and makes one liveness query
    per market it reaches, in order. *)
Lemma batch_check_frame {W : Type} (f : string -> W -> outcome bool * W)
    (unique_markets : list string) :
  forall (ended_markets : list string) (e e' : Env W) (r : outcome (list string)),
    batch_check f unique_markets ended_markets e = (r, e') ->
    tracked_orders e' = tracked_orders e /\
    exists asked,
      calls e' = calls e ++ map IsMarketActive asked /\
      (exists later, unique_markets = asked ++ later) /\
      (forall ended, r = Ret ended -> asked = unique_markets).
Proof.
  induction unique_markets as [| m ms IH]; intros ended e e' r Hrun; cbn in Hrun.
  - inversion Hrun; subst. split; [ reflexivity | ].
    exists []. cbn. rewrite app_nil_r. repeat split.
    exists []. reflexivity.
  - unfold bind in Hrun. rewrite external_run in Hrun. cbn in Hrun.
    destruct (f m (world e)) as [[active |] w1]; cbn in Hrun.
    + apply IH in Hrun. cbn in Hrun.
      destruct Hrun as [Hl [asked [Hc [[later Hlater] Hall]]]].
      split; [ exact Hl | ].
      exists (m :: asked). cbn. rewrite Hc, <- app_assoc. cbn. repeat split.
      * exists later. rewrite Hlater. reflexivity.
      * intros x Hx. rewrite (Hall x Hx). reflexivity.
    + inversion Hrun; subst. cbn. split; [ reflexivity | ].
      exists [m]. cbn. repeat split.
      * exists ms. reflexivity.
      * intros x Hx. discriminate.
Qed.

(** The markets a batch check collects are those about which the scanner
    answered that they are not active. *)
Lemma batch_check_ended {W : Type} (f : string -> W -> outcome bool * W)
    (unique_markets : list string) :
  forall (acc ended : list string) (e e' : Env W),
    batch_check f unique_markets acc e = (Ret ended, e') ->
    forall s,
      (In s ended ->
       In s acc \/ (In s unique_markets /\ exists w w', f s w = (Ret false, w')))
      /\ (In s acc -> In s ended)
      /\ (In s unique_markets -> (forall w, exists w', f s w = (Ret false, w')) ->
          In s ended).
Proof.
  induction unique_markets as [| m ms IH]; intros acc ended e e' Hrun s;
    cbn in Hrun.
  - inversion Hrun; subst. split; [ | split ].
    + intro H. left. exact H.
    + intro H. exact H.
    + intros [].
  - unfold bind in Hrun. rewrite external_run in Hrun. cbn in Hrun.
    destruct (f m (world e)) as [[active |] w1] eqn:Hf; cbn in Hrun;
      [ | discriminate ].
    destruct (IH _ _ _ _ Hrun s) as [H1 [H2 H3]].
    split; [ | split ].
    + intro Hs. destruct (H1 Hs) as [Hacc | [Hms Hw]].
      * destruct active; [ left; exact Hacc | ].
        apply in_app_or in Hacc. destruct Hacc as [Hacc | [<- | []]].
        -- left. exact Hacc.
        -- right. split; [ left; reflexivity | ]. exists (world e), w1. exact Hf.
      * right. split; [ right; exact Hms | exact Hw ].
    + intro Hacc. apply H2. destruct active; [ exact Hacc | ].
      apply in_or_app. left. exact Hacc.
    + intros [<- | Hms] Hall.
      * apply H2. destruct (Hall (world e)) as [w' Hw']. rewrite Hf in Hw'.
        inversion Hw'; subst. apply in_or_app. right. left. reflexivity.
      * apply (H3 Hms Hall).
Qed.

(** [check_and_recreate_orders], stage by stage. *)
Lemma check_and_recreate_orders_run {W : Type} (self : Self W) (sets : SetIteration)
    (e : Env W) :
  check_and_recreate_orders self sets e =
    match client_get_open_orders self (world e) with
    | (Raise, w1) => (Raise, mkEnv w1 (tracked_orders e) (calls e ++ [GetOpenOrders]))
    | (Ret open_orders, w1) =>
        let l1 := presence_updated (open_order_ids_of open_orders) (tracked_orders e) in
        let e1 := mkEnv w1 l1 (calls e ++ [GetOpenOrders]) in
        match get_disappeared_orders l1 with
        | [] => (Ret 0%nat, e1)
        | d :: ds =>
            bind (match market_scanner self with
                  | Some is_market_active =>
                      batch_check is_market_active
                        (iter_set sets (map market_slug (d :: ds))) []
                  | None => ret []
                  end)
                 (fun ended_markets =>
                    for_sum (d :: ds) (recreate_order self ended_markets) 0%nat)
                 e1
        end
    end.
Proof.
  unfold check_and_recreate_orders.
  unfold bind at 1. unfold get_open_orders. rewrite external_run.
  destruct (client_get_open_orders self (world e)) as [[open_orders |] w1];
    [ | reflexivity ].
  cbn [fst snd]. unfold bind at 1. unfold order_monitor_get at 1.
  cbn [tracked_orders]. unfold bind at 1. rewrite presence_loop_run.
  cbn [world tracked_orders calls]. unfold bind at 1.
  unfold order_monitor_get. cbn [tracked_orders].
  fold (presence_updated (open_order_ids_of open_orders) (tracked_orders e)).
  destruct (get_disappeared_orders
              (presence_updated (open_order_ids_of open_orders) (tracked_orders e)));
    reflexivity.
Qed.

Lemma status_eqb_eq (a b : Status) : status_eqb a b = true <-> a = b.
Proof.
  destruct a, b; cbn; split; intro H; try reflexivity; discriminate.
Qed.

(** A selection of orders from a ledger with distinct ids has distinct
    ids. *)
Lemma keys_filter_NoDup (keep : TrackedOrder -> bool) (ledger : Ledger) :
  NoDup (keys ledger) -> NoDup (keys (filter keep ledger)).
Proof.
  unfold keys. intro Hnd.
  induction ledger as [| o rest IH]; cbn in *; [ exact Hnd | ].
  apply NoDup_cons_iff in Hnd. destruct Hnd as [Hfresh Hrest].
  destruct (keep o); cbn; [ | exact (IH Hrest) ].
  apply NoDup_cons_iff. split; [ | exact (IH Hrest) ].
  intro Hin. apply Hfresh. apply in_map_iff in Hin.
  destruct Hin as [x [Hid Hx]]. apply filter_In in Hx.
  rewrite <- Hid. apply in_map. exact (proj1 Hx).
Qed.

(** Over a ledger with distinct ids, the count that
    [check_and_recreate_orders] returns is the number of orders that turned
    RECREATED during the call. *)
Lemma recreated_count_run {W : Type} (self : Self W) (sets : SetIteration)
    (e e' : Env W) (n : nat) :
  NoDup (keys (tracked_orders e)) ->
  check_and_recreate_orders self sets e = (Ret n, e') ->
  count_status RECREATED (tracked_orders e') =
    (count_status RECREATED (tracked_orders e) + n)%nat.
Proof.
  intros Hnd Hrun. rewrite check_and_recreate_orders_run in Hrun.
  destruct (client_get_open_orders self (world e)) as [[open_orders |] w1];
    [ | discriminate ].
  cbv zeta in Hrun.
  set (l1 := presence_updated (open_order_ids_of open_orders) (tracked_orders e)) in *.
  destruct (presence_updated_keys (open_order_ids_of open_orders) (tracked_orders e))
    as [Hkeys Hcount].
  fold l1 in Hkeys, Hcount.
  assert (Hd : forall o, In o (get_disappeared_orders l1) ->
                 In o l1 /\ status o = DISAPPEARED).
  { intros o Ho. unfold get_disappeared_orders in Ho. apply filter_In in Ho.
    destruct Ho as [Ho Hst]. split; [ exact Ho | ].
    apply status_eqb_eq. exact Hst. }
  assert (Hids : NoDup (map order_id (get_disappeared_orders l1))).
  { unfold get_disappeared_orders. apply keys_filter_NoDup.
    rewrite Hkeys. exact Hnd. }
  destruct (get_disappeared_orders l1) as [| d ds] eqn:Hdis.
  - injection Hrun as <- <-. cbn [tracked_orders]. rewrite Hcount. lia.
  - unfold bind in Hrun.
    set (e1 := mkEnv w1 l1 (calls e ++ [GetOpenOrders])) in *.
    destruct (match market_scanner self with
              | Some is_market_active =>
                  batch_check is_market_active
                    (iter_set sets (map market_slug (d :: ds))) []
              | None => ret []
              end e1) as [[ended_markets |] e2] eqn:Hbatch; [ | discriminate ].
    assert (Hl2 : tracked_orders e2 = l1).
    { destruct (market_scanner self) as [f |].
      - apply batch_check_frame in Hbatch. apply Hbatch.
      - inversion Hbatch; subst. reflexivity. }
    destruct (recreate_loop_count self ended_markets (d :: ds) 0%nat e2)
      as [k [e3 [Hloop [_ Hc]]]].
    + rewrite Hl2, Hkeys. exact Hnd.
    + exact Hids.
    + rewrite Hl2. exact Hd.
    + rewrite Hloop in Hrun. injection Hrun as <- <-.
      rewrite Hl2, Hcount in Hc. lia.
Qed.

(** *** The turns of the disappeared orders *)

(** A turn of the loop is a turn as the reconciliation means it. *)
Lemma recreate_order_turn {W : Type} (self : Self W) (ended_markets : list string)
    (order_data : TrackedOrder) (e : Env W) :
  exists k e1,
    recreate_order self ended_markets order_data e = (Ret k, e1) /\
    turn_run self ended_markets order_data e k e1.
Proof.
  destruct (str_in (market_slug order_data) ended_markets) eqn:Hended.
  - pose proof (recreate_order_ended self ended_markets order_data e Hended) as H.
    cbv zeta in H. eexists; eexists. split; [ exact H | ].
    apply run_ended. exact Hended.
  - destruct (client_get_token_balance self (token_id order_data) (world e))
      as [[b |] w1] eqn:Hbal.
    + destruct (Qlt_le_dec 0.1 b) as [Hb | Hb].
      * pose proof (recreate_order_filled self ended_markets order_data e b w1
                      Hended Hbal Hb) as H.
        cbv zeta in H. eexists; eexists. split; [ exact H | ].
        apply (run_filled self ended_markets order_data e b w1 Hended Hbal Hb).
      * pose proof (recreate_order_placement self ended_markets order_data e b w1
                      Hended Hbal Hb) as H.
        cbv zeta in H.
        destruct (recreate_answer self order_data w1) as [r w2] eqn:Hans.
        destruct r as [[new_id |] |].
        -- destruct (has_order new_id (tracked_orders e)) eqn:Hnew.
           ++ eexists; eexists. split; [ exact H | ].
              apply (run_not_placed self ended_markets order_data e b w1
                       (Ret (Some new_id)) w2 Hended Hbal Hb Hans). exact Hnew.
           ++ eexists; eexists. split; [ exact H | ].
              apply (run_recreated self ended_markets order_data e b w1 new_id w2
                       Hended Hbal Hb Hans Hnew).
        -- eexists; eexists. split; [ exact H | ].
           apply (run_not_placed self ended_markets order_data e b w1
                    (Ret None) w2 Hended Hbal Hb Hans). exact I.
        -- eexists; eexists. split; [ exact H | ].
           apply (run_not_placed self ended_markets order_data e b w1
                    Raise w2 Hended Hbal Hb Hans). exact I.
    + pose proof (recreate_order_balance_raises self ended_markets order_data e w1
                    Hended Hbal) as H.
      cbv zeta in H. eexists; eexists. split; [ exact H | ].
      apply (run_balance_raised self ended_markets order_data e w1 Hended Hbal).
Qed.

(** The loop takes the turn of every order of its list, in order, and
    returns. *)
Lemma recreate_loop_turns {W : Type} (self : Self W) (ended_markets : list string)
    (rest : list TrackedOrder) :
  forall (count : nat) (e : Env W),
    exists n e',
      for_sum rest (recreate_order self ended_markets) count e =
        (Ret (count + n)%nat, e') /\
      turns_run self ended_markets rest e n e'.
Proof.
  induction rest as [| d rest IH]; intros count e.
  - exists 0%nat, e. cbn. rewrite Nat.add_0_r.
    split; [ reflexivity | apply turns_done ].
  - destruct (recreate_order_turn self ended_markets d e) as [k [e1 [Hrun Hturn]]].
    destruct (IH (count + k)%nat e1) as [n [e' [Hloop Hturns]]].
    exists (k + n)%nat, e'.
    rewrite (for_sum_cons_run d rest _ count k e e1 Hrun), Hloop, Nat.add_assoc.
    split; [ reflexivity | ].
    apply (turns_next self ended_markets d rest e e1 e' k n Hturn Hturns).
Qed.

Lemma iter_set_nil (sets : SetIteration) : iter_set sets [] = [].
Proof.
  destruct (iter_set sets []) as [| x xs] eqn:H; [ reflexivity | ].
  assert (Hx : In x (iter_set sets [])) by (rewrite H; left; reflexivity).
  apply iter_set_In in Hx. contradiction.
Qed.

(** When the exchange answers the read of the open orders and the scanner
    answers, [check_and_recreate_orders] returns, and what it returns and
    leaves behind are those of the turns of the disappeared orders, taken
    in ledger order with the ended markets of the scanner. *)
Lemma check_and_recreate_orders_turns {W : Type} (self : Self W)
    (sets : SetIteration) (e : Env W) (open_orders : list OpenOrder) (w1 : W)
    (ended_markets : list string) (e2 : Env W) :
  client_get_open_orders self (world e) = (Ret open_orders, w1) ->
  let l1 := presence_updated (open_order_ids_of open_orders) (tracked_orders e) in
  scanner_pass self sets (get_disappeared_orders l1)
    (mkEnv w1 l1 (calls e ++ [GetOpenOrders])) = (Ret ended_markets, e2) ->
  exists n e',
    check_and_recreate_orders self sets e = (Ret n, e') /\
    turns_run self ended_markets (get_disappeared_orders l1) e2 n e'.
Proof.
  intros Hopen l1 Hscan.
  rewrite check_and_recreate_orders_run, Hopen. cbv zeta. fold l1.
  destruct (get_disappeared_orders l1) as [| d ds].
  - assert (He2 : ended_markets = [] /\
                  e2 = mkEnv w1 l1 (calls e ++ [GetOpenOrders])).
    { unfold scanner_pass in Hscan. cbn [map] in Hscan.
      rewrite iter_set_nil in Hscan.
      destruct (market_scanner self); cbn in Hscan;
        injection Hscan as <- <-; split; reflexivity. }
    destruct He2 as [-> ->].
    eexists; eexists. split; [ reflexivity | apply turns_done ].
  - destruct (recreate_loop_turns self ended_markets (d :: ds) 0%nat e2)
      as [n [e' [Hloop Hturns]]].
    exists n, e'. split; [ | exact Hturns ].
    unfold bind. unfold scanner_pass in Hscan.
    destruct (market_scanner self) as [f |].
    + rewrite Hscan. exact Hloop.
    + injection Hscan as <- <-. exact Hloop.
Qed.

(** The ended markets of the scanner's pass: markets of disappeared
    orders for which the scanner answered that they are not active. *)
Lemma scanner_pass_ended {W : Type} (self : Self W) (sets : SetIteration)
    (disappeared : list TrackedOrder) (e1 e2 : Env W) (ended_markets : list string) :
  scanner_pass self sets disappeared e1 = (Ret ended_markets, e2) ->
  forall s,
    (In s ended_markets ->
     In s (map market_slug disappeared) /\
     exists is_market_active w w',
       market_scanner self = Some is_market_active /\
       is_market_active s w = (Ret false, w'))
    /\ (forall is_market_active,
           market_scanner self = Some is_market_active ->
           In s (map market_slug disappeared) ->
           (forall w, exists w', is_market_active s w = (Ret false, w')) ->
           In s ended_markets).
Proof.
  intros Hscan s. unfold scanner_pass in Hscan.
  destruct (market_scanner self) as [f |] eqn:Hf.
  - destruct (batch_check_ended f _ [] ended_markets e1 e2 Hscan s) as [H1 [_ H3]].
    split.
    + intro Hs. destruct (H1 Hs) as [[] | [Hin [w [w' Hw]]]].
      split; [ apply iter_set_In in Hin; exact Hin | ].
      exists f, w, w'. split; [ reflexivity | exact Hw ].
    + intros g Hg Hin Hall. injection Hg as <-.
      apply H3; [ apply iter_set_In; exact Hin | exact Hall ].
  - injection Hscan as <- <-. split; [ intros [] | ].
    intros g Hg. discriminate.
Qed.

(** C1. The turns of the disappeared orders in
    [check_and_recreate_orders].  When the exchange answers the read of
    the open orders and the scanner answers, the function returns, and
    every disappeared order has had its turn, in ledger order, with the
    markets the scanner reported as not active as the ended ones.  In a
    turn, if the market of the order is among the ended ones, the order is
    removed from the ledger, the market queue, when there is one, is told
    to remove the market, and nothing is placed.  Otherwise, if the token
    balance exceeds 0.1, the order is marked FILLED and nothing is placed.
    Otherwise the order is placed again with the same side, price and
    size, a BUY with the notional price times size and a SELL with the
    size; when the placement answers with a new order id, the replacement
    is added to the ledger and the old order is marked RECREATED and
    linked to it.  The function returns the number of orders recreated in
    this way. *)
Theorem check_and_recreate_orders_decisions {W : Type} (self : Self W)
    (sets : SetIteration) (ended_markets : list string) (order_data : TrackedOrder)
    (e : Env W) :
  let id := order_id order_data in
  let token := token_id order_data in
  let slug := market_slug order_data in
  let ledger := tracked_orders e in
  (str_in slug ended_markets = true ->
   recreate_order self ended_markets order_data e =
     (Ret 0%nat,
      match market_queue self with
      | Some remove_market =>
          mkEnv (snd (remove_market slug (world e))) (remove_order id ledger)
            (calls e ++ [RemoveMarket slug])
      | None => mkEnv (world e) (remove_order id ledger) (calls e)
      end))
  /\ (forall b w1,
         str_in slug ended_markets = false ->
         client_get_token_balance self token (world e) = (Ret b, w1) ->
         (0.1 < b)%Q ->
         recreate_order self ended_markets order_data e =
           (Ret 0%nat,
            mkEnv w1 (mark_order_filled id ledger) (calls e ++ [GetTokenBalance token])))
  /\ (forall b w1 new_id w2,
         str_in slug ended_markets = false ->
         client_get_token_balance self token (world e) = (Ret b, w1) ->
         (b <= 0.1)%Q ->
         recreate_answer self order_data w1 = (Ret (Some new_id), w2) ->
         has_order new_id ledger = false ->
         recreate_order self ended_markets order_data e =
           (Ret 1%nat,
            mkEnv w2
              (mark_order_recreated id new_id
                 (ledger ++ [replacement_of order_data new_id]))
              (calls e ++ [GetTokenBalance token; recreate_call order_data])))
  /\ (forall (is_market_active : string -> W -> outcome bool * W)
             (unique_markets : list string) (e0 e1 : Env W),
         batch_check is_market_active unique_markets [] e0 = (Ret ended_markets, e1) ->
         forall s,
           (In s ended_markets ->
            In s unique_markets /\ exists w w', is_market_active s w = (Ret false, w'))
           /\ (In s unique_markets ->
               (forall w, exists w', is_market_active s w = (Ret false, w')) ->
               In s ended_markets))
  /\ (forall n e',
         NoDup (keys ledger) ->
         check_and_recreate_orders self sets e = (Ret n, e') ->
         count_status RECREATED (tracked_orders e') =
           (count_status RECREATED ledger + n)%nat)
  /\ (forall open_orders w1 ended e2,
         client_get_open_orders self (world e) = (Ret open_orders, w1) ->
         let l1 := presence_updated (open_order_ids_of open_orders) ledger in
         let disappeared := get_disappeared_orders l1 in
         scanner_pass self sets disappeared
           (mkEnv w1 l1 (calls e ++ [GetOpenOrders])) = (Ret ended, e2) ->
         (exists n e',
            check_and_recreate_orders self sets e = (Ret n, e') /\
            turns_run self ended disappeared e2 n e' /\
            (NoDup (keys ledger) ->
             count_status RECREATED (tracked_orders e') =
               (count_status RECREATED ledger + n)%nat))
         /\ (forall s,
               (In s ended ->
                In s (map market_slug disappeared) /\
                exists is_market_active w w',
                  market_scanner self = Some is_market_active /\
                  is_market_active s w = (Ret false, w'))
               /\ (forall is_market_active,
                      market_scanner self = Some is_market_active ->
                      In s (map market_slug disappeared) ->
                      (forall w, exists w', is_market_active s w = (Ret false, w')) ->
                      In s ended))).
Proof.
  intros id token slug ledger.
  split; [ | split; [ | split; [ | split; [ | split ] ] ] ].
  - intro Hended. apply (recreate_order_ended self ended_markets order_data e Hended).
  - intros b w1 Hended Hbal Hb.
    apply (recreate_order_filled self ended_markets order_data e b w1 Hended Hbal Hb).
  - intros b w1 new_id w2 Hended Hbal Hb Hans Hfresh.
    pose proof (recreate_order_placement self ended_markets order_data e b w1
                  Hended Hbal Hb) as H.
    cbv zeta in H. rewrite Hans in H. fold ledger in H. rewrite Hfresh in H. exact H.
  - intros f ms e0 e1 Hbatch s.
    destruct (batch_check_ended f ms [] ended_markets e0 e1 Hbatch s) as [H1 [_ H3]].
    split; [ | exact H3 ].
    intro Hs. destruct (H1 Hs) as [[] | H]. exact H.
  - intros n e' Hnd Hrun. apply (recreated_count_run self sets e e' n Hnd Hrun).
  - intros open_orders w1 ended e2 Hopen l1 disappeared Hscan.
    split.
    + destruct (check_and_recreate_orders_turns self sets e open_orders w1 ended e2
                  Hopen Hscan) as [n [e' [Hrun Hturns]]].
      exists n, e'. split; [ exact Hrun | ]. split; [ exact Hturns | ].
      intro Hnd. apply (recreated_count_run self sets e e' n Hnd Hrun).
    + apply (scanner_pass_ended self sets disappeared _ e2 ended Hscan).
Qed.

(** *** Liveness queries *)

Lemma liveness_queries_app (s : string) (a b : list Call) :
  liveness_queries s (a ++ b) = (liveness_queries s a + liveness_queries s b)%nat.
Proof.
  unfold liveness_queries. rewrite filter_app, length_app. reflexivity.
Qed.

Lemma all_liveness_queries_app (a b : list Call) :
  all_liveness_queries (a ++ b) = (all_liveness_queries a + all_liveness_queries b)%nat.
Proof.
  unfold all_liveness_queries. rewrite filter_app, length_app. reflexivity.
Qed.

Lemma liveness_queries_le_all (s : string) (cs : list Call) :
  (liveness_queries s cs <= all_liveness_queries cs)%nat.
Proof.
  unfold liveness_queries, all_liveness_queries.
  induction cs as [| c cs IH]; cbn; [ lia | ].
  destruct c as [ | t | t p a | t p z | m | m ]; cbn; try exact IH.
  destruct (String.eqb m s); cbn; lia.
Qed.

Lemma liveness_queries_asked (s : string) (asked : list string) :
  liveness_queries s (map IsMarketActive asked) = count_occ string_dec asked s
  /\ all_liveness_queries (map IsMarketActive asked) = List.length asked.
Proof.
  unfold liveness_queries, all_liveness_queries.
  induction asked as [| m ms [IH1 IH2]]; cbn; [ split; reflexivity | ].
  rewrite IH2. split; [ | reflexivity ].
  destruct (string_dec m s) as [-> | Hne].
  - rewrite String.eqb_refl. cbn. rewrite IH1. reflexivity.
  - apply String.eqb_neq in Hne. rewrite Hne. exact IH1.
Qed.

(** The calls of a run that asked the scanner once about each market of
    [asked], distinct markets among [slugs], and not otherwise. *)
Lemma liveness_summary (slugs asked : list string) (tail : list Call) :
  NoDup asked -> incl asked slugs -> all_liveness_queries tail = 0%nat ->
  let cs := [GetOpenOrders] ++ map IsMarketActive asked ++ tail in
  (forall s, liveness_queries s cs <= 1)%nat /\
  (forall s, liveness_queries s cs = 1%nat <-> In s asked) /\
  (all_liveness_queries cs <= List.length (nodup string_dec slugs))%nat.
Proof.
  intros Hnd Hincl Htail cs.
  assert (Hcount : forall s, liveness_queries s cs = count_occ string_dec asked s).
  { intro s. subst cs. rewrite !liveness_queries_app.
    destruct (liveness_queries_asked s asked) as [-> _].
    pose proof (liveness_queries_le_all s tail) as Hle. rewrite Htail in Hle.
    change (liveness_queries s [GetOpenOrders]) with 0%nat. lia. }
  split; [ | split ].
  - intro s. rewrite Hcount.
    apply (proj1 (NoDup_count_occ string_dec asked) Hnd s).
  - intro s. rewrite Hcount.
    pose proof (proj1 (NoDup_count_occ string_dec asked) Hnd s) as Hle.
    rewrite (count_occ_In string_dec asked s). lia.
  - subst cs. rewrite !all_liveness_queries_app.
    destruct (liveness_queries_asked EmptyString asked) as [_ ->].
    rewrite Htail. change (all_liveness_queries [GetOpenOrders]) with 0%nat.
    cbn [Nat.add]. rewrite Nat.add_0_r.
    apply NoDup_incl_length; [ exact Hnd | ].
    intros x Hx. apply nodup_In. apply Hincl. exact Hx.
Qed.

(** The loop over the disappeared orders never raises and never asks the
    scanner; it counts at most one per order. *)
Lemma recreate_loop_calls {W : Type} (self : Self W) (ended_markets : list string)
    (rest : list TrackedOrder) :
  forall (count : nat) (e : Env W),
    exists n e' cs,
      for_sum rest (recreate_order self ended_markets) count e = (Ret n, e') /\
      calls e' = calls e ++ cs /\ all_liveness_queries cs = 0%nat /\
      (count <= n <= count + List.length rest)%nat.
Proof.
  induction rest as [| d rest IH]; intros count e.
  - exists count, e, []. cbn.
    split; [ reflexivity | split; [ symmetry; apply app_nil_r | split; [ reflexivity | lia ] ] ].
  - destruct (recreate_order_effect self ended_markets d e)
      as [k [e1 [cs1 [Hrun [Heff [Hcs1 Hz1]]]]]].
    destruct (IH (count + k)%nat e1) as [n [e' [cs2 [Hloop [Hcs2 [Hz2 Hn]]]]]].
    exists n, e', (cs1 ++ cs2).
    rewrite (for_sum_cons_run d rest _ count k e e1 Hrun).
    split; [ exact Hloop | ].
    split; [ rewrite Hcs2, Hcs1, app_assoc; reflexivity | ].
    split; [ rewrite all_liveness_queries_app, Hz1, Hz2; reflexivity | ].
    assert (Hk : (k <= 1)%nat) by (destruct Heff; lia).
    cbn [List.length]. lia.
Qed.

(** C6. During one call of [check_and_recreate_orders] the market scanner
    is asked about a market slug at most once, and only about slugs of
    disappeared orders, so the number of [is_market_active] calls is at
    most the number of distinct such slugs, however many orders share a
    market; when a scanner is set and the call returns, every slug of a
    disappeared order is asked about exactly once. *)
Theorem liveness_queried_once_per_market {W : Type} (self : Self W)
    (sets : SetIteration) (e : Env W) :
  let run := check_and_recreate_orders self sets e in
  let slugs := disappeared_slugs self e in
  exists cs,
    calls (snd run) = calls e ++ cs /\
    (forall s, liveness_queries s cs <= 1)%nat /\
    (forall s, liveness_queries s cs = 1%nat -> In s slugs) /\
    (all_liveness_queries cs <= List.length (nodup string_dec slugs))%nat /\
    (forall is_market_active n,
        market_scanner self = Some is_market_active -> fst run = Ret n ->
        forall s, In s slugs -> liveness_queries s cs = 1%nat).
Proof.
  intros run slugs. subst run slugs. unfold disappeared_slugs.
  rewrite check_and_recreate_orders_run.
  destruct (client_get_open_orders self (world e)) as [[open_orders |] w1].
  2: { destruct (liveness_summary [] [] [] (NoDup_nil _) (incl_refl _) eq_refl)
         as [H1 [H2 H3]].
       exists [GetOpenOrders]. cbn [fst snd calls].
       split; [ reflexivity | ]. split; [ exact H1 | ].
       split; [ intros s Hs; apply H2 in Hs; exact Hs | ].
       split; [ exact H3 | ]. intros f n _ Hr. discriminate. }
  cbv zeta.
  set (l1 := presence_updated (open_order_ids_of open_orders) (tracked_orders e)).
  destruct (get_disappeared_orders l1) as [| d ds] eqn:Hdis.
  { destruct (liveness_summary [] [] [] (NoDup_nil _) (incl_refl _) eq_refl)
      as [H1 [H2 H3]].
    exists [GetOpenOrders]. cbn [fst snd calls map].
    split; [ reflexivity | ]. split; [ exact H1 | ].
    split; [ intros s Hs; apply H2 in Hs; exact Hs | ].
    split; [ exact H3 | ]. intros f n _ _ s []. }
  set (slugs := map market_slug (d :: ds)).
  set (e1 := mkEnv w1 l1 (calls e ++ [GetOpenOrders])).
  destruct (market_scanner self) as [f |] eqn:Hscan.
  - unfold bind.
    destruct (batch_check f (iter_set sets slugs) [] e1) as [r e2] eqn:Hbatch.
    destruct (batch_check_frame f _ _ _ _ _ Hbatch)
      as [_ [asked [Hcalls [[later Hlater] Hall]]]].
    assert (Hnd : NoDup asked).
    { pose proof (iter_set_NoDup sets slugs) as H. rewrite Hlater in H.
      apply NoDup_app_remove_r in H. exact H. }
    assert (Hincl : incl asked slugs).
    { intros x Hx. apply (iter_set_In sets slugs). rewrite Hlater.
      apply in_or_app. left. exact Hx. }
    destruct r as [ended_markets |].
    + destruct (recreate_loop_calls self ended_markets (d :: ds) 0%nat e2)
        as [n [e3 [tail [Hloop [Htail [Hz _]]]]]].
      rewrite Hloop. cbn [fst snd].
      destruct (liveness_summary slugs asked tail Hnd Hincl Hz) as [H1 [H2 H3]].
      exists ([GetOpenOrders] ++ map IsMarketActive asked ++ tail).
      split; [ rewrite Htail, Hcalls; cbn [calls e1]; rewrite <- !app_assoc;
               reflexivity | ].
      split; [ exact H1 | ].
      split; [ intros s Hs; apply Hincl, H2; exact Hs | ].
      split; [ exact H3 | ].
      intros f' n' _ _ s Hs. apply H2. rewrite (Hall ended_markets eq_refl).
      apply (iter_set_In sets slugs). exact Hs.
    + cbn [fst snd].
      destruct (liveness_summary slugs asked [] Hnd Hincl eq_refl) as [H1 [H2 H3]].
      exists ([GetOpenOrders] ++ map IsMarketActive asked ++ []).
      split; [ rewrite Hcalls; cbn [calls e1]; rewrite app_nil_r, <- !app_assoc;
               reflexivity | ].
      split; [ exact H1 | ].
      split; [ intros s Hs; apply Hincl, H2; exact Hs | ].
      split; [ exact H3 | ].
      intros f' n' _ Hr. discriminate.
  - unfold bind, ret.
    destruct (recreate_loop_calls self [] (d :: ds) 0%nat e1)
      as [n [e3 [tail [Hloop [Htail [Hz _]]]]]].
    rewrite Hloop. cbn [fst snd].
    destruct (liveness_summary slugs [] tail (NoDup_nil _) (incl_nil_l _) Hz)
      as [H1 [H2 H3]].
    exists ([GetOpenOrders] ++ map IsMarketActive [] ++ tail).
    split; [ rewrite Htail; cbn [calls e1 map]; rewrite <- !app_assoc; reflexivity | ].
    split; [ exact H1 | ].
    split; [ intros s Hs; apply H2 in Hs; destruct Hs | ].
    split; [ exact H3 | ].
    intros f' n' Hf'. discriminate.
Qed.

(** *** Failures inside the loop *)

Lemma for_sum_app_run {W A : Type} (a b : list A) (body : A -> @M W nat) :
  forall (count : nat) (e : Env W),
    for_sum (a ++ b) body count e =
      match for_sum a body count e with
      | (Ret n, e1) => for_sum b body n e1
      | (Raise, e1) => (Raise, e1)
      end.
Proof.
  induction a as [| x a IH]; intros count e; cbn; [ reflexivity | ].
  unfold bind. destruct (body x e) as [[n |] e1]; [ apply IH | reflexivity ].
Qed.

(** When the body of the [try] raises, the ledger is as it was, unless the
    market had ended: then the order has been removed before the raise. *)
Lemma recreate_order_body_raises {W : Type} (self : Self W)
    (ended_markets : list string) (order_data : TrackedOrder) (e e' : Env W) :
  recreate_order_body self ended_markets order_data e = (Raise, e') ->
  (str_in (market_slug order_data) ended_markets = true /\
   market_queue self <> None /\
   tracked_orders e' = remove_order (order_id order_data) (tracked_orders e))
  \/ (str_in (market_slug order_data) ended_markets = false /\
      tracked_orders e' = tracked_orders e).
Proof.
  unfold recreate_order_body.
  destruct (str_in (market_slug order_data) ended_markets) eqn:Hended.
  - intro Hrun. left. split; [ reflexivity | ].
    unfold bind, order_monitor in Hrun. cbn in Hrun.
    destruct (market_queue self) as [remove_market |]; [ | discriminate ].
    split; [ discriminate | ].
    rewrite external_run in Hrun. cbn in Hrun.
    destruct (remove_market (market_slug order_data) (world e)) as [[[] |] w'];
      cbn in Hrun; [ discriminate | ].
    injection Hrun as <-. reflexivity.
  - intro Hrun. right. split; [ reflexivity | ].
    unfold bind at 1 in Hrun. unfold get_token_balance in Hrun.
    rewrite external_run in Hrun. cbn [fst snd] in Hrun.
    destruct (client_get_token_balance self (token_id order_data) (world e))
      as [[b |] w1]; cbn [fst snd] in Hrun.
    2: { injection Hrun as <-. reflexivity. }
    destruct (negb (Qle_bool b 0.1)); [ discriminate | ].
    unfold bind at 1 in Hrun.
    destruct (side order_data).
    + unfold place_limit_buy in Hrun. rewrite external_run in Hrun.
      destruct (client_place_limit_buy self (token_id order_data) (price order_data)
                  (decimal_mul (price order_data) (size order_data)) _) as [[[new_id |] |] w2];
        cbn [fst snd] in Hrun.
      * unfold bind, order_monitor_add_order in Hrun. cbn [tracked_orders] in Hrun.
        destruct (add_order new_id _ _ _ _ _ _ _ (tracked_orders e));
          [ discriminate | ].
        injection Hrun as <-. reflexivity.
      * discriminate.
      * injection Hrun as <-. reflexivity.
    + unfold place_limit_sell in Hrun. rewrite external_run in Hrun.
      destruct (client_place_limit_sell self (token_id order_data) (price order_data)
                  (size order_data) _) as [[[new_id |] |] w2];
        cbn [fst snd] in Hrun.
      * unfold bind, order_monitor_add_order in Hrun. cbn [tracked_orders] in Hrun.
        destruct (add_order new_id _ _ _ _ _ _ _ (tracked_orders e));
          [ discriminate | ].
        injection Hrun as <-. reflexivity.
      * discriminate.
      * injection Hrun as <-. reflexivity.
Qed.

(** C7 does not hold as stated: a failing turn that does not leave the
    ledger entry unchanged. The market of the order has ended and the
    market queue raises on removal. The body of the [try] raises after the
    order has been removed, and [check_and_recreate_orders] returns 0 with
    the order gone. *)
Lemma failed_turn_changes_ledger :
  recreate_order_body Scenario.exchange ["market-1"]
    (set_status DISAPPEARED Scenario.ended_entry) Scenario.ended_turn =
    (Raise, Scenario.ended_after)
  /\ tracked_orders Scenario.ended_turn = [set_status DISAPPEARED Scenario.ended_entry]
  /\ tracked_orders Scenario.ended_after = []
  /\ check_and_recreate_orders Scenario.exchange Scenario.insertion_order
       Scenario.ended_start = (Ret 0%nat, Scenario.ended_after).
Proof.
  split; [ vm_compute; reflexivity | ].
  split; [ reflexivity | ].
  split; [ reflexivity | vm_compute; reflexivity ].
Qed.

(** The turns of a list split at any of its orders. *)
Lemma turns_run_split {W : Type} (self : Self W) (ended_markets : list string)
    (before : list TrackedOrder) (d : TrackedOrder) (after : list TrackedOrder) :
  forall (e e' : Env W) (n : nat),
    turns_run self ended_markets (before ++ d :: after) e n e' ->
    exists nb eb k ed na,
      turns_run self ended_markets before e nb eb /\
      turn_run self ended_markets d eb k ed /\
      turns_run self ended_markets after ed na e' /\
      n = (nb + k + na)%nat.
Proof.
  induction before as [| x before IH]; intros e e' n Hrun; cbn [app] in Hrun.
  - inversion Hrun as [| ? ? ? e1 ? k m Hturn Hrest]; subst.
    exists 0%nat, e, k, e1, m.
    split; [ apply turns_done | ]. split; [ exact Hturn | ].
    split; [ exact Hrest | reflexivity ].
  - inversion Hrun as [| ? ? ? e1 ? k m Hturn Hrest]; subst.
    destruct (IH e1 e' m Hrest) as [nb [eb [k' [ed [na [Hb [Hd [Ha Hn]]]]]]]].
    exists (k + nb)%nat, eb, k', ed, na.
    split; [ apply (turns_next self ended_markets x before e e1 eb k nb Hturn Hb) | ].
    split; [ exact Hd | ]. split; [ exact Ha | lia ].
Qed.

(** A turn that fails adds nothing to the count and leaves the ledger as
    it was, but for the order of an ended market, which is removed before
    the queue raises. *)
Lemma turn_fails_effect {W : Type} (self : Self W) (ended_markets : list string)
    (d : TrackedOrder) (e e1 : Env W) (k : nat) :
  turn_run self ended_markets d e k e1 ->
  turn_fails self ended_markets d e ->
  k = 0%nat /\
  (tracked_orders e1 = tracked_orders e \/
   (str_in (market_slug d) ended_markets = true /\ market_queue self <> None /\
    tracked_orders e1 = remove_order (order_id d) (tracked_orders e))).
Proof.
  intros Hturn Hfails.
  destruct Hturn as [Hended | b w1 Hended Hbal Hb | b w1 new_id w2 Hended Hbal Hb Hans Hnew
                    | w1 Hended Hbal | b w1 r w2 Hended Hbal Hb Hans Hr].
  - split; [ reflexivity | ]. right.
    destruct Hfails as [[_ [rm [Hq _]]] | [[Hf _] | [Hf _]]]; try congruence.
    rewrite Hq. split; [ exact Hended | ]. split; [ discriminate | reflexivity ].
  - exfalso.
    destruct Hfails as [[Hf _] | [[_ [w Hw]] | [_ [b' [w [r [w2 [Hw [Hb' _]]]]]]]]];
      try congruence.
    rewrite Hbal in Hw. injection Hw as <- <-. lra.
  - exfalso.
    destruct Hfails as [[Hf _] | [[_ [w Hw]] | [_ [b' [w [r [w2' [Hw [_ [Hans' Hr]]]]]]]]]];
      try congruence.
    rewrite Hbal in Hw. injection Hw as <- <-.
    rewrite Hans in Hans'. injection Hans' as <- <-. congruence.
  - split; [ reflexivity | left; reflexivity ].
  - split; [ reflexivity | left; reflexivity ].
Qed.

(** C7, amended. In [check_and_recreate_orders], once the exchange has
    answered the read of the open orders and the scanner has answered, a
    failure at one disappeared order (the queue, the balance query or the
    placement raising, or the placement answering without an order id or
    with an id that is tracked already) never aborts the call: the
    function returns, the orders before the failing one and the orders
    after it all get their turn, and the failing turn adds nothing to the
    count.  The failing order is not marked recreated and no replacement
    is added: its ledger entry is unchanged, except that the order of an
    ended market has already been removed when the market queue raises.
    The count returned is the number of orders that were recreated. *)
Theorem failed_turns_are_skipped {W : Type} (self : Self W) (sets : SetIteration)
    (e : Env W) (open_orders : list OpenOrder) (w1 : W)
    (ended_markets : list string) (e2 : Env W)
    (before : list TrackedOrder) (order_data : TrackedOrder)
    (after : list TrackedOrder) :
  client_get_open_orders self (world e) = (Ret open_orders, w1) ->
  scanner_pass self sets (found_disappeared open_orders (tracked_orders e))
    (after_read e open_orders w1) = (Ret ended_markets, e2) ->
  found_disappeared open_orders (tracked_orders e) = before ++ order_data :: after ->
  exists nb eb k ed na e',
    turns_run self ended_markets before e2 nb eb /\
    turn_run self ended_markets order_data eb k ed /\
    turns_run self ended_markets after ed na e' /\
    check_and_recreate_orders self sets e = (Ret (nb + k + na)%nat, e') /\
    (turn_fails self ended_markets order_data eb ->
     k = 0%nat /\
     (tracked_orders ed = tracked_orders eb \/
      (str_in (market_slug order_data) ended_markets = true /\
       market_queue self <> None /\
       tracked_orders ed = remove_order (order_id order_data) (tracked_orders eb)))) /\
    (NoDup (keys (tracked_orders e)) ->
     count_status RECREATED (tracked_orders e') =
       (count_status RECREATED (tracked_orders e) + (nb + k + na))%nat).
Proof.
  intros Hopen Hscan Hsplit.
  destruct (check_and_recreate_orders_turns self sets e open_orders w1 ended_markets e2
              Hopen Hscan) as [n [e' [Hrun Hturns]]].
  cbv zeta in Hturns. fold (found_disappeared open_orders (tracked_orders e)) in Hturns.
  rewrite Hsplit in Hturns.
  destruct (turns_run_split self ended_markets before order_data after e2 e' n Hturns)
    as [nb [eb [k [ed [na [Hb [Hd [Ha ->]]]]]]]].
  exists nb, eb, k, ed, na, e'.
  split; [ exact Hb | ]. split; [ exact Hd | ]. split; [ exact Ha | ].
  split; [ exact Hrun | ].
  split.
  - intro Hfails. apply (turn_fails_effect self ended_markets order_data eb ed k Hd Hfails).
  - intro Hnd. apply (recreated_count_run self sets e e' _ Hnd Hrun).
Qed.

Lemma failed_turns_are_skipped_witness :
  exists nb eb k ed na e',
    turns_run Scenario.exchange ["market-2"] [] Scenario.four_scanned nb eb /\
    turn_run Scenario.exchange ["market-2"]
      (nth 0 Scenario.four_gone Scenario.ended_entry) eb k ed /\
    turns_run Scenario.exchange ["market-2"] (skipn 1 Scenario.four_gone) ed na e' /\
    check_and_recreate_orders Scenario.exchange Scenario.insertion_order
      Scenario.failing_queue_start = (Ret (nb + k + na)%nat, e') /\
    (turn_fails Scenario.exchange ["market-2"]
       (nth 0 Scenario.four_gone Scenario.ended_entry) eb ->
     k = 0%nat /\
     (tracked_orders ed = tracked_orders eb \/
      (str_in (market_slug (nth 0 Scenario.four_gone Scenario.ended_entry))
         ["market-2"] = true /\
       market_queue Scenario.exchange <> None /\
       tracked_orders ed =
         remove_order (order_id (nth 0 Scenario.four_gone Scenario.ended_entry))
           (tracked_orders eb)))) /\
    (NoDup (keys (tracked_orders Scenario.failing_queue_start)) ->
     count_status RECREATED (tracked_orders e') =
       (count_status RECREATED (tracked_orders Scenario.failing_queue_start)
        + (nb + k + na))%nat).
Proof.
  apply (failed_turns_are_skipped Scenario.exchange Scenario.insertion_order
           Scenario.failing_queue_start
           [Scenario.listed_order "a4" "tok-d" "BUY" 9%Q]
           (world Scenario.failing_queue_start) ["market-2"] Scenario.four_scanned
           [] (nth 0 Scenario.four_gone Scenario.ended_entry)
           (skipn 1 Scenario.four_gone)).
  - reflexivity.
  - reflexivity.
  - reflexivity.
Defined.

(** The run of the witness: the first disappeared order fails at the
    queue and is removed, the second is marked FILLED, the third is
    recreated, and the call returns 1. *)
Example failing_queue_run :
  let run := check_and_recreate_orders Scenario.exchange Scenario.insertion_order
               Scenario.failing_queue_start in
  map order_id Scenario.four_gone = ["a1"; "a2"; "a3"]
  /\ fst run = Ret 1%nat
  /\ map (fun o => (order_id o, status o, replaced_by o)) (tracked_orders (snd run)) =
       [ ("a2", FILLED, None); ("a3", RECREATED, Some "n1");
         ("a4", OPEN, None); ("n1", OPEN, None) ].
Proof.
  cbv zeta. repeat split; vm_compute; reflexivity.
Qed.

(** *** Fill inference *)

Lemma filled_where_nil (l : Ledger) : filled_where [] l = l.
Proof.
  unfold filled_where. rewrite <- (map_id l) at 2. apply map_ext. reflexivity.
Qed.

Lemma filled_where_cons (id : string) (ids : list string) (l : Ledger) :
  filled_where ids (mark_order_filled id l) = filled_where (id :: ids) l.
Proof.
  unfold filled_where, mark_order_filled, update_order. rewrite map_map.
  apply map_ext. intro o. cbn [str_in existsb]. unfold str_in.
  destruct (String.eqb (order_id o) id); cbn [orb set_status order_id].
  - destruct (existsb (String.eqb (order_id o)) ids); reflexivity.
  - reflexivity.
Qed.

(** The marking loop marks FILLED the orders stored under the ids of the
    orders it runs over, and no other. *)
Lemma mark_loop_run {W : Type} (orders : list TrackedOrder) :
  forall e : Env W,
    for_each orders
      (fun order_data => order_monitor (mark_order_filled (order_id order_data))) e =
      (Ret tt,
       mkEnv (world e) (filled_where (map order_id orders) (tracked_orders e)) (calls e)).
Proof.
  induction orders as [| o rest IH]; intro e; cbn [for_each map].
  - rewrite filled_where_nil. destruct e; reflexivity.
  - unfold bind, order_monitor. rewrite IH. cbn [world tracked_orders calls].
    rewrite filled_where_cons. reflexivity.
Qed.

(** A take-profit placement never raises; it adds at most one SELL order
    at the end of the ledger and makes one placement call. *)
Lemma place_leg_effect {W : Type} (self : Self W) (token slug : string)
    (tp_spec : TPSpec) (e : Env W) :
  exists k e' sells cs,
    place_leg self token slug tp_spec e = (Ret k, e') /\
    tracked_orders e' = tracked_orders e ++ sells /\
    Forall (fun o => side o = SELL) sells /\
    calls e' = calls e ++ cs /\
    (tp_price tp_spec <> None -> List.length cs = 1%nat).
Proof.
  unfold place_leg.
  destruct (tp_price tp_spec) as [p |].
  2: { exists 0%nat, e, [], []. rewrite !app_nil_r.
       repeat (split; [ first [ reflexivity | apply Forall_nil ] | ]).
       intro H. contradiction. }
  unfold bind at 1. unfold place_take_profit_orders, try_except.
  unfold bind at 1. unfold place_limit_sell. rewrite external_run.
  destruct (client_place_limit_sell self token p (tp_size tp_spec) (world e))
    as [[[new_id |] |] w1]; cbn [fst snd].
  - unfold bind, order_monitor_add_order, add_order. cbn [tracked_orders world calls].
    destruct (has_order new_id (tracked_orders e)).
    + eexists; eexists; exists [], [PlaceLimitSell token p (tp_size tp_spec)].
      cbn. rewrite app_nil_r.
      repeat (split; [ first [ reflexivity | apply Forall_nil ] | ]). reflexivity.
    + eexists; eexists; eexists; exists [PlaceLimitSell token p (tp_size tp_spec)].
      cbn. split; [ reflexivity | ]. split; [ reflexivity | ].
      split; [ apply Forall_cons; [ reflexivity | apply Forall_nil ] | ].
      split; reflexivity.
  - eexists; eexists; exists [], [PlaceLimitSell token p (tp_size tp_spec)].
    cbn. rewrite app_nil_r.
    repeat (split; [ first [ reflexivity | apply Forall_nil ] | ]). reflexivity.
  - eexists; eexists; exists [], [PlaceLimitSell token p (tp_size tp_spec)].
    cbn. rewrite app_nil_r.
    repeat (split; [ first [ reflexivity | apply Forall_nil ] | ]). reflexivity.
Qed.

Lemma place_legs_effect {W : Type} (self : Self W) (token slug : string)
    (tp_specs : list TPSpec) :
  forall (count : nat) (e : Env W),
    exists k e' sells cs,
      for_sum tp_specs (place_leg self token slug) count e = (Ret k, e') /\
      tracked_orders e' = tracked_orders e ++ sells /\
      Forall (fun o => side o = SELL) sells /\
      calls e' = calls e ++ cs /\
      ((forall s, In s tp_specs -> tp_price s <> None) ->
       List.length cs = List.length tp_specs).
Proof.
  induction tp_specs as [| s rest IH]; intros count e.
  - exists count, e, [], []. rewrite !app_nil_r.
    repeat (split; [ first [ reflexivity | apply Forall_nil ] | ]). reflexivity.
  - destruct (place_leg_effect self token slug s e)
      as [k1 [e1 [sells1 [cs1 [Hrun [Hl1 [Hs1 [Hc1 Hn1]]]]]]]].
    destruct (IH (count + k1)%nat e1) as [k [e' [sells2 [cs2 [Hloop [Hl2 [Hs2 [Hc2 Hn2]]]]]]]].
    exists k, e', (sells1 ++ sells2), (cs1 ++ cs2).
    rewrite (for_sum_cons_run s rest _ count k1 e e1 Hrun).
    split; [ exact Hloop | ].
    split; [ rewrite Hl2, Hl1, app_assoc; reflexivity | ].
    split; [ apply Forall_app; split; assumption | ].
    split; [ rewrite Hc2, Hc1, app_assoc; reflexivity | ].
    intro Hall. rewrite length_app, Hn1, Hn2.
    + reflexivity.
    + intros x Hx. apply Hall. right. exact Hx.
    + apply Hall. left. reflexivity.
Qed.

(** The turn of a token group that passes the balance and dust gates: the
    orders of the slice [buy_orders[:filled_entries_count]] are marked
    FILLED, then the take-profit legs, if any, are placed and tracked as
    SELL orders; without a recorded favored start price nothing is
    placed. *)
Lemma set_tp_for_token_run {W : Type} (self : Self W)
    (all_open_orders : list OpenOrder) (slug token : string) (data : TokenData)
    (e : Env W) (b : Decimal) (w1 : W) :
  client_get_token_balance self token (world e) = (Ret b, w1) ->
  (0 < b)%Q ->
  (0.01 < decimal_sub b (existing_sell_size_of all_open_orders token))%Q ->
  let filled_entries_count :=
    Z.of_nat (List.length (buy_orders data)) - open_buy_count_of all_open_orders token in
  let marked := py_slice_to (buy_orders data) filled_entries_count in
  exists k e' sells cs,
    set_tp_for_token self all_open_orders slug token data e = (Ret k, e') /\
    tracked_orders e' =
      filled_where (map order_id marked) (tracked_orders e) ++ sells /\
    Forall (fun o => side o = SELL) sells /\
    calls e' = calls e ++ [GetTokenBalance token] ++ cs /\
    (price_recorded (td_strong_team_price_cents data) = false ->
     sells = [] /\ cs = [] /\ k = 0%nat).
Proof.
  intros Hbal Hb Hu n marked.
  unfold set_tp_for_token. fold n. fold marked.
  unfold bind at 1. unfold get_token_balance. rewrite external_run, Hbal.
  cbn [fst snd].
  apply Qle_bool_false in Hb. rewrite Hb.
  apply Qle_bool_false in Hu. rewrite Hu.
  unfold bind at 1. rewrite mark_loop_run. cbn [world tracked_orders calls].
  set (e1 := mkEnv w1 (filled_where (map order_id marked) (tracked_orders e))
               (calls e ++ [GetTokenBalance token])).
  assert (Hnone : exists k e' sells cs,
             @ret W nat 0%nat e1 = (Ret k, e') /\
             tracked_orders e' =
               filled_where (map order_id marked) (tracked_orders e) ++ sells /\
             Forall (fun o => side o = SELL) sells /\
             calls e' = calls e ++ [GetTokenBalance token] ++ cs /\
             (sells = [] /\ cs = [] /\ k = 0%nat)).
  { exists 0%nat, e1, [], []. cbn. rewrite !app_nil_r.
    repeat (split; [ first [ reflexivity | apply Forall_nil ] | ]).
    repeat split. }
  destruct (td_strong_team_price_cents data) as [cents |] eqn:Hcents.
  2: { destruct Hnone as [k [e' [sells [cs [H1 [H2 [H3 [H4 H5]]]]]]]].
       exists k, e', sells, cs. repeat (split; [ assumption | ]). intros _. exact H5. }
  destruct (price_recorded (Some cents)) eqn:Hrec.
  2: { destruct Hnone as [k [e' [sells [cs [H1 [H2 [H3 [H4 H5]]]]]]]].
       exists k, e', sells, cs. repeat (split; [ assumption | ]). intros _. exact H5. }
  destruct (place_legs_effect self token slug
              (calculate_take_profit_orders (build_filled_entries 0 marked) cents
                 (decimal_sub b (existing_sell_size_of all_open_orders token))) 0%nat e1)
    as [k [e' [sells [cs [Hrun [Hl [Hs [Hc _]]]]]]]].
  exists k, e', sells, cs.
  split; [ exact Hrun | ].
  split; [ rewrite Hl; reflexivity | ].
  split; [ exact Hs | ].
  split; [ rewrite Hc; cbn [calls e1]; rewrite <- app_assoc; reflexivity | ].
  intro H. discriminate.
Qed.

Lemma py_slice_to_nonneg {A : Type} (xs : list A) (n : Z) :
  0 <= n -> py_slice_to xs n = firstn (Z.to_nat n) xs.
Proof.
  intro Hn. unfold py_slice_to.
  destruct (Z.ltb_spec n 0) as [Hneg | _]; [ lia | reflexivity ].
Qed.

(** Fill inference when the exchange lists no more BUY orders of the
    token than are tracked: the fill count is the number of tracked BUY
    orders less the number listed, and a group that passes the gates has
    the orders stored under the ids of its first [filled_entries_count]
    BUY orders marked FILLED, every other order of the ledger left as it
    was, and only SELL orders added. *)
Lemma fill_inference_first_n {W : Type} (self : Self W)
    (all_open_orders : list OpenOrder) (slug token : string) (data : TokenData)
    (e : Env W) (b : Decimal) (w1 : W) :
  client_get_token_balance self token (world e) = (Ret b, w1) ->
  (0 < b)%Q ->
  (0.01 < decimal_sub b (existing_sell_size_of all_open_orders token))%Q ->
  open_buy_count_of all_open_orders token <= Z.of_nat (List.length (buy_orders data)) ->
  let filled_entries_count :=
    Z.of_nat (List.length (buy_orders data)) - open_buy_count_of all_open_orders token in
  exists k e' sells,
    set_tp_for_token self all_open_orders slug token data e = (Ret k, e') /\
    tracked_orders e' =
      filled_where
        (map order_id (firstn (Z.to_nat filled_entries_count) (buy_orders data)))
        (tracked_orders e) ++ sells /\
    Forall (fun o => side o = SELL) sells.
Proof.
  intros Hbal Hb Hu Hle n.
  destruct (set_tp_for_token_run self all_open_orders slug token data e b w1
              Hbal Hb Hu) as [k [e' [sells [cs [Hrun [Hl [Hs _]]]]]]].
  exists k, e', sells. fold n in Hl.
  rewrite py_slice_to_nonneg in Hl by (subst n; lia).
  split; [ exact Hrun | split; [ exact Hl | exact Hs ] ].
Qed.

(** The filled entries that the executor hands to the strategy: when the
    tracked orders carry the entry number 1 or 2, or none, the first of a
    non-empty slice is numbered 1 or 2, so that the strategy is never asked
    about a set without entry 1 and entry 2. *)
Lemma build_filled_entries_numbered (orders : list TrackedOrder) :
  orders <> [] ->
  (forall o, In o orders ->
     entry_number o = None \/ entry_number o = Some 1 \/ entry_number o = Some 2) ->
  In 1 (map fe_entry_number (build_filled_entries 0 orders)) \/
  In 2 (map fe_entry_number (build_filled_entries 0 orders)).
Proof.
  intros Hne Hnum. destruct orders as [| o rest]; [ contradiction | ].
  cbn [build_filled_entries map fe_entry_number].
  destruct (Hnum o (or_introl eq_refl)) as [H | [H | H]]; rewrite H.
  - left. left. reflexivity.
  - left. left. reflexivity.
  - right. left. reflexivity.
Qed.

(** *** Token groups *)

Lemma token_group_add (t : string) (o : TrackedOrder)
    (tokens_in_market : list (string * TokenData)) :
  token_group t (tokens_add tokens_in_market o) =
    if String.eqb (token_id o) t
    then match token_group t tokens_in_market with
         | Some d => Some (mkTokenData (buy_orders d ++ [o])
                             (td_strong_team_price_cents d))
         | None => Some (mkTokenData [o] (strong_team_price_cents o))
         end
    else token_group t tokens_in_market.
Proof.
  induction tokens_in_market as [| [t' d] rest IH]; cbn.
  - rewrite String.eqb_sym. destruct (String.eqb t (token_id o)); reflexivity.
  - destruct (String.eqb_spec t' (token_id o)) as [-> | Hne]; cbn.
    + destruct (String.eqb (token_id o) t); reflexivity.
    + destruct (String.eqb_spec t' t) as [-> | Hne'].
      * apply String.eqb_neq in Hne. rewrite String.eqb_sym, Hne. reflexivity.
      * exact IH.
Qed.

(** The group of a token holds the BUY orders of the token in the order of
    the market's orders, and its favored start price is the one recorded
    on the first of them. *)
Lemma group_by_token_group (t : string) (market_orders : list TrackedOrder) :
  token_group t (group_by_token market_orders) =
    match buys_of t market_orders with
    | [] => None
    | first :: rest =>
        Some (mkTokenData (first :: rest) (strong_team_price_cents first))
    end.
Proof.
  unfold group_by_token.
  assert (Hfold : forall orders acc,
             token_group t
               (fold_left
                  (fun tokens_in_market order_data =>
                     match side order_data with
                     | BUY => tokens_add tokens_in_market order_data
                     | SELL => tokens_in_market
                     end) orders acc) =
             match token_group t acc with
             | Some d => Some (mkTokenData (buy_orders d ++ buys_of t orders)
                                 (td_strong_team_price_cents d))
             | None => match buys_of t orders with
                       | [] => None
                       | first :: rest =>
                           Some (mkTokenData (first :: rest)
                                   (strong_team_price_cents first))
                       end
             end).
  { induction orders as [| o orders IH]; intro acc; cbn [fold_left].
    - unfold buys_of. cbn. destruct (token_group t acc) as [[bo c] |];
        [ rewrite app_nil_r | ]; reflexivity.
    - rewrite IH. unfold buys_of. cbn [filter].
      destruct (side o) eqn:Hside; cbn [side_eqb andb]; [ | reflexivity ].
      rewrite token_group_add.
      destruct (String.eqb (token_id o) t); [ | reflexivity ].
      destruct (token_group t acc) as [d |]; cbn.
      + rewrite <- app_assoc. reflexivity.
      + reflexivity. }
  rewrite Hfold. reflexivity.
Qed.

Lemma tokens_add_keys (o : TrackedOrder) (g : list (string * TokenData)) :
  map fst (tokens_add g o) =
    if str_in (token_id o) (map fst g) then map fst g
    else map fst g ++ [token_id o].
Proof.
  induction g as [| [t d] rest IH]; cbn; [ reflexivity | ].
  rewrite (String.eqb_sym (token_id o) t).
  destruct (String.eqb t (token_id o)); cbn; [ reflexivity | ].
  rewrite IH. unfold str_in.
  destruct (existsb (String.eqb (token_id o)) (map fst rest)); reflexivity.
Qed.

Lemma group_by_token_NoDup (market_orders : list TrackedOrder) :
  NoDup (map fst (group_by_token market_orders)).
Proof.
  unfold group_by_token.
  assert (Hfold : forall orders acc,
             NoDup (map fst acc) ->
             NoDup (map fst
                      (fold_left
                         (fun tokens_in_market order_data =>
                            match side order_data with
                            | BUY => tokens_add tokens_in_market order_data
                            | SELL => tokens_in_market
                            end) orders acc))).
  { induction orders as [| o orders IH]; intros acc Hacc; cbn [fold_left];
      [ exact Hacc | ].
    apply IH. destruct (side o); [ | exact Hacc ].
    rewrite tokens_add_keys.
    destruct (str_in (token_id o) (map fst acc)) eqn:Hin; [ exact Hacc | ].
    apply str_in_not_In in Hin.
    apply NoDup_app; [ exact Hacc | apply NoDup_cons; [ intros [] | apply NoDup_nil ] | ].
    intros x Hx [<- | []]. contradiction. }
  apply Hfold. apply NoDup_nil.
Qed.

Lemma token_group_In (t : string) (d : TokenData) (g : list (string * TokenData)) :
  NoDup (map fst g) -> In (t, d) g -> token_group t g = Some d.
Proof.
  induction g as [| [t' d'] rest IH]; cbn; intros Hnd Hin; [ contradiction | ].
  inversion Hnd as [| ? ? Hnotin Hnd']; subst.
  destruct Hin as [Heq | Hin].
  - injection Heq as -> ->. rewrite String.eqb_refl. reflexivity.
  - destruct (String.eqb_spec t' t) as [-> | Hne]; [ | apply IH; assumption ].
    exfalso. apply Hnotin. change t with (fst (t, d)). apply in_map. exact Hin.
Qed.

(** Every group that the loop over [tokens_in_market.items()] visits is
    the list of the BUY orders of its token, with the favored start price
    of the first of them. *)
Lemma visited_group (market_orders : list TrackedOrder) (t : string) (d : TokenData) :
  In (t, d) (group_by_token market_orders) ->
  exists first rest,
    buys_of t market_orders = first :: rest /\
    buy_orders d = first :: rest /\
    td_strong_team_price_cents d = strong_team_price_cents first.
Proof.
  intro Hin.
  pose proof (token_group_In t d _ (group_by_token_NoDup market_orders) Hin) as Hg.
  rewrite group_by_token_group in Hg.
  destruct (buys_of t market_orders) as [| first rest]; [ discriminate | ].
  injection Hg as <-. exists first, rest. repeat split.
Qed.

(** C3, at the input where it fails. Two BUY orders are tracked on a
    token and the exchange lists three open BUY orders on it, so the
    inferred fill count is 2 - 3 = -1; the token has a balance of 4.  The
    slice [buy_orders[:-1]] is the first tracked order:
    [check_filled_positions_and_set_tp] marks it FILLED, though no fill is
    inferred and the exchange lists it as open, and places two take-profit
    orders. *)
Theorem negative_fill_count_marks_first :
  let run := check_filled_positions_and_set_tp Scenario.exchange
               Scenario.insertion_order [] Scenario.crowded_start in
  open_buy_count_of (Scenario.listed Scenario.crowded_world) "tok-a" = 3
  /\ Z.of_nat (List.length Scenario.tracked_two)
     - open_buy_count_of (Scenario.listed Scenario.crowded_world) "tok-a" = -1
  /\ map order_id (py_slice_to Scenario.tracked_two (-1)) = ["o1"]
  /\ fst run = Ret 2%nat
  /\ map Scenario.summary (tracked_orders (snd run)) =
       [ ("o1", FILLED, Some 65%Q); ("o2", OPEN, Some 65%Q);
         ("n1", OPEN, None); ("n2", OPEN, None) ]
  /\ filter is_placement (calls (snd run)) =
       [ PlaceLimitSell "tok-a" (65 / 100)%Q ((4 - 0) / 2)%Q;
         PlaceLimitSell "tok-a" 0.96%Q ((4 - 0) / 2)%Q ].
Proof.
  cbv zeta. repeat split; vm_compute; reflexivity.
Qed.

(** The fill inference of the specification: two BUY orders tracked, one
    still listed, a balance of 11.  The fill count is 1 and exactly the
    first tracked order is marked FILLED. *)
Example two_tracked_one_open :
  let run := check_filled_positions_and_set_tp Scenario.exchange
               Scenario.insertion_order [] Scenario.one_open_start in
  Z.of_nat (List.length Scenario.tracked_two)
  - open_buy_count_of (Scenario.listed (world Scenario.one_open_start)) "tok-a" = 1
  /\ fst run = Ret 2%nat
  /\ map Scenario.summary (tracked_orders (snd run)) =
       [ ("o1", FILLED, Some 65%Q); ("o2", OPEN, Some 65%Q);
         ("n1", OPEN, None); ("n2", OPEN, None) ].
Proof.
  cbv zeta. repeat split; vm_compute; reflexivity.
Qed.

(** *** Markets left alone *)

Lemma keeps_ids_refl (l : Ledger) : keeps_ids l l.
Proof.
  intros o Ho. exists o. repeat split. exact Ho.
Qed.

Lemma keeps_ids_trans (a b c : Ledger) :
  keeps_ids a b -> keeps_ids b c -> keeps_ids a c.
Proof.
  intros Hab Hbc o Ho.
  destruct (Hab o Ho) as [o1 [Ho1 [Hid1 Hm1]]].
  destruct (Hbc o1 Ho1) as [o2 [Ho2 [Hid2 Hm2]]].
  exists o2. split; [ exact Ho2 | ]. split; congruence.
Qed.

Lemma leaves_market_refl (m : string) (l : Ledger) : leaves_market m l l.
Proof.
  split; [ apply keeps_ids_refl | ]. intro Hnd. split; [ exact Hnd | reflexivity ].
Qed.

Lemma leaves_market_trans (m : string) (a b c : Ledger) :
  leaves_market m a b -> leaves_market m b c -> leaves_market m a c.
Proof.
  intros [Hk1 H1] [Hk2 H2]. split; [ apply (keeps_ids_trans a b c Hk1 Hk2) | ].
  intro Hnd. destruct (H1 Hnd) as [Hnb Hb]. destruct (H2 Hnb) as [Hnc Hc].
  split; [ exact Hnc | ]. rewrite Hc. exact Hb.
Qed.

(** Over distinct ids an id names one order. *)
Lemma same_id_same_order (l : Ledger) (a b : TrackedOrder) :
  NoDup (keys l) -> In a l -> In b l -> order_id a = order_id b -> a = b.
Proof.
  intros Hnd Ha Hb Hid.
  destruct (ledger_split a l Hnd Ha) as [pre [post [Hl _]]].
  rewrite Hl in Hnd, Hb. unfold keys in Hnd. rewrite map_app in Hnd. cbn in Hnd.
  apply in_app_or in Hb. destruct Hb as [Hb | [Hb | Hb]].
  - exfalso. apply NoDup_remove_2 in Hnd. apply Hnd. apply in_or_app. left.
    rewrite Hid. apply in_map. exact Hb.
  - exact Hb.
  - exfalso. apply NoDup_remove_2 in Hnd. apply Hnd. apply in_or_app. right.
    rewrite Hid. apply in_map. exact Hb.
Qed.

(** Marking an order of another market FILLED leaves the market alone. *)
Lemma mark_leaves_market (m id : string) (l : Ledger) :
  (exists o, In o l /\ order_id o = id /\ market_slug o <> m) ->
  leaves_market m l (mark_order_filled id l).
Proof.
  intros [o [Ho [Hid Hm]]]. unfold mark_order_filled. split.
  - intros x Hx.
    exists (if String.eqb (order_id x) id then set_status FILLED x else x).
    split; [ | destruct (String.eqb (order_id x) id); split; reflexivity ].
    unfold update_order. apply in_map_iff. exists x. split; [ reflexivity | exact Hx ].
  - intro Hnd. split.
    + rewrite keys_update_order; [ exact Hnd | reflexivity ].
    + unfold orders_of, update_order.
      induction l as [| x rest IH]; [ reflexivity | ].
      assert (Hrest : filter (fun o0 => String.eqb (market_slug o0) m)
                        (map (fun o0 => if String.eqb (order_id o0) id
                                        then set_status FILLED o0 else o0) rest) =
                      filter (fun o0 => String.eqb (market_slug o0) m) rest).
      { destruct (String.eqb_spec (order_id x) id) as [Hx | Hx].
        - assert (Hfresh : ~ In id (keys rest)).
          { cbn in Hnd. apply NoDup_cons_iff in Hnd. rewrite <- Hx. apply Hnd. }
          rewrite <- (map_id rest) at 2. f_equal. apply map_ext_in.
          intros y Hy. destruct (String.eqb_spec (order_id y) id) as [Hy' | _];
            [ | reflexivity ].
          exfalso. apply Hfresh. rewrite <- Hy'. apply in_map. exact Hy.
        - destruct Ho as [-> | Ho]; [ contradiction | ].
          apply IH; [ exact Ho | ].
          cbn in Hnd. apply NoDup_cons_iff in Hnd. apply Hnd. }
      cbn [map filter]. rewrite Hrest.
      destruct (String.eqb_spec (order_id x) id) as [Hx | Hx]; [ | reflexivity ].
      assert (Hxo : x = o).
      { apply (same_id_same_order (x :: rest)); try assumption.
        - left. reflexivity.
        - congruence. }
      subst x. cbn [set_status market_slug].
      apply String.eqb_neq in Hm. rewrite Hm. reflexivity.
Qed.

(** Tracking a new order of another market leaves the market alone. *)
Lemma add_leaves_market (m id token slug : string) (sd : Side) (p s : Decimal)
    (n : option Z) (c : option Q) (l l' : Ledger) :
  slug <> m ->
  add_order id token slug sd p s n c l = Some l' ->
  leaves_market m l l'.
Proof.
  intros Hm Hadd. unfold add_order in Hadd.
  destruct (has_order id l) eqn:Hfresh; [ discriminate | ].
  injection Hadd as <-. split.
  - intros o Ho. exists o. split; [ apply in_or_app; left; exact Ho | ].
    split; reflexivity.
  - intro Hnd. split.
    + rewrite keys_app. cbn.
      apply NoDup_app; [ exact Hnd | apply NoDup_cons; [ intros [] | apply NoDup_nil ] | ].
      intros x Hx [<- | []].
      assert (Hh : has_order id l = true) by (apply has_order_In; exact Hx).
      congruence.
    + unfold orders_of. rewrite filter_app. cbn.
      apply String.eqb_neq in Hm. rewrite Hm. apply app_nil_r.
Qed.

(** A property of the ledger that survives every change that keeps the
    orders tracked carries a loop whose turns leave a market alone. *)
Lemma for_sum_leaves_market {W A : Type} (m : string) (P : Ledger -> Prop)
    (xs : list A) (body : A -> @M W nat) :
  (forall l l', keeps_ids l l' -> P l -> P l') ->
  (forall x e r e',
      In x xs -> P (tracked_orders e) -> body x e = (r, e') ->
      leaves_market m (tracked_orders e) (tracked_orders e')) ->
  forall count e r e',
    P (tracked_orders e) ->
    for_sum xs body count e = (r, e') ->
    leaves_market m (tracked_orders e) (tracked_orders e').
Proof.
  intros HP. induction xs as [| x rest IH]; intros Hbody count e r e' He Hrun.
  - cbn in Hrun. injection Hrun as <- <-. apply leaves_market_refl.
  - cbn in Hrun. unfold bind in Hrun.
    destruct (body x e) as [[n |] e1] eqn:Hx.
    + pose proof (Hbody x e _ e1 (or_introl eq_refl) He Hx) as H1.
      apply (leaves_market_trans m _ (tracked_orders e1)); [ exact H1 | ].
      apply (IH (fun y e0 r0 e0' Hy => Hbody y e0 r0 e0' (or_intror Hy))
               (count + n)%nat e1 r e').
      * apply (HP _ _ (proj1 H1) He).
      * exact Hrun.
    + injection Hrun as <- <-.
      apply (Hbody x e _ e1 (or_introl eq_refl) He Hx).
Qed.

Lemma place_leg_leaves_market {W : Type} (self : Self W) (m token slug : string)
    (tp_spec : TPSpec) (e e' : Env W) (r : outcome nat) :
  slug <> m ->
  place_leg self token slug tp_spec e = (r, e') ->
  leaves_market m (tracked_orders e) (tracked_orders e').
Proof.
  intros Hm Hrun. unfold place_leg in Hrun.
  destruct (tp_price tp_spec) as [p |].
  2: { injection Hrun as <- <-. apply leaves_market_refl. }
  unfold bind at 1 in Hrun. unfold place_take_profit_orders, try_except in Hrun.
  unfold bind at 1 in Hrun. unfold place_limit_sell in Hrun.
  rewrite external_run in Hrun.
  destruct (client_place_limit_sell self token p (tp_size tp_spec) (world e))
    as [[[new_id |] |] w1]; cbn [fst snd] in Hrun.
  - unfold bind, order_monitor_add_order in Hrun.
    cbn [tracked_orders world calls] in Hrun.
    destruct (add_order new_id token slug SELL p (tp_size tp_spec) None None
                (tracked_orders e)) as [l' |] eqn:Hadd.
    + cbn in Hrun. injection Hrun as <- <-. cbn [tracked_orders].
      apply (add_leaves_market m _ _ _ _ _ _ _ _ _ _ Hm Hadd).
    + cbn in Hrun. injection Hrun as <- <-. apply leaves_market_refl.
  - cbn in Hrun. injection Hrun as <- <-. apply leaves_market_refl.
  - cbn in Hrun. injection Hrun as <- <-. apply leaves_market_refl.
Qed.

Lemma py_slice_to_incl {A : Type} (xs : list A) (n : Z) (x : A) :
  In x (py_slice_to xs n) -> In x xs.
Proof.
  unfold py_slice_to. destruct (n <? 0); intro H.
  - rewrite <- (firstn_skipn (Z.to_nat (Z.of_nat (List.length xs) + n)) xs).
    apply in_or_app. left. exact H.
  - rewrite <- (firstn_skipn (Z.to_nat n) xs). apply in_or_app. left. exact H.
Qed.

(** The marking loop over orders of another market leaves the market
    alone. *)
Lemma mark_loop_leaves_market {W : Type} (m slug : string) (orders : list TrackedOrder) :
  slug <> m ->
  forall (e e' : Env W) (r : outcome unit),
    (forall od, In od orders ->
       exists o, In o (tracked_orders e) /\ order_id o = order_id od /\
                 market_slug o = slug) ->
    for_each orders
      (fun order_data => order_monitor (mark_order_filled (order_id order_data))) e =
      (r, e') ->
    leaves_market m (tracked_orders e) (tracked_orders e').
Proof.
  intro Hm. induction orders as [| od rest IH]; intros e e' r Hpre Hrun.
  - cbn in Hrun. injection Hrun as <- <-. apply leaves_market_refl.
  - cbn [for_each] in Hrun. unfold bind at 1 in Hrun.
    unfold order_monitor at 1 in Hrun.
    destruct (Hpre od (or_introl eq_refl)) as [o [Ho [Hid Hslug]]].
    assert (H1 : leaves_market m (tracked_orders e)
                   (mark_order_filled (order_id od) (tracked_orders e))).
    { apply mark_leaves_market. exists o. split; [ exact Ho | ].
      split; [ exact Hid | congruence ]. }
    eapply leaves_market_trans; [ exact H1 | ].
    apply (IH (mkEnv (world e) (mark_order_filled (order_id od) (tracked_orders e))
                 (calls e)) e' r); [ | exact Hrun ].
    cbn [tracked_orders]. intros od' Hod'.
    destruct (Hpre od' (or_intror Hod')) as [o1 [Ho1 [Hid1 Hslug1]]].
    destruct (proj1 H1 o1 Ho1) as [o2 [Ho2 [Hid2 Hslug2]]].
    exists o2. split; [ exact Ho2 | split; congruence ].
Qed.

(** The turn of a token group of another market leaves the market alone,
    however it ends. *)
Lemma set_tp_for_token_leaves_market {W : Type} (self : Self W)
    (all_open_orders : list OpenOrder) (m slug token : string) (data : TokenData)
    (e e' : Env W) (r : outcome nat) :
  slug <> m ->
  (forall od, In od (buy_orders data) ->
     exists o, In o (tracked_orders e) /\ order_id o = order_id od /\
               market_slug o = slug) ->
  set_tp_for_token self all_open_orders slug token data e = (r, e') ->
  leaves_market m (tracked_orders e) (tracked_orders e').
Proof.
  intros Hm Hpre Hrun. unfold set_tp_for_token in Hrun.
  unfold bind at 1 in Hrun. unfold get_token_balance in Hrun.
  rewrite external_run in Hrun.
  destruct (client_get_token_balance self token (world e)) as [[b |] w1];
    cbn [fst snd] in Hrun.
  2: { injection Hrun as <- <-. apply leaves_market_refl. }
  destruct (Qle_bool b 0).
  { injection Hrun as <- <-. apply leaves_market_refl. }
  destruct (Qle_bool (decimal_sub b (existing_sell_size_of all_open_orders token)) 0.01).
  { injection Hrun as <- <-. apply leaves_market_refl. }
  unfold bind at 1 in Hrun.
  set (marked := py_slice_to (buy_orders data)
                   (Z.of_nat (List.length (buy_orders data))
                    - open_buy_count_of all_open_orders token)) in *.
  set (e1 := mkEnv w1 (tracked_orders e) (calls e ++ [GetTokenBalance token])) in *.
  destruct (for_each marked
              (fun order_data => order_monitor (mark_order_filled (order_id order_data)))
              e1) as [[[] |] e2] eqn:Hmarks.
  2: { injection Hrun as <- <-.
       apply (mark_loop_leaves_market m slug marked Hm e1 e2 Raise); [ | exact Hmarks ].
       intros od Hod. apply Hpre. apply (py_slice_to_incl _ _ _ Hod). }
  assert (H1 : leaves_market m (tracked_orders e) (tracked_orders e2)).
  { apply (mark_loop_leaves_market m slug marked Hm e1 e2 (Ret tt)); [ | exact Hmarks ].
    intros od Hod. apply Hpre. apply (py_slice_to_incl _ _ _ Hod). }
  apply (leaves_market_trans m _ (tracked_orders e2)); [ exact H1 | ].
  destruct (td_strong_team_price_cents data) as [cents |].
  2: { injection Hrun as <- <-. apply leaves_market_refl. }
  destruct (price_recorded (Some cents)).
  2: { injection Hrun as <- <-. apply leaves_market_refl. }
  apply (for_sum_leaves_market m (fun _ => True) _ (place_leg self token slug)
           (fun _ _ _ _ => I)
           (fun x e0 r0 e0' _ _ Hx => place_leg_leaves_market self m token slug x
                                        e0 e0' r0 Hm Hx)
           0%nat e2 r e' I Hrun).
Qed.

(** The turn of any market leaves a market of the skip set alone. *)
Lemma set_tp_for_market_leaves_market {W : Type} (self : Self W)
    (all_open_orders : list OpenOrder) (skip : list string) (m slug : string)
    (e e' : Env W) (r : outcome nat) :
  In m skip ->
  set_tp_for_market self all_open_orders skip slug e = (r, e') ->
  leaves_market m (tracked_orders e) (tracked_orders e').
Proof.
  intros Hskip Hrun. unfold set_tp_for_market in Hrun.
  destruct (str_in slug skip) eqn:Hin.
  { injection Hrun as <- <-. apply leaves_market_refl. }
  assert (Hm : slug <> m).
  { intros ->. apply str_in_not_In in Hin. contradiction. }
  unfold bind at 1 in Hrun. unfold order_monitor_get in Hrun.
  set (market_orders := get_active_orders_by_market slug (tracked_orders e)) in *.
  apply (for_sum_leaves_market m
           (fun l => forall item od,
                In item (group_by_token market_orders) ->
                In od (buy_orders (snd item)) ->
                exists o, In o l /\ order_id o = order_id od /\ market_slug o = slug)
           (group_by_token market_orders)
           (fun item => set_tp_for_token self all_open_orders slug (fst item) (snd item)))
    with (count := 0%nat) (r := r); [ | | | exact Hrun ].
  - intros l l' Hkeep HP item od Hitem Hod.
    destruct (HP item od Hitem Hod) as [o [Ho [Hid Hslug]]].
    destruct (Hkeep o Ho) as [o' [Ho' [Hid' Hslug']]].
    exists o'. split; [ exact Ho' | split; congruence ].
  - intros item e0 r0 e0' Hitem HP Hx.
    apply (set_tp_for_token_leaves_market self all_open_orders m slug (fst item)
             (snd item) e0 e0' r0 Hm); [ | exact Hx ].
    intros od Hod. apply (HP item od Hitem Hod).
  - intros [t d] od Hitem Hod. cbn [snd] in Hod.
    destruct (visited_group market_orders t d Hitem) as [first [rest [Hbuys [Hd _]]]].
    rewrite Hd, <- Hbuys in Hod. unfold buys_of in Hod. apply filter_In in Hod.
    destruct Hod as [Hod _]. subst market_orders.
    unfold get_active_orders_by_market in Hod. apply filter_In in Hod.
    destruct Hod as [Hod Hcond]. apply andb_prop in Hcond.
    destruct Hcond as [Hslug _]. apply String.eqb_eq in Hslug.
    exists od. split; [ exact Hod | split; [ reflexivity | exact Hslug ] ].
Qed.

(** The whole of [check_filled_positions_and_set_tp] leaves every market
    of the skip set alone. *)
Lemma check_filled_leaves_market {W : Type} (self : Self W) (sets : SetIteration)
    (skip : list string) (m : string) (e e' : Env W) (r : outcome nat) :
  In m skip ->
  check_filled_positions_and_set_tp self sets skip e = (r, e') ->
  leaves_market m (tracked_orders e) (tracked_orders e').
Proof.
  intros Hskip Hrun. unfold check_filled_positions_and_set_tp in Hrun.
  unfold bind at 1 in Hrun. unfold get_open_orders in Hrun.
  rewrite external_run in Hrun.
  destruct (client_get_open_orders self (world e)) as [[all_open_orders |] w1];
    cbn [fst snd] in Hrun.
  2: { injection Hrun as <- <-. apply leaves_market_refl. }
  unfold bind at 1 in Hrun. unfold order_monitor_get in Hrun.
  cbn [tracked_orders] in Hrun.
  apply (for_sum_leaves_market m (fun _ => True) _
           (set_tp_for_market self all_open_orders skip)
           (fun _ _ _ _ => I)
           (fun x e0 r0 e0' _ _ Hx =>
              set_tp_for_market_leaves_market self all_open_orders skip m x e0 e0' r0
                Hskip Hx)
           0%nat _ r e' I Hrun).
Qed.

(** *** Skipped groups and markets *)

(** *** The groups the pass visits *)

Lemma for_sum_map {W A B : Type} (f : A -> B) (body : B -> @M W nat) (xs : list A) :
  forall count e,
    for_sum (map f xs) body count e = for_sum xs (fun x => body (f x)) count e.
Proof.
  induction xs as [| x xs IH]; intros count e; cbn; [ reflexivity | ].
  unfold bind. destruct (body (f x) e) as [[n |] e1]; [ apply IH | reflexivity ].
Qed.

(** A loop started at [count] adds [count] to what it gives from 0. *)
Lemma for_sum_from {W A : Type} (body : A -> @M W nat) (xs : list A) :
  forall count e,
    for_sum xs body count e =
      match for_sum xs body 0%nat e with
      | (Ret n, e') => (Ret (count + n)%nat, e')
      | (Raise, e') => (Raise, e')
      end.
Proof.
  induction xs as [| x xs IH]; intros count e; cbn [for_sum].
  - cbn. rewrite Nat.add_0_r. reflexivity.
  - unfold bind. destruct (body x e) as [[k |] e1]; [ | reflexivity ].
    rewrite (IH (count + k)%nat e1), (IH (0 + k)%nat e1).
    destruct (for_sum xs body 0%nat e1) as [[n |] e']; [ | reflexivity ].
    cbn [Nat.add]. rewrite Nat.add_assoc. reflexivity.
Qed.

Lemma active_orders_of (m : string) (l : Ledger) :
  get_active_orders_by_market m l =
    filter (fun o => is_active (status o)) (orders_of m l).
Proof.
  unfold get_active_orders_by_market, orders_of.
  induction l as [| o l IH]; cbn [filter]; [ reflexivity | ].
  destruct (String.eqb (market_slug o) m); cbn [andb filter].
  - destruct (is_active (status o)); rewrite IH; reflexivity.
  - exact IH.
Qed.

(** The turn of a market leaves every other market alone. *)
Lemma set_tp_for_market_leaves_other {W : Type} (self : Self W)
    (all_open_orders : list OpenOrder) (skip : list string) (m slug : string)
    (e e' : Env W) (r : outcome nat) :
  slug <> m ->
  set_tp_for_market self all_open_orders skip slug e = (r, e') ->
  leaves_market m (tracked_orders e) (tracked_orders e').
Proof.
  intros Hm Hrun. unfold set_tp_for_market in Hrun.
  destruct (str_in slug skip) eqn:Hin.
  { injection Hrun as <- <-. apply leaves_market_refl. }
  unfold bind at 1 in Hrun. unfold order_monitor_get in Hrun.
  set (market_orders := get_active_orders_by_market slug (tracked_orders e)) in *.
  apply (for_sum_leaves_market m
           (fun l => forall item od,
                In item (group_by_token market_orders) ->
                In od (buy_orders (snd item)) ->
                exists o, In o l /\ order_id o = order_id od /\ market_slug o = slug)
           (group_by_token market_orders)
           (fun item => set_tp_for_token self all_open_orders slug (fst item) (snd item)))
    with (count := 0%nat) (r := r); [ | | | exact Hrun ].
  - intros l l' Hkeep HP item od Hitem Hod.
    destruct (HP item od Hitem Hod) as [o [Ho [Hid Hslug]]].
    destruct (Hkeep o Ho) as [o' [Ho' [Hid' Hslug']]].
    exists o'. split; [ exact Ho' | split; congruence ].
  - intros item e0 r0 e0' Hitem HP Hx.
    apply (set_tp_for_token_leaves_market self all_open_orders m slug (fst item)
             (snd item) e0 e0' r0 Hm); [ | exact Hx ].
    intros od Hod. apply (HP item od Hitem Hod).
  - intros [t d] od Hitem Hod. cbn [snd] in Hod.
    destruct (visited_group market_orders t d Hitem) as [first [rest [Hbuys [Hd _]]]].
    rewrite Hd, <- Hbuys in Hod. unfold buys_of in Hod. apply filter_In in Hod.
    destruct Hod as [Hod _]. subst market_orders.
    unfold get_active_orders_by_market in Hod. apply filter_In in Hod.
    destruct Hod as [Hod Hcond]. apply andb_prop in Hcond.
    destruct Hcond as [Hslug _]. apply String.eqb_eq in Hslug.
    exists od. split; [ exact Hod | split; [ reflexivity | exact Hslug ] ].
Qed.

(** The loop over the markets is the loop over the groups of the ledger
    it started from: the turns of one market do not change the orders of
    the markets still to come. *)
Lemma markets_loop_visits {W : Type} (self : Self W)
    (all_open_orders : list OpenOrder) (skip : list string) (l : Ledger)
    (markets : list string) :
  NoDup markets ->
  forall (count : nat) (e : Env W),
    NoDup (keys (tracked_orders e)) ->
    (forall m, In m markets -> orders_of m (tracked_orders e) = orders_of m l) ->
    for_sum markets (set_tp_for_market self all_open_orders skip) count e =
      for_sum
        (flat_map
           (fun market_slug =>
              if str_in market_slug skip then []
              else map (fun item => (market_slug, item))
                     (group_by_token (get_active_orders_by_market market_slug l)))
           markets)
        (visit_turn self all_open_orders) count e.
Proof.
  induction markets as [| m rest IH]; intros Hmarkets count e Hnd Hsame;
    [ reflexivity | ].
  inversion Hmarkets as [| ? ? Hfresh Hrest]; subst.
  cbn [flat_map]. rewrite for_sum_app_run.
  cbn [for_sum]. unfold bind at 1.
  destruct (set_tp_for_market self all_open_orders skip m e) as [r e1] eqn:Hm.
  assert (Hnext : forall m', In m' rest ->
            leaves_market m' (tracked_orders e) (tracked_orders e1)).
  { intros m' Hm'.
    apply (set_tp_for_market_leaves_other self all_open_orders skip m' m e e1 r);
      [ | exact Hm ].
    intros ->. contradiction. }
  assert (Hturns :
            for_sum
              (if str_in m skip then []
               else map (fun item => (m, item))
                      (group_by_token (get_active_orders_by_market m l)))
              (visit_turn self all_open_orders) 0%nat e = (r, e1)).
  { unfold set_tp_for_market in Hm. destruct (str_in m skip); [ exact Hm | ].
    unfold bind at 1 in Hm. unfold order_monitor_get in Hm.
    rewrite for_sum_map. unfold visit_turn. cbn [fst snd].
    rewrite !active_orders_of in *. rewrite <- (Hsame m (or_introl eq_refl)).
    exact Hm. }
  rewrite (for_sum_from _ _ count e), Hturns.
  destruct r as [n |]; [ | reflexivity ].
  destruct rest as [| m' rest']; [ reflexivity | ].
  apply IH.
  - exact Hrest.
  - apply (proj2 (Hnext m' (or_introl eq_refl)) Hnd).
  - intros m0 Hm0. rewrite <- (Hsame m0 (or_intror Hm0)).
    apply (proj2 (Hnext m0 Hm0) Hnd).
Qed.

(** Over a ledger of distinct ids, once the open orders are read,
    [check_filled_positions_and_set_tp] is the turns of the groups it
    visits, one after the other. *)
Lemma check_filled_visits {W : Type} (self : Self W) (sets : SetIteration)
    (skip : list string) (e : Env W) (all_open_orders : list OpenOrder) (w1 : W) :
  NoDup (keys (tracked_orders e)) ->
  client_get_open_orders self (world e) = (Ret all_open_orders, w1) ->
  check_filled_positions_and_set_tp self sets skip e =
    for_sum (visits sets skip (tracked_orders e)) (visit_turn self all_open_orders)
      0%nat (mkEnv w1 (tracked_orders e) (calls e ++ [GetOpenOrders])).
Proof.
  intros Hnd Hopen. unfold check_filled_positions_and_set_tp.
  unfold bind at 1. unfold get_open_orders. rewrite external_run, Hopen.
  cbn [fst snd]. unfold bind at 1. unfold order_monitor_get. cbn [tracked_orders].
  unfold visits.
  apply (markets_loop_visits self all_open_orders skip (tracked_orders e)).
  - apply iter_set_NoDup.
  - exact Hnd.
  - intros m _. reflexivity.
Qed.

(** A group whose balance is at most 0 or whose unsold position is at
    most 0.01 is passed over: only the balance is asked. *)
Lemma set_tp_for_token_passed_over {W : Type} (self : Self W)
    (all_open_orders : list OpenOrder) (slug token : string) (data : TokenData)
    (e : Env W) (b : Decimal) (w' : W) :
  client_get_token_balance self token (world e) = (Ret b, w') ->
  (b <= 0)%Q \/
  (decimal_sub b (existing_sell_size_of all_open_orders token) <= 0.01)%Q ->
  set_tp_for_token self all_open_orders slug token data e =
    (Ret 0%nat, mkEnv w' (tracked_orders e) (calls e ++ [GetTokenBalance token])).
Proof.
  intros Hbal Hskip.
  unfold set_tp_for_token.
  rewrite (bind_ret_run _ _ e
             (mkEnv w' (tracked_orders e) (calls e ++ [GetTokenBalance token])) b).
  - destruct (Qle_bool b 0) eqn:Hb; [ reflexivity | ].
    destruct (Qle_bool (decimal_sub b (existing_sell_size_of all_open_orders token)) 0.01)
      eqn:Hu; [ reflexivity | ].
    apply Qle_bool_false in Hb. apply Qle_bool_false in Hu.
    exfalso. destruct Hskip as [H | H].
    + apply (Qlt_not_le _ _ Hb H).
    + apply (Qlt_not_le _ _ Hu H).
  - unfold get_token_balance. rewrite external_run, Hbal. reflexivity.
Qed.

(** Groups that are all passed over: one balance query each, and nothing
    else. *)
Lemma visits_passed_over {W : Type} (self : Self W)
    (all_open_orders : list OpenOrder) (vs : list (string * (string * TokenData))) :
  (forall v, In v vs -> always_passed_over self all_open_orders (fst (snd v))) ->
  forall (count : nat) (e : Env W),
    exists w',
      for_sum vs (visit_turn self all_open_orders) count e =
        (Ret count,
         mkEnv w' (tracked_orders e)
           (calls e ++ map (fun v => GetTokenBalance (fst (snd v))) vs)).
Proof.
  induction vs as [| v vs IH]; intros Hall count e.
  - exists (world e). cbn. rewrite app_nil_r. destruct e; reflexivity.
  - destruct (Hall v (or_introl eq_refl) (world e)) as [b [w1 [Hbal Hgate]]].
    pose proof (set_tp_for_token_passed_over self all_open_orders (fst v)
                  (fst (snd v)) (snd (snd v)) e b w1 Hbal Hgate) as Hturn.
    destruct (IH (fun x Hx => Hall x (or_intror Hx)) (count + 0)%nat
                (mkEnv w1 (tracked_orders e)
                   (calls e ++ [GetTokenBalance (fst (snd v))])))
      as [w' Hrest].
    exists w'.
    rewrite (for_sum_cons_run v vs _ count 0%nat e _ Hturn), Hrest.
    cbn [tracked_orders calls map]. rewrite Nat.add_0_r, <- app_assoc. reflexivity.
Qed.

(** C8. In [check_filled_positions_and_set_tp], a token group whose
    balance is at most 0, or whose unsold position (the balance minus the
    open SELL sizes of the token) is at most 0.01, is skipped: its turn
    leaves the ledger as it was, so no order is marked FILLED, and makes no
    call but the balance query, so no take-profit order is placed.  The
    turn of a market in the skip set changes nothing at all, and over a
    ledger with distinct ids the orders of such a market are, after the
    whole call, the records they were before it.  Over such a ledger the
    call, once it has read the open orders, is nothing but these turns:
    one for every token group of the active orders of every market that
    is not in the skip set, in order; so when every group it visits is one
    that is passed over, it asks one balance per group, changes no order,
    places nothing and returns 0. *)
Theorem skipped_groups_untouched {W : Type} (self : Self W) (sets : SetIteration)
    (all_open_orders : list OpenOrder) (slug token : string) (data : TokenData)
    (skip : list string) (e : Env W) :
  (forall b w',
      client_get_token_balance self token (world e) = (Ret b, w') ->
      (b <= 0)%Q \/ (decimal_sub b (existing_sell_size_of all_open_orders token) <= 0.01)%Q ->
      set_tp_for_token self all_open_orders slug token data e =
        (Ret 0%nat,
         mkEnv w' (tracked_orders e) (calls e ++ [GetTokenBalance token])))
  /\ (str_in slug skip = true ->
      set_tp_for_market self all_open_orders skip slug e = (Ret 0%nat, e))
  /\ (forall r e',
         In slug skip ->
         NoDup (keys (tracked_orders e)) ->
         check_filled_positions_and_set_tp self sets skip e = (r, e') ->
         orders_of slug (tracked_orders e') = orders_of slug (tracked_orders e))
  /\ (forall w1,
         NoDup (keys (tracked_orders e)) ->
         client_get_open_orders self (world e) = (Ret all_open_orders, w1) ->
         check_filled_positions_and_set_tp self sets skip e =
           for_sum (visits sets skip (tracked_orders e))
             (fun v => set_tp_for_token self all_open_orders
                         (fst v) (fst (snd v)) (snd (snd v)))
             0%nat (mkEnv w1 (tracked_orders e) (calls e ++ [GetOpenOrders])))
  /\ (forall w1,
         NoDup (keys (tracked_orders e)) ->
         client_get_open_orders self (world e) = (Ret all_open_orders, w1) ->
         (forall v, In v (visits sets skip (tracked_orders e)) ->
                    always_passed_over self all_open_orders (fst (snd v))) ->
         exists w',
           check_filled_positions_and_set_tp self sets skip e =
             (Ret 0%nat,
              mkEnv w' (tracked_orders e)
                (calls e ++ GetOpenOrders ::
                   map (fun v => GetTokenBalance (fst (snd v)))
                     (visits sets skip (tracked_orders e))))).
Proof.
  split; [ | split; [ | split; [ | split ] ] ].
  - intros b w' Hbal Hskip.
    apply (set_tp_for_token_passed_over self all_open_orders slug token data e b w'
             Hbal Hskip).
  - intro Hskip. unfold set_tp_for_market. rewrite Hskip. reflexivity.
  - intros r e' Hskip Hnd Hrun.
    destruct (check_filled_leaves_market self sets skip slug e e' r Hskip Hrun)
      as [_ Hsame].
    apply (Hsame Hnd).
  - intros w1 Hnd Hopen.
    apply (check_filled_visits self sets skip e all_open_orders w1 Hnd Hopen).
  - intros w1 Hnd Hopen Hall.
    rewrite (check_filled_visits self sets skip e all_open_orders w1 Hnd Hopen).
    destruct (visits_passed_over self all_open_orders
                (visits sets skip (tracked_orders e)) Hall 0%nat
                (mkEnv w1 (tracked_orders e) (calls e ++ [GetOpenOrders])))
      as [w' Hrun].
    exists w'. rewrite Hrun. cbn [tracked_orders calls].
    rewrite <- app_assoc. reflexivity.
Qed.

(** *** Recreated entries and the take-profit gate *)

(** C10 does not hold as stated: a recreated entry whose fill does get
    take-profit legs. The two
    entries of a market are placed with the favored start price 65
    recorded. The second one disappears and is recreated as "n1", without
    a price. When both entries have filled, the group of the token is
    headed by the first entry, which still carries the price: "n1" is
    marked FILLED and two take-profit orders are placed for the position. *)
Lemma recreated_entry_gets_take_profit :
  let run := check_filled_positions_and_set_tp Scenario.exchange
               Scenario.insertion_order [] Scenario.both_filled in
  map Scenario.summary (tracked_orders Scenario.placed) =
    [ ("o1", OPEN, Some 65%Q); ("o2", OPEN, Some 65%Q) ]
  /\ fst (check_and_recreate_orders Scenario.exchange Scenario.insertion_order
            Scenario.second_gone) = Ret 1%nat
  /\ map Scenario.summary (tracked_orders Scenario.recreated) =
       [ ("o1", OPEN, Some 65%Q); ("o2", RECREATED, Some 65%Q); ("n1", OPEN, None) ]
  /\ fst run = Ret 2%nat
  /\ map Scenario.summary (tracked_orders (snd run)) =
       [ ("o1", FILLED, Some 65%Q); ("o2", RECREATED, Some 65%Q);
         ("n1", FILLED, None); ("n2", OPEN, None); ("n3", OPEN, None) ]
  /\ filter is_placement (calls (snd run)) =
       [ PlaceLimitSell "tok-a" (inject_Z 44 / 100)%Q ((27 - 0) / 2)%Q;
         PlaceLimitSell "tok-a" (65 / 100)%Q ((27 - 0) / 2)%Q ].
Proof.
  cbv zeta. repeat split; vm_compute; reflexivity.
Qed.

(** An order as it was or marked FILLED, along a ledger. *)
Lemma same_or_filled_trans (a b c : TrackedOrder) :
  same_or_filled a b -> same_or_filled b c -> same_or_filled a c.
Proof.
  intros [-> | ->] [-> | ->].
  - left. reflexivity.
  - right. reflexivity.
  - right. reflexivity.
  - right. reflexivity.
Qed.

Lemma same_or_filled_ledger_refl (l : Ledger) : Forall2 same_or_filled l l.
Proof.
  induction l as [| o l IH]; constructor; [ left; reflexivity | exact IH ].
Qed.

Lemma same_or_filled_ledger_trans (a : Ledger) :
  forall b c, Forall2 same_or_filled a b -> Forall2 same_or_filled b c ->
              Forall2 same_or_filled a c.
Proof.
  induction a as [| x a IH]; intros b c Hab Hbc.
  - inversion Hab; subst. inversion Hbc; subst. constructor.
  - inversion Hab as [| x0 y a0 b0 Hxy Hab0]; subst.
    inversion Hbc as [| y0 z b1 c0 Hyz Hbc0]; subst.
    constructor; [ exact (same_or_filled_trans _ _ _ Hxy Hyz)
                 | exact (IH _ _ Hab0 Hbc0) ].
Qed.

Lemma same_or_filled_sells (a : Ledger) :
  forall b, Forall2 same_or_filled a b ->
            Forall (fun o => side o = SELL) a -> Forall (fun o => side o = SELL) b.
Proof.
  induction a as [| x a IH]; intros b Hab Ha.
  - inversion Hab; subst. constructor.
  - inversion Hab as [| x0 y a0 b0 Hxy Hab0]; subst.
    inversion Ha as [| x1 a1 Hx Ha0]; subst.
    constructor; [ | exact (IH _ Hab0 Ha0) ].
    destruct Hxy as [-> | ->]; [ exact Hx | exact Hx ].
Qed.

Lemma filled_where_same_or_filled (ids : list string) (l : Ledger) :
  Forall2 same_or_filled l (filled_where ids l).
Proof.
  unfold filled_where. induction l as [| o l IH]; cbn [map]; constructor.
  - destruct (str_in (order_id o) ids); [ right | left ]; reflexivity.
  - exact IH.
Qed.

(** *** What a reconciliation leaves in the ledger *)

Lemma tracked_as_refl (o : TrackedOrder) : tracked_as o o.
Proof. unfold tracked_as. repeat split. Qed.

Lemma tracked_as_trans (a b c : TrackedOrder) :
  tracked_as a b -> tracked_as b c -> tracked_as a c.
Proof.
  unfold tracked_as. intros H1 H2.
  destruct H1 as [A1 [A2 [A3 [A4 [A5 [A6 [A7 A8]]]]]]].
  destruct H2 as [B1 [B2 [B3 [B4 [B5 [B6 [B7 B8]]]]]]].
  repeat split; congruence.
Qed.

(** An update that changes status and link only keeps the ledger one of
    orders tracked before or replacements. *)
Lemma update_order_tracked (l0 : Ledger) (disappeared : list TrackedOrder)
    (id : string) (f : TrackedOrder -> TrackedOrder) (l : Ledger) :
  (forall o, tracked_as o (f o)) ->
  Forall (tracked_or_replacement l0 disappeared) l ->
  Forall (tracked_or_replacement l0 disappeared) (update_order id f l).
Proof.
  intros Hf Hl. unfold update_order. apply Forall_map.
  apply (Forall_impl _ (P := tracked_or_replacement l0 disappeared)); [ | exact Hl ].
  intros o Ho. destruct (String.eqb (order_id o) id); [ | exact Ho ].
  destruct Ho as [[o0 [Hin Has]] | [d [new_id [Hin Has]]]].
  - left. exists o0. split; [ exact Hin | ].
    apply (tracked_as_trans _ o _ Has (Hf o)).
  - right. exists d, new_id. split; [ exact Hin | ].
    apply (tracked_as_trans _ o _ Has (Hf o)).
Qed.

Lemma turn_run_tracked {W : Type} (self : Self W) (ended_markets : list string)
    (l0 : Ledger) (disappeared : list TrackedOrder) (d : TrackedOrder)
    (e e1 : Env W) (k : nat) :
  In d disappeared ->
  turn_run self ended_markets d e k e1 ->
  Forall (tracked_or_replacement l0 disappeared) (tracked_orders e) ->
  Forall (tracked_or_replacement l0 disappeared) (tracked_orders e1).
Proof.
  intros Hd Hturn Hl.
  destruct Hturn as [Hended | b w1 Hended Hbal Hb | b w1 new_id w2 Hended Hbal Hb Hans Hnew
                    | w1 Hended Hbal | b w1 r w2 Hended Hbal Hb Hans Hr].
  - assert (Hrem : Forall (tracked_or_replacement l0 disappeared)
                     (remove_order (order_id d) (tracked_orders e))).
    { unfold remove_order. apply Forall_forall. intros o Ho.
      apply filter_In in Ho. rewrite Forall_forall in Hl. apply Hl. apply Ho. }
    destruct (market_queue self); exact Hrem.
  - cbn [tracked_orders]. unfold mark_order_filled.
    apply update_order_tracked; [ | exact Hl ].
    intro o. unfold tracked_as. repeat split.
  - cbn [tracked_orders]. unfold mark_order_recreated.
    apply update_order_tracked; [ intro o; unfold tracked_as; repeat split | ].
    apply Forall_app. split; [ exact Hl | ].
    constructor; [ | constructor ].
    right. exists d, new_id. split; [ exact Hd | apply tracked_as_refl ].
  - exact Hl.
  - exact Hl.
Qed.

Lemma recreate_loop_tracked {W : Type} (self : Self W) (ended_markets : list string)
    (l0 : Ledger) (disappeared rest : list TrackedOrder) :
  (forall d, In d rest -> In d disappeared) ->
  forall (count : nat) (e e' : Env W) (r : outcome nat),
    for_sum rest (recreate_order self ended_markets) count e = (r, e') ->
    Forall (tracked_or_replacement l0 disappeared) (tracked_orders e) ->
    Forall (tracked_or_replacement l0 disappeared) (tracked_orders e').
Proof.
  induction rest as [| d rest IH]; intros Hin count e e' r Hrun Hl.
  - cbn in Hrun. injection Hrun as _ <-. exact Hl.
  - destruct (recreate_order_turn self ended_markets d e) as [k [e1 [Hd Hturn]]].
    rewrite (for_sum_cons_run d rest _ count k e e1 Hd) in Hrun.
    apply (IH (fun x Hx => Hin x (or_intror Hx)) _ e1 e' r Hrun).
    apply (turn_run_tracked self ended_markets l0 disappeared d e e1 k
             (Hin d (or_introl eq_refl)) Hturn Hl).
Qed.

Lemma presence_updated_tracked (open_order_ids : list string) (l : Ledger) :
  Forall (tracked_or_replacement l []) (presence_updated open_order_ids l).
Proof.
  unfold presence_updated.
  assert (H : forall ks l1,
            Forall (tracked_or_replacement l []) l1 ->
            Forall (tracked_or_replacement l [])
              (fold_left
                 (fun acc id => update_order_status id (str_in id open_order_ids) acc)
                 ks l1)).
  { induction ks as [| id ks IH]; intros l1 Hl1; [ exact Hl1 | ].
    cbn [fold_left]. apply IH. unfold update_order_status.
    apply update_order_tracked; [ | exact Hl1 ].
    intro o. destruct (negb (str_in id open_order_ids) && status_eqb (status o) OPEN);
      unfold tracked_as; repeat split. }
  apply H. apply Forall_forall. intros o Ho. left. exists o.
  split; [ exact Ho | apply tracked_as_refl ].
Qed.

(** Whatever [check_and_recreate_orders] does once the open orders are
    read, every order of the ledger it leaves was tracked before, up to
    status and link, or is the replacement of a disappeared order. *)
Lemma check_and_recreate_orders_tracked {W : Type} (self : Self W)
    (sets : SetIteration) (e e' : Env W) (r : outcome nat)
    (open_orders : list OpenOrder) (w1 : W) :
  client_get_open_orders self (world e) = (Ret open_orders, w1) ->
  check_and_recreate_orders self sets e = (r, e') ->
  Forall (tracked_or_replacement (tracked_orders e)
            (found_disappeared open_orders (tracked_orders e)))
    (tracked_orders e').
Proof.
  intros Hopen Hrun. rewrite check_and_recreate_orders_run, Hopen in Hrun.
  cbv zeta in Hrun. unfold found_disappeared.
  set (l1 := presence_updated (open_order_ids_of open_orders) (tracked_orders e)) in *.
  assert (Hl1 : Forall (tracked_or_replacement (tracked_orders e)
                          (get_disappeared_orders l1)) l1).
  { apply (Forall_impl _ (P := tracked_or_replacement (tracked_orders e) []));
      [ | apply presence_updated_tracked ].
    intros o [H | [d [new_id [[] _]]]]. left. exact H. }
  destruct (get_disappeared_orders l1) as [| d ds] eqn:Hdis.
  - injection Hrun as _ <-. exact Hl1.
  - unfold bind in Hrun.
    set (e1 := mkEnv w1 l1 (calls e ++ [GetOpenOrders])) in *.
    destruct (match market_scanner self with
              | Some is_market_active =>
                  batch_check is_market_active
                    (iter_set sets (map market_slug (d :: ds))) []
              | None => ret []
              end e1) as [[ended_markets |] e2] eqn:Hbatch.
    + assert (Hl2 : tracked_orders e2 = l1).
      { destruct (market_scanner self) as [f |].
        - apply batch_check_frame in Hbatch. apply Hbatch.
        - injection Hbatch as <- <-. reflexivity. }
      apply (recreate_loop_tracked self ended_markets (tracked_orders e) (d :: ds)
               (d :: ds) (fun x Hx => Hx) 0%nat e2 e' r Hrun).
      rewrite Hl2. exact Hl1.
    + assert (Hl2 : tracked_orders e2 = l1).
      { destruct (market_scanner self) as [f |].
        - apply batch_check_frame in Hbatch. apply Hbatch.
        - discriminate. }
      injection Hrun as _ <-. rewrite Hl2. exact Hl1.
Qed.

(** *** Groups with and without a recorded price *)

(** The legs of a token are placed one by one, whatever the client
    answers. *)
Lemma place_legs_calls {W : Type} (self : Self W) (token slug : string)
    (tp_specs : list TPSpec) :
  forall (count : nat) (e : Env W),
    exists k e' sells,
      for_sum tp_specs (place_leg self token slug) count e = (Ret k, e') /\
      tracked_orders e' = tracked_orders e ++ sells /\
      Forall (fun o => side o = SELL) sells /\
      calls e' = calls e ++ leg_calls token tp_specs.
Proof.
  induction tp_specs as [| leg rest IH]; intros count e.
  - exists count, e, []. cbn. rewrite !app_nil_r.
    split; [ reflexivity | ]. split; [ reflexivity | ].
    split; [ constructor | reflexivity ].
  - destruct (place_leg_effect self token slug leg e)
      as [k1 [e1 [s1 [cs1 [Hrun [Hl1 [Hs1 [Hc1 Hlen]]]]]]]].
    assert (Hcs1 : cs1 = leg_calls token [leg]).
    { unfold leg_calls. cbn [flat_map]. rewrite app_nil_r.
      unfold place_leg in Hrun.
      destruct (tp_price leg) as [p |].
      - unfold bind at 1 in Hrun. unfold place_take_profit_orders, try_except in Hrun.
        unfold bind at 1 in Hrun. unfold place_limit_sell in Hrun.
        rewrite external_run in Hrun.
        destruct (client_place_limit_sell self token p (tp_size leg) (world e))
          as [[[new_id |] |] w1]; cbn [fst snd] in Hrun.
        + unfold bind, order_monitor_add_order, add_order in Hrun.
          cbn [tracked_orders world calls] in Hrun.
          destruct (has_order new_id (tracked_orders e));
            cbn in Hrun; injection Hrun as _ <-; cbn [calls] in Hc1;
            apply app_inv_head in Hc1; symmetry; exact Hc1.
        + cbn in Hrun. injection Hrun as _ <-. cbn [calls] in Hc1.
          apply app_inv_head in Hc1. symmetry. exact Hc1.
        + cbn in Hrun. injection Hrun as _ <-. cbn [calls] in Hc1.
          apply app_inv_head in Hc1. symmetry. exact Hc1.
      - cbn in Hrun. injection Hrun as _ <-.
        rewrite <- (app_nil_r (calls e)) in Hc1 at 1.
        apply app_inv_head in Hc1. symmetry. exact Hc1. }
    destruct (IH (count + k1)%nat e1) as [k [e' [s2 [Hloop [Hl2 [Hs2 Hc2]]]]]].
    exists k, e', (s1 ++ s2).
    rewrite (for_sum_cons_run leg rest _ count k1 e e1 Hrun).
    split; [ exact Hloop | ].
    split; [ rewrite Hl2, Hl1, app_assoc; reflexivity | ].
    split; [ apply Forall_app; split; assumption | ].
    rewrite Hc2, Hc1, Hcs1, <- app_assoc. unfold leg_calls. cbn [flat_map].
    rewrite app_nil_r. reflexivity.
Qed.

(** The turn of a group that passes the balance gates and has a recorded
    price: the orders taken as filled are marked, and the legs that the
    strategy computes from that price are placed. *)
Lemma set_tp_for_token_priced {W : Type} (self : Self W)
    (all_open_orders : list OpenOrder) (slug token : string) (data : TokenData)
    (e : Env W) (b : Decimal) (w1 : W) (cents : Q) :
  client_get_token_balance self token (world e) = (Ret b, w1) ->
  (0 < b)%Q ->
  (0.01 < decimal_sub b (existing_sell_size_of all_open_orders token))%Q ->
  td_strong_team_price_cents data = Some cents ->
  price_recorded (Some cents) = true ->
  let marked := taken_as_filled all_open_orders token data in
  exists k e' sells,
    set_tp_for_token self all_open_orders slug token data e = (Ret k, e') /\
    tracked_orders e' =
      filled_where (map order_id marked) (tracked_orders e) ++ sells /\
    Forall (fun o => side o = SELL) sells /\
    calls e' =
      calls e ++ GetTokenBalance token ::
        leg_calls token
          (calculate_take_profit_orders (build_filled_entries 0 marked) cents
             (decimal_sub b (existing_sell_size_of all_open_orders token))).
Proof.
  intros Hbal Hb Hu Hcents Hrec marked.
  unfold set_tp_for_token. fold (taken_as_filled all_open_orders token data).
  fold marked.
  unfold bind at 1. unfold get_token_balance. rewrite external_run, Hbal.
  cbn [fst snd].
  apply Qle_bool_false in Hb. rewrite Hb.
  apply Qle_bool_false in Hu. rewrite Hu.
  unfold bind at 1. rewrite mark_loop_run. cbn [world tracked_orders calls].
  rewrite Hcents, Hrec.
  destruct (place_legs_calls self token slug
              (calculate_take_profit_orders (build_filled_entries 0 marked) cents
                 (decimal_sub b (existing_sell_size_of all_open_orders token)))
              0%nat
              (mkEnv w1 (filled_where (map order_id marked) (tracked_orders e))
                 (calls e ++ [GetTokenBalance token])))
    as [k [e' [sells [Hrun [Hl [Hs Hc]]]]]].
  exists k, e', sells. split; [ exact Hrun | ].
  split; [ exact Hl | ]. split; [ exact Hs | ].
  rewrite Hc. cbn [calls]. rewrite <- app_assoc. reflexivity.
Qed.

(** The turn of a group without a recorded price: at most the orders
    taken as filled are marked, and only the balance is asked. *)
Lemma set_tp_for_token_unpriced {W : Type} (self : Self W)
    (all_open_orders : list OpenOrder) (slug token : string) (data : TokenData)
    (e : Env W) :
  price_recorded (td_strong_team_price_cents data) = false ->
  exists r e',
    set_tp_for_token self all_open_orders slug token data e = (r, e') /\
    Forall2 same_or_filled (tracked_orders e) (tracked_orders e') /\
    calls e' = calls e ++ [GetTokenBalance token] /\
    match r with Ret k => k = 0%nat | Raise => True end.
Proof.
  intro Hrec. unfold set_tp_for_token.
  unfold bind at 1. unfold get_token_balance. rewrite external_run.
  destruct (client_get_token_balance self token (world e)) as [[b |] w1];
    cbn [fst snd].
  2: { eexists; eexists. split; [ reflexivity | ]. cbn [tracked_orders calls].
       split; [ apply same_or_filled_ledger_refl | ]. split; [ reflexivity | exact I ]. }
  destruct (Qle_bool b 0).
  { eexists; eexists. split; [ reflexivity | ]. cbn [tracked_orders calls].
    split; [ apply same_or_filled_ledger_refl | ]. split; reflexivity. }
  destruct (Qle_bool (decimal_sub b (existing_sell_size_of all_open_orders token)) 0.01).
  { eexists; eexists. split; [ reflexivity | ]. cbn [tracked_orders calls].
    split; [ apply same_or_filled_ledger_refl | ]. split; reflexivity. }
  unfold bind at 1. rewrite mark_loop_run. cbn [world tracked_orders calls].
  destruct (td_strong_team_price_cents data) as [cents |].
  - rewrite Hrec. eexists; eexists. split; [ reflexivity | ].
    cbn [tracked_orders calls].
    split; [ apply filled_where_same_or_filled | ]. split; reflexivity.
  - eexists; eexists. split; [ reflexivity | ]. cbn [tracked_orders calls].
    split; [ apply filled_where_same_or_filled | ]. split; reflexivity.
Qed.

(** Groups that all lack a recorded price: orders are marked at most, and
    nothing is placed. *)
Lemma visits_unpriced {W : Type} (self : Self W) (all_open_orders : list OpenOrder)
    (vs : list (string * (string * TokenData))) :
  (forall v, In v vs ->
     price_recorded (td_strong_team_price_cents (snd (snd v))) = false) ->
  forall (count : nat) (e : Env W),
    exists r e' cs,
      for_sum vs (visit_turn self all_open_orders) count e = (r, e') /\
      Forall2 same_or_filled (tracked_orders e) (tracked_orders e') /\
      calls e' = calls e ++ cs /\ placements cs = 0%nat /\
      match r with Ret k => k = count | Raise => True end.
Proof.
  induction vs as [| v vs IH]; intros Hall count e.
  - exists (Ret count), e, []. cbn. rewrite app_nil_r.
    split; [ reflexivity | ]. split; [ apply same_or_filled_ledger_refl | ].
    split; [ reflexivity | ]. split; reflexivity.
  - destruct (set_tp_for_token_unpriced self all_open_orders (fst v) (fst (snd v))
                (snd (snd v)) e (Hall v (or_introl eq_refl)))
      as [r1 [e1 [Hturn [Hl1 [Hc1 Hr1]]]]].
    destruct r1 as [k1 |].
    + subst k1.
      destruct (IH (fun x Hx => Hall x (or_intror Hx)) (count + 0)%nat e1)
        as [r [e' [cs [Hrest [Hl2 [Hc2 [Hp Hr]]]]]]].
      exists r, e', (GetTokenBalance (fst (snd v)) :: cs).
      rewrite (for_sum_cons_run v vs _ count 0%nat e e1 Hturn).
      split; [ exact Hrest | ].
      split; [ apply (same_or_filled_ledger_trans _ _ _ Hl1 Hl2) | ].
      split; [ rewrite Hc2, Hc1, <- app_assoc; reflexivity | ].
      split; [ exact Hp | ].
      destruct r as [k |]; [ rewrite Nat.add_0_r in Hr; exact Hr | exact I ].
    + exists Raise, e1, [GetTokenBalance (fst (snd v))].
      cbn [for_sum]. unfold bind. unfold visit_turn at 1. rewrite Hturn.
      split; [ reflexivity | ]. split; [ exact Hl1 | ].
      split; [ exact Hc1 | ]. split; [ reflexivity | exact I ].
Qed.

(** The case C10 describes: both entries of the market disappear and are
    recreated as "n1" and "n2", without a price.  When both replacements
    have filled, the group of the token is headed by "n1": both are marked
    FILLED and no take-profit order is placed. *)
Example recreated_ladder_gets_no_take_profit :
  let run := check_filled_positions_and_set_tp Scenario.exchange
               Scenario.insertion_order [] Scenario.replacements_filled in
  map Scenario.summary (tracked_orders Scenario.both_recreated) =
    [ ("o1", RECREATED, Some 65%Q); ("o2", RECREATED, Some 65%Q);
      ("n1", OPEN, None); ("n2", OPEN, None) ]
  /\ fst run = Ret 0%nat
  /\ map Scenario.summary (tracked_orders (snd run)) =
       [ ("o1", RECREATED, Some 65%Q); ("o2", RECREATED, Some 65%Q);
         ("n1", FILLED, None); ("n2", FILLED, None) ]
  /\ calls (snd run) = [GetOpenOrders; GetTokenBalance "tok-a"].
Proof.
  cbv zeta. repeat split; vm_compute; reflexivity.
Qed.

(** The groups the pass visits are headed by the first active BUY order
    of their token in their market. *)
Lemma visits_heads (sets : SetIteration) (skip : list string) (l : Ledger)
    (m t : string) (d : TokenData) :
  In (m, (t, d)) (visits sets skip l) ->
  exists first rest,
    buys_of t (get_active_orders_by_market m l) = first :: rest /\
    buy_orders d = first :: rest /\
    td_strong_team_price_cents d = strong_team_price_cents first.
Proof.
  intro Hin. unfold visits in Hin. apply in_flat_map in Hin.
  destruct Hin as [m0 [_ Hin]].
  destruct (str_in m0 skip); [ contradiction | ].
  apply in_map_iff in Hin. destruct Hin as [[t0 d0] [Heq Hin]].
  injection Heq as -> -> ->.
  apply (visited_group _ t d Hin).
Qed.

(** C10, amended. An order recreated by [check_and_recreate_orders] gets a
    ledger entry without a favored start price, whatever the original
    carried: after the call every order of the ledger is one that was
    tracked before, up to its status and link, or the replacement of a
    disappeared order, and a replacement carries no price.  Over a ledger
    with distinct ids, [check_filled_positions_and_set_tp] takes the turn
    of every token group of the active orders of every market that is not
    skipped, and the take-profit gate of a group reads the price recorded
    on the first tracked BUY order of the group.  So when that first order
    has no recorded price, as when it is such a replacement, a group that
    passes the balance and dust gates has its filled orders marked and no
    take-profit leg computed or placed; when no group has one, the whole
    call places nothing and returns 0.  And when that first order has a
    recorded price, the legs are computed from it and placed, whichever
    orders of the group are taken as filled, replacements included. *)
Theorem replacement_has_no_start_price {W : Type} (self : Self W)
    (sets : SetIteration) (skip : list string)
    (ended_markets : list string) (order_data : TrackedOrder) (e : Env W)
    (all_open_orders : list OpenOrder) (slug token : string) (data : TokenData)
    (market_orders : list TrackedOrder) :
  let ledger := tracked_orders e in
  (forall b w1 new_id w2,
      str_in (market_slug order_data) ended_markets = false ->
      client_get_token_balance self (token_id order_data) (world e) = (Ret b, w1) ->
      (b <= 0.1)%Q ->
      recreate_answer self order_data w1 = (Ret (Some new_id), w2) ->
      has_order new_id ledger = false ->
      exists e',
        recreate_order self ended_markets order_data e = (Ret 1%nat, e') /\
        tracked_orders e' =
          mark_order_recreated (order_id order_data) new_id
            (ledger ++ [replacement_of order_data new_id]) /\
        strong_team_price_cents (replacement_of order_data new_id) = None /\
        (forall o, In o (tracked_orders e') -> order_id o = new_id ->
                   strong_team_price_cents o = None))
  /\ (In (token, data) (group_by_token market_orders) ->
      exists first rest,
        buys_of token market_orders = first :: rest /\
        buy_orders data = first :: rest /\
        td_strong_team_price_cents data = strong_team_price_cents first)
  /\ (forall b w1,
         client_get_token_balance self token (world e) = (Ret b, w1) ->
         (0 < b)%Q ->
         (0.01 < decimal_sub b (existing_sell_size_of all_open_orders token))%Q ->
         price_recorded (td_strong_team_price_cents data) = false ->
         set_tp_for_token self all_open_orders slug token data e =
           (Ret 0%nat,
            mkEnv w1
              (filled_where
                 (map order_id
                    (py_slice_to (buy_orders data)
                       (Z.of_nat (List.length (buy_orders data))
                        - open_buy_count_of all_open_orders token)))
                 ledger)
              (calls e ++ [GetTokenBalance token])))
  /\ (forall open_orders w1 r e',
         client_get_open_orders self (world e) = (Ret open_orders, w1) ->
         check_and_recreate_orders self sets e = (r, e') ->
         forall o, In o (tracked_orders e') ->
           (exists o0, In o0 ledger /\ tracked_as o0 o)
           \/ (strong_team_price_cents o = None /\
               exists d new_id,
                 In d (found_disappeared open_orders ledger) /\
                 tracked_as (replacement_of d new_id) o))
  /\ (forall w1,
         NoDup (keys ledger) ->
         client_get_open_orders self (world e) = (Ret all_open_orders, w1) ->
         check_filled_positions_and_set_tp self sets skip e =
           for_sum (visits sets skip ledger)
             (fun v => set_tp_for_token self all_open_orders
                         (fst v) (fst (snd v)) (snd (snd v)))
             0%nat (mkEnv w1 ledger (calls e ++ [GetOpenOrders]))
         /\ (forall m t d,
               In (m, (t, d)) (visits sets skip ledger) ->
               exists first rest,
                 buys_of t (get_active_orders_by_market m ledger) = first :: rest /\
                 buy_orders d = first :: rest /\
                 td_strong_team_price_cents d = strong_team_price_cents first))
  /\ (forall w1 r e',
         NoDup (keys ledger) ->
         client_get_open_orders self (world e) = (Ret all_open_orders, w1) ->
         (forall v, In v (visits sets skip ledger) ->
            price_recorded (td_strong_team_price_cents (snd (snd v))) = false) ->
         check_filled_positions_and_set_tp self sets skip e = (r, e') ->
         Forall2 same_or_filled ledger (tracked_orders e') /\
         (exists cs,
            calls e' = calls e ++ GetOpenOrders :: cs /\ placements cs = 0%nat) /\
         match r with Ret tp_placed => tp_placed = 0%nat | Raise => True end)
  /\ (forall b w1 cents,
         client_get_token_balance self token (world e) = (Ret b, w1) ->
         (0 < b)%Q ->
         (0.01 < decimal_sub b (existing_sell_size_of all_open_orders token))%Q ->
         td_strong_team_price_cents data = Some cents ->
         price_recorded (Some cents) = true ->
         exists k e' sells,
           set_tp_for_token self all_open_orders slug token data e = (Ret k, e') /\
           tracked_orders e' =
             filled_where
               (map order_id (taken_as_filled all_open_orders token data)) ledger
             ++ sells /\
           Forall (fun o => side o = SELL) sells /\
           calls e' =
             calls e ++ GetTokenBalance token ::
               leg_calls token
                 (calculate_take_profit_orders
                    (build_filled_entries 0
                       (taken_as_filled all_open_orders token data))
                    cents
                    (decimal_sub b (existing_sell_size_of all_open_orders token)))).
Proof.
  intro ledger.
  split; [ | split; [ | split; [ | split; [ | split; [ | split ] ] ] ] ].
  - intros b w1 new_id w2 Hended Hbal Hb Hans Hfresh.
    pose proof (recreate_order_placement self ended_markets order_data e b w1
                  Hended Hbal Hb) as H.
    cbv zeta in H. rewrite Hans in H. fold ledger in H. rewrite Hfresh in H.
    eexists. split; [ exact H | ]. cbn [tracked_orders].
    split; [ reflexivity | ]. split; [ reflexivity | ].
    intros o Ho Hid. unfold mark_order_recreated, update_order in Ho.
    apply in_map_iff in Ho. destruct Ho as [x [Hx Hin]].
    assert (Hxid : order_id x = new_id).
    { rewrite <- Hid, <- Hx.
      destruct (String.eqb (order_id x) (order_id order_data)); reflexivity. }
    assert (Hxr : x = replacement_of order_data new_id).
    { apply in_app_or in Hin. destruct Hin as [Hin | [Hin | []]].
      - exfalso. apply str_in_not_In in Hfresh. apply Hfresh.
        rewrite <- Hxid. apply in_map. exact Hin.
      - symmetry. exact Hin. }
    rewrite <- Hx, Hxr.
    destruct (String.eqb (order_id (replacement_of order_data new_id))
                (order_id order_data)); reflexivity.
  - apply visited_group.
  - intros b w1 Hbal Hb Hu Hrec.
    destruct (set_tp_for_token_run self all_open_orders slug token data e b w1
                Hbal Hb Hu) as [k [e' [sells [cs [Hrun [Hl [_ [Hc Hnone]]]]]]]].
    destruct (Hnone Hrec) as [-> [-> ->]].
    rewrite Hrun. f_equal. rewrite !app_nil_r in *.
    destruct e' as [w' l' c']. cbn in Hl, Hc. subst l' c'.
    f_equal.
    unfold set_tp_for_token in Hrun. unfold bind at 1 in Hrun.
    unfold get_token_balance in Hrun. rewrite external_run, Hbal in Hrun.
    cbn [fst snd] in Hrun.
    apply Qle_bool_false in Hb. rewrite Hb in Hrun.
    apply Qle_bool_false in Hu. rewrite Hu in Hrun.
    unfold bind at 1 in Hrun. rewrite mark_loop_run in Hrun.
    cbn [world tracked_orders calls] in Hrun.
    destruct (td_strong_team_price_cents data) as [cents |].
    + rewrite Hrec in Hrun. injection Hrun as <-. reflexivity.
    + injection Hrun as <-. reflexivity.
  - intros open_orders w1 r e' Hopen Hrun o Ho.
    pose proof (check_and_recreate_orders_tracked self sets e e' r open_orders w1
                  Hopen Hrun) as Hall.
    rewrite Forall_forall in Hall.
    destruct (Hall o Ho) as [H | [d [new_id [Hd Has]]]]; [ left; exact H | ].
    right. split.
    + destruct Has as [_ [_ [_ [_ [_ [_ [_ Hprice]]]]]]]. exact Hprice.
    + exists d, new_id. split; [ exact Hd | exact Has ].
  - intros w1 Hnd Hopen. split.
    + apply (check_filled_visits self sets skip e all_open_orders w1 Hnd Hopen).
    + intros m t d Hin. apply (visits_heads sets skip ledger m t d Hin).
  - intros w1 r e' Hnd Hopen Hall Hrun.
    rewrite (check_filled_visits self sets skip e all_open_orders w1 Hnd Hopen) in Hrun.
    destruct (visits_unpriced self all_open_orders (visits sets skip ledger) Hall
                0%nat (mkEnv w1 ledger (calls e ++ [GetOpenOrders])))
      as [r0 [e0 [cs [Hloop [Hl [Hc [Hp Hr]]]]]]].
    fold ledger in Hrun. rewrite Hloop in Hrun. injection Hrun as <- <-.
    cbn [tracked_orders calls] in Hl, Hc.
    split; [ exact Hl | ]. split; [ | exact Hr ].
    exists cs. split; [ rewrite Hc, <- app_assoc; reflexivity | exact Hp ].
  - intros b w1 cents Hbal Hb Hu Hcents Hrec.
    apply (set_tp_for_token_priced self all_open_orders slug token data e b w1 cents
             Hbal Hb Hu Hcents Hrec).
Qed.


(** *** One reconciliation, run *)

(** Four tracked orders, three of them gone from the listing. The order
    of the ended market is removed and its market taken off the queue; the
    order whose token shows a balance of 3 is marked FILLED; the SELL order
    with a balance of 0.05 is placed again with its price and size and
    linked to its replacement; the listed order stays OPEN.  The call
    returns 1, and the scanner was asked once about each of the two markets
    of the three disappeared orders. *)
Example reconcile_four_orders :
  let run := check_and_recreate_orders Scenario.exchange Scenario.insertion_order
               Scenario.four_orders_start in
  fst run = Ret 1%nat
  /\ map (fun o => (order_id o, status o, replaced_by o)) (tracked_orders (snd run)) =
       [ ("a2", FILLED, None); ("a3", RECREATED, Some "n1");
         ("a4", OPEN, None); ("n1", OPEN, None) ]
  /\ calls (snd run) =
       [ GetOpenOrders; IsMarketActive "market-2"; IsMarketActive "market-3";
         RemoveMarket "market-2"; GetTokenBalance "tok-b"; GetTokenBalance "tok-c";
         PlaceLimitSell "tok-c" 0.96%Q 4%Q ].
Proof.
  cbv zeta. repeat split; vm_compute; reflexivity.
Qed.

(** Two skips, run: without a balance the group of the token is passed
    over after the balance query, although one fill is inferred; with the
    market in the skip set nothing is asked about it, although the token
    has a balance.  Either way the call returns 0 and the ledger is the
    one it started from. *)
Example skipped_runs :
  check_filled_positions_and_set_tp Scenario.exchange Scenario.insertion_order []
    Scenario.no_balance_start =
    (Ret 0%nat,
     mkEnv (world Scenario.no_balance_start) Scenario.tracked_two
       [GetOpenOrders; GetTokenBalance "tok-a"])
  /\ check_filled_positions_and_set_tp Scenario.exchange Scenario.insertion_order
       ["market-1"] Scenario.one_open_start =
       (Ret 0%nat,
        mkEnv (world Scenario.one_open_start) Scenario.tracked_two [GetOpenOrders]).
Proof.
  split; vm_compute; reflexivity.
Qed.

(** * Further properties of the strategy *)

(** A configuration comes from the band of the table that holds the
    price. *)
Lemma config_band (size p : Q) (c : EntryConfig) :
  get_entry_prices size p = Some c ->
  exists lo hi e1 e2,
    In ((lo, hi), (e1, e2)) STRATEGY_TABLE /\ (lo <= p <= hi)%Q /\
    c = mkEntryConfig e1 (cents_to_price (inject_Z e1))
                      e2 (cents_to_price (inject_Z e2)) size.
Proof.
  unfold get_entry_prices, STRATEGY_TABLE, find_band. cbn [In].
  qle_cases; intro H; try discriminate; injection H as <-;
    do 4 eexists; (split; [ | split; [ split; eassumption | reflexivity ] ]);
    tauto.
Qed.

(** A higher price in cents is not a lower price in dollars. *)
Lemma cents_to_price_le (a b : Q) :
  (a <= b)%Q -> (cents_to_price a <= cents_to_price b)%Q.
Proof.
  intro H. unfold cents_to_price, decimal_div. apply context_round_mono.
  unfold Qdiv. apply Qmult_le_compat_r; [ exact H | discriminate ].
Qed.

Lemma cents_to_price_one (a : Q) : (a <= 100)%Q -> (cents_to_price a <= 1)%Q.
Proof.
  intro H. apply (Qle_trans _ (cents_to_price 100)).
  - apply cents_to_price_le. exact H.
  - vm_compute. discriminate.
Qed.

(** X1. Whatever the favored price, a configured ladder lies below it:
    entry 2 is below entry 1, entry 1 is below the favored price, both in
    cents and as prices, and the prices lie strictly between 0 and 1. *)
Theorem entries_below_favorite (size p : Q) (c : EntryConfig) :
  get_entry_prices size p = Some c ->
  entry2_cents c < entry1_cents c
  /\ (inject_Z (entry1_cents c) < p)%Q
  /\ (0 < entry2_price c)%Q
  /\ (entry2_price c < entry1_price c)%Q
  /\ (entry1_price c < cents_to_price p)%Q
  /\ (cents_to_price p <= 1)%Q.
Proof.
  intro Hc. destruct (config_band size p c Hc) as [lo [hi [e1 [e2 [Hin [Hp ->]]]]]].
  unfold STRATEGY_TABLE in Hin. cbn [In] in Hin.
  cbn [entry1_cents entry2_cents entry1_price entry2_price].
  repeat (destruct Hin as [Hin | Hin];
          [ injection Hin as <- <- <- <-;
            split; [ reflexivity | ];
            split; [ unfold inject_Z; lra | ];
            split; [ vm_compute; reflexivity | ];
            split; [ vm_compute; reflexivity | ];
            split; [ refine (Qlt_le_trans _ _ _ _
                               (cents_to_price_le _ _ (proj1 Hp)));
                     vm_compute; reflexivity
                   | apply cents_to_price_one; lra ] | ]).
  contradiction.
Qed.

Lemma entries_below_favorite_witness :
  get_entry_prices 5%Q 65 =
    Some (mkEntryConfig 44 (cents_to_price (inject_Z 44))
                        31 (cents_to_price (inject_Z 31)) 5%Q)
  /\ 31 < 44
  /\ (inject_Z 44 < 65)%Q
  /\ (0 < cents_to_price (inject_Z 31))%Q
  /\ (cents_to_price (inject_Z 31) < cents_to_price (inject_Z 44))%Q
  /\ (cents_to_price (inject_Z 44) < cents_to_price 65)%Q
  /\ (cents_to_price 65 <= 1)%Q.
Proof.
  split; [ reflexivity | ].
  apply (entries_below_favorite 5 65
           (mkEntryConfig 44 (cents_to_price (inject_Z 44))
                          31 (cents_to_price (inject_Z 31)) 5%Q)).
  reflexivity.
Defined.

(** X2. The ladder rises with the favored price: of two configured
    prices, the higher one has entry cents at least as high, for entry 1
    and for entry 2. *)
Theorem ladder_monotone (size p q : Q) (cp cq : EntryConfig) :
  (p <= q)%Q ->
  get_entry_prices size p = Some cp ->
  get_entry_prices size q = Some cq ->
  entry1_cents cp <= entry1_cents cq /\ entry2_cents cp <= entry2_cents cq.
Proof.
  intros Hpq Hp Hq.
  destruct (config_band size p cp Hp) as [lo [hi [e1 [e2 [Hin [Hb ->]]]]]].
  destruct (config_band size q cq Hq) as [lo' [hi' [e1' [e2' [Hin' [Hb' ->]]]]]].
  unfold STRATEGY_TABLE in Hin, Hin'. cbn [In] in Hin, Hin'.
  cbn [entry1_cents entry2_cents].
  repeat (destruct Hin as [Hin | Hin];
          [ injection Hin as <- <- <- <-;
            repeat (destruct Hin' as [Hin' | Hin'];
                    [ injection Hin' as <- <- <- <-;
                      first [ split; lia | exfalso; lra ] | ]);
            contradiction | ]).
  contradiction.
Qed.

Lemma ladder_monotone_witness :
  (65 <= 80)%Q
  /\ get_entry_prices 5%Q 65 =
       Some (mkEntryConfig 44 (cents_to_price (inject_Z 44))
                           31 (cents_to_price (inject_Z 31)) 5%Q)
  /\ get_entry_prices 5%Q 80 =
       Some (mkEntryConfig 68 (cents_to_price (inject_Z 68))
                           55 (cents_to_price (inject_Z 55)) 5%Q)
  /\ 44 <= 68 /\ 31 <= 55.
Proof.
  split; [ lra | ]. split; [ reflexivity | ]. split; [ reflexivity | ].
  apply (ladder_monotone 5 65 80
           (mkEntryConfig 44 (cents_to_price (inject_Z 44))
                          31 (cents_to_price (inject_Z 31)) 5%Q)
           (mkEntryConfig 68 (cents_to_price (inject_Z 68))
                          55 (cents_to_price (inject_Z 55)) 5%Q)).
  - lra.
  - reflexivity.
  - reflexivity.
Defined.

(** X3. No take-profit leg is priced below an entry that filled. When the
    filled entries were bought at the ladder prices of the favored start
    price, every leg that [calculate_take_profit_orders] returns for that
    start price has a price, at least the price of every filled entry and
    at most 1. *)
Theorem legs_not_below_entries (size p total : Q) (c : EntryConfig)
    (filled : list FilledEntry) :
  get_entry_prices size p = Some c ->
  (forall e, In e filled ->
     (fe_entry_number e = 1 /\ (fe_price e == entry1_price c)%Q) \/
     (fe_entry_number e = 2 /\ (fe_price e == entry2_price c)%Q)) ->
  forall leg, In leg (calculate_take_profit_orders filled p total) ->
    exists q, tp_price leg = Some q /\
              (forall e, In e filled -> (fe_price e <= q)%Q) /\ (q <= 1)%Q.
Proof.
  intros Hc Hfilled leg Hleg.
  assert (Hfacts : (entry2_price c <= entry1_price c)%Q /\
                   (entry1_price c <= cents_to_price p)%Q /\
                   (entry1_price c <= 0.96)%Q /\ (cents_to_price p <= 1)%Q).
  { destruct (config_band size p c Hc) as [lo [hi [e1 [e2 [Hin [Hp ->]]]]]].
    unfold STRATEGY_TABLE in Hin. cbn [In] in Hin.
    cbn [entry1_price entry2_price].
    repeat (destruct Hin as [Hin | Hin];
            [ injection Hin as <- <- <- <-;
              split; [ vm_compute; discriminate | ];
              split; [ refine (Qle_trans _ _ _ _
                                 (cents_to_price_le _ _ (proj1 Hp)));
                       vm_compute; discriminate | ];
              split; [ vm_compute; discriminate | apply cents_to_price_one; lra ] | ]).
    contradiction. }
  destruct Hfacts as [H21 [H1p [H196 Hp1]]].
  assert (Hbelow : forall e, In e filled -> (fe_price e <= entry1_price c)%Q).
  { intros e He. destruct (Hfilled e He) as [[_ Heq] | [_ Heq]]; rewrite Heq.
    - apply Qle_refl.
    - exact H21. }
  assert (Hvia : forall q, (entry1_price c <= q)%Q -> (q <= 1)%Q ->
                   exists q', Some q = Some q' /\
                     (forall e, In e filled -> (fe_price e <= q')%Q) /\ (q' <= 1)%Q).
  { intros q Hq Hq1. exists q. split; [ reflexivity | ]. split; [ | exact Hq1 ].
    intros e He. apply (Qle_trans _ (entry1_price c)); [ apply Hbelow, He | exact Hq ]. }
  unfold calculate_take_profit_orders in Hleg.
  destruct (scan_entry_prices filled None None) as [p1 p2] eqn:Hscan.
  destruct (py_in 1 (map fe_entry_number filled)) eqn:Hin1;
    destruct (py_in 2 (map fe_entry_number filled)) eqn:Hin2;
    cbn [andb negb] in Hleg.
  - apply py_in_In in Hin1.
    destruct (last_numbered 1 filled Hin1) as [pre [e1 [post [Heq [He1 Hpost]]]]].
    pose proof (scan_entry1_last pre post e1 None None He1 Hpost) as Hlast.
    rewrite <- Heq, Hscan in Hlast. cbn [fst] in Hlast. subst p1.
    assert (He1in : In e1 filled).
    { rewrite Heq. apply in_or_app. right. left. reflexivity. }
    destruct Hleg as [<- | [<- | []]]; cbn [tp_price].
    + destruct (Hfilled e1 He1in) as [[_ Hpr] | [H2 _]]; [ | congruence ].
      apply Hvia.
      * rewrite Hpr. apply Qle_refl.
      * rewrite Hpr. apply (Qle_trans _ (cents_to_price p)); assumption.
    + apply Hvia; assumption.
  - destruct Hleg as [<- | [<- | []]]; cbn [tp_price]; apply Hvia;
      first [ assumption | discriminate ].
  - destruct Hleg as [<- | [<- | []]]; cbn [tp_price]; apply Hvia;
      first [ assumption | discriminate ].
  - contradiction.
Qed.

Lemma legs_not_below_entries_witness :
  let c := mkEntryConfig 44 (cents_to_price (inject_Z 44))
                         31 (cents_to_price (inject_Z 31)) 5%Q in
  let filled := [mkFilledEntry 1 0.44%Q; mkFilledEntry 2 0.31%Q] in
  get_entry_prices 5%Q 65 = Some c
  /\ forall leg, In leg (calculate_take_profit_orders filled 65 10%Q) ->
       exists q, tp_price leg = Some q /\
                 (forall e, In e filled -> (fe_price e <= q)%Q) /\ (q <= 1)%Q.
Proof.
  cbv zeta. split; [ reflexivity | ].
  apply (legs_not_below_entries 5 65 10
           (mkEntryConfig 44 (cents_to_price (inject_Z 44))
                          31 (cents_to_price (inject_Z 31)) 5%Q)).
  - reflexivity.
  - intros e [<- | [<- | []]].
    + left. split; reflexivity.
    + right. split; reflexivity.
Defined.



(** The scan reads the same entry-1 price off two lists that agree on the
    entry numbers and on the prices of the entries numbered 1. *)
Lemma scan_entry1_agree (f g : list FilledEntry) :
  Forall2 (fun a b => fe_entry_number a = fe_entry_number b /\
                      (fe_entry_number a = 1 -> fe_price a = fe_price b)) f g ->
  forall p1 p2 p2',
    fst (scan_entry_prices f p1 p2) = fst (scan_entry_prices g p1 p2').
Proof.
  induction 1 as [| a b f g [Hnum Hprice] _ IH]; intros p1 p2 p2'; cbn.
  - reflexivity.
  - rewrite <- Hnum.
    destruct (Z.eqb_spec (fe_entry_number a) 1) as [H1 | _].
    + rewrite (Hprice H1). apply IH.
    + destruct (fe_entry_number a =? 2); apply IH.
Qed.

(** X5. The price paid for entry 2 never enters the take-profit legs: two
    lists of filled entries with the same entry numbers and the same
    prices on the entries numbered 1 give the same legs. *)
Theorem entry2_price_unused (f g : list FilledEntry) (cents total : Q) :
  Forall2 (fun a b => fe_entry_number a = fe_entry_number b /\
                      (fe_entry_number a = 1 -> fe_price a = fe_price b)) f g ->
  calculate_take_profit_orders f cents total =
    calculate_take_profit_orders g cents total.
Proof.
  intro Hfg.
  assert (Hnums : map fe_entry_number f = map fe_entry_number g).
  { induction Hfg as [| a b f g [Hnum _] _ IH]; cbn; [ reflexivity | ].
    rewrite Hnum, IH. reflexivity. }
  pose proof (scan_entry1_agree f g Hfg None None None) as Hscan.
  unfold calculate_take_profit_orders. rewrite Hnums.
  destruct (scan_entry_prices f None None) as [p1 p2].
  destruct (scan_entry_prices g None None) as [q1 q2].
  cbn [fst] in Hscan. subst q1. reflexivity.
Qed.

Lemma entry2_price_unused_witness :
  calculate_take_profit_orders [mkFilledEntry 1 0.44%Q; mkFilledEntry 2 0.31%Q] 65 10%Q =
    calculate_take_profit_orders [mkFilledEntry 1 0.44%Q; mkFilledEntry 2 0.99%Q] 65 10%Q.
Proof.
  apply (entry2_price_unused
           [mkFilledEntry 1 0.44%Q; mkFilledEntry 2 0.31%Q]
           [mkFilledEntry 1 0.44%Q; mkFilledEntry 2 0.99%Q] 65 10).
  apply Forall2_cons; [ split; reflexivity | ].
  apply Forall2_cons; [ split; [ reflexivity | discriminate ] | ].
  apply Forall2_nil.
Defined.

(** * Further properties of the executor *)

(** ** Placing entry orders *)

(** One turn of [place_entry_orders]: one placement call, at most one id
    appended to the placed ids, and at most one order added to the ledger,
    tracked under an appended id. *)
Lemma place_entry_order_effect {W : Type} (self : Self W) (strong : option Q)
    (ids : list string) (order_spec : OrderSpec) (e : Env W) :
  exists new e' added,
    place_entry_order self strong ids order_spec e = (Ret (ids ++ new), e') /\
    calls e' = calls e ++ [entry_call order_spec] /\
    tracked_orders e' = tracked_orders e ++ added /\
    (List.length added <= List.length new <= 1)%nat /\
    Forall (fun o => In (order_id o) new /\
                     o = entry_order strong (order_id o) order_spec) added.
Proof.
  unfold place_entry_order. unfold bind at 1. unfold try_except at 1.
  unfold place_limit_buy. rewrite external_run. fold (entry_call order_spec).
  destruct (client_place_limit_buy self (os_token_id order_spec) (os_price order_spec)
              (os_amount_usd order_spec) (world e)) as [[[id |] |] w1];
    cbn [fst snd].
  - unfold try_except, bind.
    destruct (Qeq_bool (os_price order_spec) 0).
    + exists [id]. eexists. exists []. cbn. rewrite app_nil_r.
      split; [ reflexivity | ]. split; [ reflexivity | ]. split; [ reflexivity | ].
      split; [ lia | apply Forall_nil ].
    + unfold order_monitor_add_order, add_order. cbn [tracked_orders world calls].
      destruct (has_order id (tracked_orders e)).
      * exists [id]. eexists. exists []. cbn. rewrite app_nil_r.
        split; [ reflexivity | ]. split; [ reflexivity | ]. split; [ reflexivity | ].
        split; [ lia | apply Forall_nil ].
      * exists [id]. eexists. eexists. cbn.
        split; [ reflexivity | ]. split; [ reflexivity | ]. split; [ reflexivity | ].
        split; [ cbn [List.length]; lia | ].
        apply Forall_cons; [ | apply Forall_nil ].
        split; [ left; reflexivity | reflexivity ].
  - exists []. eexists. exists []. cbn. rewrite !app_nil_r.
    split; [ reflexivity | ]. split; [ reflexivity | ]. split; [ reflexivity | ].
    split; [ lia | apply Forall_nil ].
  - exists []. eexists. exists []. cbn. rewrite !app_nil_r.
    split; [ reflexivity | ]. split; [ reflexivity | ]. split; [ reflexivity | ].
    split; [ lia | apply Forall_nil ].
Qed.

(** X6. [place_entry_orders] never raises and goes through every
    specification: it makes exactly one [place_limit_buy] call per
    specification, in order, whatever fails on the way.  It only appends
    to the ledger, and every order it adds is the BUY entry of one of the
    specifications, OPEN, with the favored start price it was given and
    under an id that it returns; it returns at most one id per
    specification and tracks at most as many orders as it returns ids. *)
Theorem place_entry_orders_effect {W : Type} (self : Self W)
    (orders : list OrderSpec) (strong : option Q) (e : Env W) :
  exists ids e' added,
    place_entry_orders self orders strong e = (Ret ids, e') /\
    calls e' = calls e ++ map entry_call orders /\
    tracked_orders e' = tracked_orders e ++ added /\
    (List.length added <= List.length ids <= List.length orders)%nat /\
    Forall (fun o => In (order_id o) ids /\
                     exists order_spec,
                       In order_spec orders /\
                       o = entry_order strong (order_id o) order_spec) added.
Proof.
  unfold place_entry_orders.
  assert (Hfrom : forall specs ids0 e0,
             exists new e' added,
               place_entry_orders_from self strong ids0 specs e0 =
                 (Ret (ids0 ++ new), e') /\
               calls e' = calls e0 ++ map entry_call specs /\
               tracked_orders e' = tracked_orders e0 ++ added /\
               (List.length added <= List.length new <= List.length specs)%nat /\
               Forall (fun o => In (order_id o) new /\
                                exists order_spec,
                                  In order_spec specs /\
                                  o = entry_order strong (order_id o) order_spec)
                      added).
  { induction specs as [| spec specs IH]; intros ids0 e0.
    - exists [], e0, []. cbn. rewrite !app_nil_r.
      split; [ reflexivity | ]. split; [ reflexivity | ]. split; [ reflexivity | ].
      split; [ lia | apply Forall_nil ].
    - destruct (place_entry_order_effect self strong ids0 spec e0)
        as [new1 [e1 [added1 [Hrun [Hc1 [Hl1 [Hn1 Ha1]]]]]]].
      destruct (IH (ids0 ++ new1) e1)
        as [new2 [e2 [added2 [Hloop [Hc2 [Hl2 [Hn2 Ha2]]]]]]].
      exists (new1 ++ new2), e2, (added1 ++ added2).
      cbn [place_entry_orders_from map]. unfold bind. rewrite Hrun, Hloop.
      split; [ rewrite app_assoc; reflexivity | ].
      split; [ rewrite Hc2, Hc1, <- app_assoc; reflexivity | ].
      split; [ rewrite Hl2, Hl1, app_assoc; reflexivity | ].
      split; [ rewrite !length_app; cbn [List.length]; lia | ].
      apply Forall_app. split.
      + eapply Forall_impl; [ | exact Ha1 ].
        intros o [Hin Ho]. split; [ apply in_or_app; left; exact Hin | ].
        exists spec. split; [ left; reflexivity | exact Ho ].
      + eapply Forall_impl; [ | exact Ha2 ].
        intros o [Hin [s [Hs Ho]]]. split; [ apply in_or_app; right; exact Hin | ].
        exists s. split; [ right; exact Hs | exact Ho ]. }
  destruct (Hfrom orders [] e) as [new [e' [added H]]].
  exists new, e', added. exact H.
Qed.

(** X7. An entry order can be live on the exchange and reported as placed
    without being tracked: when the client answers a placement with an
    order id and the specification has a price of zero (the size
    [amount_usd / price] cannot be computed) or the id is already tracked,
    [place_entry_orders] returns the id and leaves the ledger as it was. *)
Theorem placed_but_untracked {W : Type} (self : Self W) (order_spec : OrderSpec)
    (strong : option Q) (e : Env W) (id : string) (w1 : W) :
  client_place_limit_buy self (os_token_id order_spec) (os_price order_spec)
    (os_amount_usd order_spec) (world e) = (Ret (Some id), w1) ->
  (os_price order_spec == 0)%Q \/ has_order id (tracked_orders e) = true ->
  place_entry_orders self [order_spec] strong e =
    (Ret [id], mkEnv w1 (tracked_orders e) (calls e ++ [entry_call order_spec])).
Proof.
  intros Hans Hwhy.
  unfold place_entry_orders. cbn [place_entry_orders_from].
  unfold bind at 1. unfold place_entry_order.
  unfold bind at 1. unfold try_except at 1. unfold place_limit_buy.
  rewrite external_run, Hans. cbn [fst snd app].
  fold (entry_call order_spec).
  unfold try_except, bind.
  destruct (Qeq_bool (os_price order_spec) 0) eqn:Hzero; [ reflexivity | ].
  destruct Hwhy as [Hz | Hdup].
  - apply Qeq_bool_iff in Hz. congruence.
  - unfold order_monitor_add_order, add_order. cbn [tracked_orders world calls].
    rewrite Hdup. reflexivity.
Qed.

Lemma placed_but_untracked_witness :
  place_entry_orders Scenario.exchange [Scenario.zero_price_spec] (Some 65%Q)
    Scenario.placing_start =
    (Ret ["o1"],
     mkEnv (Scenario.mkWorld [] [] ["o2"] [] false) []
       [entry_call Scenario.zero_price_spec]).
Proof.
  apply (placed_but_untracked Scenario.exchange Scenario.zero_price_spec (Some 65%Q)
           Scenario.placing_start "o1" (Scenario.mkWorld [] [] ["o2"] [] false)).
  - reflexivity.
  - left. reflexivity.
Defined.

(** The entry prices of the table are not zero. *)
Lemma ladder_prices_nonzero (size p : Q) (c : EntryConfig) :
  get_entry_prices size p = Some c ->
  Qeq_bool (entry1_price c) 0 = false /\ Qeq_bool (entry2_price c) 0 = false.
Proof.
  intro Hc. destruct (config_band size p c Hc) as [lo [hi [e1 [e2 [Hin [_ ->]]]]]].
  unfold STRATEGY_TABLE in Hin. cbn [In] in Hin.
  repeat (destruct Hin as [Hin | Hin];
          [ injection Hin as <- <- <- <-; split; reflexivity | ]).
  contradiction.
Qed.

(** X8. The ladder of a market, placed. When [calculate_orders] gives the
    two specifications of a market and the client answers both placements
    with distinct order ids that are not tracked yet, [place_entry_orders]
    returns the two ids and appends two BUY orders to the ledger, entry 1
    before entry 2, each with the favored start price it was given; the
    two orders then form one token group, headed by entry 1, whose
    recorded favored start price is that price. *)
Theorem ladder_entries_tracked {W : Type} (self : Self W) (size : Q) (market : Market)
    (s1 s2 : OrderSpec) (strong : option Q) (e : Env W) (id1 id2 : string)
    (w1 w2 : W) :
  calculate_orders size market = Some [s1; s2] ->
  client_place_limit_buy self (os_token_id s1) (os_price s1) (os_amount_usd s1)
    (world e) = (Ret (Some id1), w1) ->
  client_place_limit_buy self (os_token_id s2) (os_price s2) (os_amount_usd s2)
    w1 = (Ret (Some id2), w2) ->
  has_order id1 (tracked_orders e) = false ->
  has_order id2 (tracked_orders e) = false ->
  id1 <> id2 ->
  let o1 := entry_order strong id1 s1 in
  let o2 := entry_order strong id2 s2 in
  place_entry_orders self [s1; s2] strong e =
    (Ret [id1; id2],
     mkEnv w2 (tracked_orders e ++ [o1; o2])
       (calls e ++ [entry_call s1; entry_call s2]))
  /\ entry_number o1 = Some 1 /\ entry_number o2 = Some 2
  /\ group_by_token [o1; o2] =
       [ (team_token_id (strong_team market), mkTokenData [o1; o2] strong) ].
Proof.
  intros Hcalc Hans1 Hans2 Hfresh1 Hfresh2 Hne o1 o2.
  unfold calculate_orders in Hcalc.
  destruct (get_entry_prices size (team_price_cents (strong_team market)))
    as [c |] eqn:Hc; [ | discriminate ].
  destruct (ladder_prices_nonzero _ _ _ Hc) as [Hnz1 Hnz2].
  injection Hcalc as Hs1 Hs2.
  assert (Hp1 : Qeq_bool (os_price s1) 0 = false) by (rewrite <- Hs1; exact Hnz1).
  assert (Hp2 : Qeq_bool (os_price s2) 0 = false) by (rewrite <- Hs2; exact Hnz2).
  split; [ | split; [ | split ] ].
  - unfold place_entry_orders. cbn [place_entry_orders_from].
    unfold bind at 1. unfold place_entry_order at 1.
    unfold bind at 1. unfold try_except at 1. unfold place_limit_buy at 1.
    rewrite external_run, Hans1. cbn [fst snd app].
    unfold try_except at 1. unfold bind at 1. rewrite Hp1.
    unfold order_monitor_add_order at 1. unfold add_order.
    cbn [tracked_orders world calls]. rewrite Hfresh1.
    unfold ret at 1. unfold bind at 1. unfold place_entry_order.
    unfold bind at 1. unfold try_except at 1. unfold place_limit_buy.
    rewrite external_run. cbn [world tracked_orders calls]. rewrite Hans2.
    cbn [fst snd app].
    unfold try_except, bind. rewrite Hp2.
    unfold order_monitor_add_order, add_order. cbn [tracked_orders world calls].
    assert (Hfresh2' : has_order id2
                         (tracked_orders e ++ [entry_order strong id1 s1]) = false).
    { apply str_in_not_In. unfold keys. rewrite map_app. intro Hin.
      apply in_app_or in Hin. destruct Hin as [Hin | [Hin | []]].
      - apply str_in_not_In in Hfresh2. apply Hfresh2. exact Hin.
      - apply Hne. exact Hin. }
    fold (entry_order strong id1 s1). rewrite Hfresh2'.
    unfold ret. fold (entry_call s1) (entry_call s2).
    fold (entry_order strong id2 s2). subst o1 o2.
    rewrite <- !app_assoc. reflexivity.
  - subst o1. cbn. rewrite <- Hs1. reflexivity.
  - subst o2. cbn. rewrite <- Hs2. reflexivity.
  - subst o1 o2. unfold group_by_token, entry_order. cbn.
    rewrite <- Hs1, <- Hs2. cbn. rewrite String.eqb_refl. reflexivity.
Qed.

Lemma ladder_entries_tracked_witness :
  place_entry_orders Scenario.exchange [Scenario.first_spec; Scenario.second_spec]
    (Some 65%Q) Scenario.placing_start =
    (Ret ["o1"; "o2"],
     mkEnv (Scenario.mkWorld [] [] [] [] false)
       (tracked_orders Scenario.placing_start
        ++ [entry_order (Some 65%Q) "o1" Scenario.first_spec;
            entry_order (Some 65%Q) "o2" Scenario.second_spec])
       (calls Scenario.placing_start
        ++ [entry_call Scenario.first_spec; entry_call Scenario.second_spec]))
  /\ entry_number (entry_order (Some 65%Q) "o1" Scenario.first_spec) = Some 1
  /\ entry_number (entry_order (Some 65%Q) "o2" Scenario.second_spec) = Some 2
  /\ group_by_token [entry_order (Some 65%Q) "o1" Scenario.first_spec;
                     entry_order (Some 65%Q) "o2" Scenario.second_spec] =
       [ (team_token_id (strong_team Scenario.market_1),
          mkTokenData [entry_order (Some 65%Q) "o1" Scenario.first_spec;
                       entry_order (Some 65%Q) "o2" Scenario.second_spec]
            (Some 65%Q)) ].
Proof.
  apply (ladder_entries_tracked Scenario.exchange 5 Scenario.market_1
           Scenario.first_spec Scenario.second_spec
           (Some 65%Q) Scenario.placing_start "o1" "o2"
           (Scenario.mkWorld [] [] ["o2"] [] false)
           (Scenario.mkWorld [] [] [] [] false)).
  - reflexivity.
  - reflexivity.
  - reflexivity.
  - reflexivity.
  - reflexivity.
  - discriminate.
Defined.

(** ** Placing a take-profit order *)

(** X9. [place_take_profit_orders] never raises and makes exactly one
    [place_limit_sell] call, whatever the client does.  It returns an order
    id only when that id was not tracked before, and then the ledger has
    grown by exactly one OPEN SELL order under that id, with the given
    token, market, price and size and no entry number; when it returns
    [None] the ledger is as it was. *)
Theorem place_take_profit_orders_effect {W : Type} (self : Self W)
    (token slug team_name : string) (p position_size : Decimal) (e : Env W) :
  exists r e',
    place_take_profit_orders self token slug team_name p position_size e =
      (Ret r, e') /\
    calls e' = calls e ++ [PlaceLimitSell token p position_size] /\
    match r with
    | Some id =>
        has_order id (tracked_orders e) = false /\
        tracked_orders e' =
          tracked_orders e ++ [take_profit_order id token slug p position_size]
    | None => tracked_orders e' = tracked_orders e
    end.
Proof.
  unfold place_take_profit_orders, try_except.
  unfold bind at 1. unfold place_limit_sell. rewrite external_run.
  destruct (client_place_limit_sell self token p position_size (world e))
    as [[[new_id |] |] w1]; cbn [fst snd].
  - unfold bind, order_monitor_add_order, add_order. cbn [tracked_orders world calls].
    destruct (has_order new_id (tracked_orders e)) eqn:Hhas.
    + exists None. eexists. cbn. split; [ reflexivity | ]. split; reflexivity.
    + exists (Some new_id). eexists. cbn. split; [ reflexivity | ].
      split; [ reflexivity | ]. split; [ exact Hhas | reflexivity ].
  - exists None. eexists. cbn. split; [ reflexivity | ]. split; reflexivity.
  - exists None. eexists. cbn. split; [ reflexivity | ]. split; reflexivity.
Qed.

(** ** The take-profit pass as a whole *)

Lemma grown_by_sells_refl (l : Ledger) : grown_by_sells 0 l l.
Proof.
  exists l, []. rewrite app_nil_r.
  split; [ reflexivity | ]. split; [ apply same_or_filled_ledger_refl | ].
  split; [ constructor | reflexivity ].
Qed.

Lemma grown_by_sells_trans (n1 n2 : nat) (a b c : Ledger) :
  grown_by_sells n1 a b -> grown_by_sells n2 b c -> grown_by_sells (n1 + n2) a c.
Proof.
  intros [kept1 [added1 [-> [Hk1 [Hs1 Hn1]]]]] [kept2 [added2 [-> [Hk2 [Hs2 Hn2]]]]].
  apply Forall2_app_inv_l in Hk2.
  destruct Hk2 as [k2a [k2b [Hka [Hkb ->]]]].
  exists k2a, (k2b ++ added2). rewrite app_assoc.
  split; [ reflexivity | ].
  split; [ exact (same_or_filled_ledger_trans _ _ _ Hk1 Hka) | ].
  split.
  - apply Forall_app. split; [ exact (same_or_filled_sells _ _ Hkb Hs1) | exact Hs2 ].
  - rewrite length_app, <- (Forall2_length Hkb), Hn1, Hn2. reflexivity.
Qed.

Lemma sells_placed_app (a b : list Call) :
  sells_placed (a ++ b) = (sells_placed a + sells_placed b)%nat.
Proof. unfold sells_placed. rewrite filter_app, length_app. reflexivity. Qed.

Lemma take_profit_pass_refl {W : Type} (count : nat) (e : Env W) :
  take_profit_pass count (Ret count) e e.
Proof.
  exists 0%nat, []. rewrite app_nil_r.
  split; [ apply grown_by_sells_refl | ]. split; [ reflexivity | ].
  split; [ reflexivity | ]. split; [ apply Nat.le_0_l | lia ].
Qed.

Lemma take_profit_pass_trans {W : Type} (count k : nat) (r : outcome nat)
    (e e1 e2 : Env W) :
  take_profit_pass count (Ret k) e e1 -> take_profit_pass k r e1 e2 ->
  take_profit_pass count r e e2.
Proof.
  intros [n1 [cs1 [Hg1 [Hc1 [Hf1 [Hp1 Hk1]]]]]] [n2 [cs2 [Hg2 [Hc2 [Hf2 [Hp2 Hr]]]]]].
  exists (n1 + n2)%nat, (cs1 ++ cs2).
  split; [ exact (grown_by_sells_trans _ _ _ _ _ Hg1 Hg2) | ].
  split; [ rewrite Hc2, Hc1, app_assoc; reflexivity | ].
  split; [ rewrite forallb_app, Hf1, Hf2; reflexivity | ].
  split; [ rewrite sells_placed_app; lia | ].
  destruct r as [k' |].
  - lia.
  - destruct Hr as [before [token ->]]. exists (cs1 ++ before), token.
    rewrite app_assoc. reflexivity.
Qed.

Lemma take_profit_pass_shift {W : Type} (count : nat) (r : outcome nat)
    (e e' : Env W) :
  take_profit_pass 0 r e e' ->
  take_profit_pass count
    (match r with Ret n => Ret (count + n)%nat | Raise => Raise end) e e'.
Proof.
  intros [n [cs [Hg [Hc [Hf [Hp Hr]]]]]]. exists n, cs.
  repeat (split; [ assumption | ]).
  destruct r as [k |]; [ lia | exact Hr ].
Qed.

Lemma for_sum_take_profit_pass {W A : Type} (body : A -> @M W nat) :
  (forall x e, take_profit_run 0 e (body x e)) ->
  forall xs count e, take_profit_run count e (for_sum xs body count e).
Proof.
  intros Hbody. induction xs as [| x rest IH]; intros count e.
  - cbn. apply take_profit_pass_refl.
  - cbn [for_sum]. unfold bind.
    pose proof (Hbody x e) as Hx.
    destruct (body x e) as [[n |] e1]; unfold take_profit_run in Hx;
      cbn [fst snd] in Hx.
    + apply (take_profit_pass_trans count (count + n) _ e e1).
      * exact (take_profit_pass_shift count (Ret n) e e1 Hx).
      * apply IH.
    + exact (take_profit_pass_shift count Raise e e1 Hx).
Qed.

Lemma balance_query_take_profit_pass {W : Type} (count : nat) (r : outcome nat)
    (token : string) (w1 : W) (e : Env W) :
  match r with Ret k => k = count | Raise => True end ->
  take_profit_pass count r e
    (mkEnv w1 (tracked_orders e) (calls e ++ [GetTokenBalance token])).
Proof.
  intro Hr. exists 0%nat, [GetTokenBalance token]. cbn [tracked_orders calls].
  split; [ apply grown_by_sells_refl | ]. split; [ reflexivity | ].
  split; [ reflexivity | ]. split; [ apply Nat.le_0_l | ].
  destruct r as [k |]; [ lia | ].
  exists [], token. reflexivity.
Qed.

Lemma marks_take_profit_pass {W : Type} (count : nat) (ids : list string) (e : Env W) :
  take_profit_pass count (Ret count) e
    (mkEnv (world e) (filled_where ids (tracked_orders e)) (calls e)).
Proof.
  exists 0%nat, []. cbn [tracked_orders calls]. rewrite app_nil_r.
  split.
  - exists (filled_where ids (tracked_orders e)), []. rewrite app_nil_r.
    split; [ reflexivity | ]. split; [ apply filled_where_same_or_filled | ].
    split; [ constructor | reflexivity ].
  - split; [ reflexivity | ]. split; [ reflexivity | ].
    split; [ apply Nat.le_0_l | lia ].
Qed.

Lemma place_leg_take_profit_pass {W : Type} (self : Self W) (token slug : string)
    (tp_spec : TPSpec) (e : Env W) :
  take_profit_run 0 e (place_leg self token slug tp_spec e).
Proof.
  unfold place_leg.
  destruct (tp_price tp_spec) as [p |]; [ | apply take_profit_pass_refl ].
  unfold bind at 1. unfold place_take_profit_orders, try_except.
  unfold bind at 1. unfold place_limit_sell. rewrite external_run.
  assert (Hnone : forall w1,
             take_profit_pass 0 (Ret 0%nat) e
               (mkEnv w1 (tracked_orders e)
                  (calls e ++ [PlaceLimitSell token p (tp_size tp_spec)]))).
  { intro w1. exists 0%nat, [PlaceLimitSell token p (tp_size tp_spec)].
    cbn [tracked_orders calls].
    split; [ apply grown_by_sells_refl | ]. split; [ reflexivity | ].
    split; [ reflexivity | ]. split; [ apply Nat.le_0_l | lia ]. }
  destruct (client_place_limit_sell self token p (tp_size tp_spec) (world e))
    as [[[new_id |] |] w1]; cbn [fst snd].
  - unfold bind, order_monitor_add_order, add_order. cbn [tracked_orders world calls].
    destruct (has_order new_id (tracked_orders e)).
    + apply Hnone.
    + unfold take_profit_run, ret. cbn [fst snd].
      exists 1%nat, [PlaceLimitSell token p (tp_size tp_spec)].
      cbn [tracked_orders calls].
      split.
      * eexists; eexists. split; [ reflexivity | ].
        split; [ apply same_or_filled_ledger_refl | ].
        split; [ constructor; [ reflexivity | constructor ] | reflexivity ].
      * split; [ reflexivity | ]. split; [ reflexivity | ].
        split; [ cbn; lia | ].
        destruct (truthy new_id); cbn; lia.
  - apply Hnone.
  - apply Hnone.
Qed.

Lemma set_tp_for_token_take_profit_pass {W : Type} (self : Self W)
    (all_open_orders : list OpenOrder) (slug token : string) (data : TokenData)
    (e : Env W) :
  take_profit_run 0 e (set_tp_for_token self all_open_orders slug token data e).
Proof.
  unfold set_tp_for_token.
  unfold bind at 1. unfold get_token_balance. rewrite external_run.
  destruct (client_get_token_balance self token (world e)) as [[b |] w1];
    cbn [fst snd].
  2: { apply balance_query_take_profit_pass. exact I. }
  destruct (Qle_bool b 0).
  { apply balance_query_take_profit_pass. reflexivity. }
  destruct (Qle_bool (decimal_sub b (existing_sell_size_of all_open_orders token)) 0.01).
  { apply balance_query_take_profit_pass. reflexivity. }
  unfold bind at 1. rewrite mark_loop_run. cbn [world tracked_orders calls].
  set (marked := py_slice_to (buy_orders data)
                   (Z.of_nat (List.length (buy_orders data))
                    - open_buy_count_of all_open_orders token)).
  set (e1 := mkEnv w1 (tracked_orders e) (calls e ++ [GetTokenBalance token])).
  set (e2 := mkEnv w1 (filled_where (map order_id marked) (tracked_orders e))
               (calls e ++ [GetTokenBalance token])).
  assert (H2 : take_profit_pass 0 (Ret 0%nat) e e2).
  { apply (take_profit_pass_trans 0 0 _ e e1).
    - apply balance_query_take_profit_pass. reflexivity.
    - apply (marks_take_profit_pass 0 (map order_id marked) e1). }
  destruct (td_strong_team_price_cents data) as [cents |]; [ | exact H2 ].
  destruct (price_recorded (Some cents)); [ | exact H2 ].
  apply (take_profit_pass_trans 0 0 _ e e2); [ exact H2 | ].
  apply (for_sum_take_profit_pass (place_leg self token slug)).
  intros x e0. apply place_leg_take_profit_pass.
Qed.

Lemma set_tp_for_market_take_profit_pass {W : Type} (self : Self W)
    (all_open_orders : list OpenOrder) (skip : list string) (slug : string)
    (e : Env W) :
  take_profit_run 0 e (set_tp_for_market self all_open_orders skip slug e).
Proof.
  unfold set_tp_for_market.
  destruct (str_in slug skip); [ apply take_profit_pass_refl | ].
  unfold bind at 1. unfold order_monitor_get.
  apply (for_sum_take_profit_pass
           (fun item => set_tp_for_token self all_open_orders slug (fst item)
                          (snd item))).
  intros x e0. apply set_tp_for_token_take_profit_pass.
Qed.

Lemma check_filled_take_profit_pass {W : Type} (self : Self W) (sets : SetIteration)
    (skip : list string) (e : Env W) :
  match client_get_open_orders self (world e) with
  | (Raise, w1) =>
      check_filled_positions_and_set_tp self sets skip e =
        (Raise, mkEnv w1 (tracked_orders e) (calls e ++ [GetOpenOrders]))
  | (Ret _, w1) =>
      take_profit_run 0 (mkEnv w1 (tracked_orders e) (calls e ++ [GetOpenOrders]))
        (check_filled_positions_and_set_tp self sets skip e)
  end.
Proof.
  destruct (client_get_open_orders self (world e)) as [[all_open_orders |] w1]
    eqn:Hopen;
    unfold check_filled_positions_and_set_tp;
    unfold bind at 1; unfold get_open_orders; rewrite external_run, Hopen;
    cbn [fst snd]; [ | reflexivity ].
  unfold bind at 1. unfold order_monitor_get.
  apply (for_sum_take_profit_pass (set_tp_for_market self all_open_orders skip)).
  intros x e0. apply set_tp_for_market_take_profit_pass.
Qed.

(** X10. Whatever the exchange answers, and whether the call returns or
    raises, [check_filled_positions_and_set_tp] only lets the ledger grow:
    every order tracked before is still there, in its place, as it was or
    marked FILLED; what is added at the end are SELL orders; and the
    returned [tp_placed] is at most the number of orders added. *)
Theorem take_profit_pass_ledger {W : Type} (self : Self W) (sets : SetIteration)
    (already_profitable_markets : list string) (e : Env W) :
  let run :=
    check_filled_positions_and_set_tp self sets already_profitable_markets e in
  exists n,
    grown_by_sells n (tracked_orders e) (tracked_orders (snd run)) /\
    match fst run with
    | Ret tp_placed => (tp_placed <= n)%nat
    | Raise => True
    end.
Proof.
  intro run.
  pose proof (check_filled_take_profit_pass self sets already_profitable_markets e)
    as Hpass.
  fold run in Hpass. unfold take_profit_run in Hpass.
  destruct (client_get_open_orders self (world e)) as [[all_open_orders |] w1].
  - destruct Hpass as [n [cs [Hg [_ [_ [_ Hr]]]]]]. exists n.
    split; [ exact Hg | ].
    destruct (fst run) as [k |]; [ lia | exact I ].
  - rewrite Hpass. exists 0%nat. split; [ apply grown_by_sells_refl | exact I ].
Qed.

(** X11. The calls of [check_filled_positions_and_set_tp]: it reads the
    open orders once, first, and after that only queries balances and
    places SELL orders; it never places a BUY order and never asks the
    scanner or the queue.  The returned [tp_placed] is at most the number
    of SELL placements, and when the call raises, the last call made was
    a read of the exchange (the open orders or a balance). *)
Theorem take_profit_pass_calls {W : Type} (self : Self W) (sets : SetIteration)
    (already_profitable_markets : list string) (e : Env W) :
  let run :=
    check_filled_positions_and_set_tp self sets already_profitable_markets e in
  exists cs,
    calls (snd run) = calls e ++ GetOpenOrders :: cs /\
    forallb take_profit_call cs = true /\
    match fst run with
    | Ret tp_placed => (tp_placed <= sells_placed cs)%nat
    | Raise =>
        exists before c,
          GetOpenOrders :: cs = before ++ [c] /\ is_exchange_read c = true
    end.
Proof.
  intro run.
  pose proof (check_filled_take_profit_pass self sets already_profitable_markets e)
    as Hpass.
  fold run in Hpass. unfold take_profit_run in Hpass.
  destruct (client_get_open_orders self (world e)) as [[all_open_orders |] w1].
  - destruct Hpass as [n [cs [_ [Hc [Hf [Hp Hr]]]]]]. exists cs.
    cbn [calls] in Hc. rewrite <- app_assoc in Hc.
    split; [ exact Hc | ]. split; [ exact Hf | ].
    destruct (fst run) as [k |]; [ lia | ].
    destruct Hr as [before [token ->]].
    exists (GetOpenOrders :: before), (GetTokenBalance token).
    split; reflexivity.
  - rewrite Hpass. exists []. cbn [fst snd calls].
    split; [ reflexivity | ]. split; [ reflexivity | ].
    exists [], GetOpenOrders. split; reflexivity.
Qed.

(** A loop whose every turn is skipped returns its counter and changes
    nothing. *)
Lemma for_sum_all_skipped {W A : Type} (body : A -> @M W nat) (xs : list A) :
  (forall x e, In x xs -> body x e = (Ret 0%nat, e)) ->
  forall count e, for_sum xs body count e = (Ret count, e).
Proof.
  induction xs as [| x rest IH]; intros Hbody count e.
  - reflexivity.
  - cbn [for_sum]. unfold bind. rewrite (Hbody x e (or_introl eq_refl)).
    rewrite Nat.add_0_r. apply IH. intros y e0 Hy. apply Hbody. right. exact Hy.
Qed.

(** X12. The membership test by which [check_filled_positions_and_set_tp]
    passes over a market is the one of the strategy's [should_skip_market].
    When it holds for the market of every tracked order, the call reads
    the open orders and does nothing else: no balance is queried, nothing
    is placed, the ledger is as it was and the result is 0. *)
Theorem all_markets_skipped {W : Type} (self : Self W) (sets : SetIteration)
    (already_profitable_markets : list string) (e : Env W)
    (all_open_orders : list OpenOrder) (w1 : W) :
  client_get_open_orders self (world e) = (Ret all_open_orders, w1) ->
  forallb (fun o => should_skip_market (market_slug o) already_profitable_markets)
    (tracked_orders e) = true ->
  check_filled_positions_and_set_tp self sets already_profitable_markets e =
    (Ret 0%nat, mkEnv w1 (tracked_orders e) (calls e ++ [GetOpenOrders])).
Proof.
  intros Hopen Hskip.
  unfold check_filled_positions_and_set_tp.
  unfold bind at 1. unfold get_open_orders. rewrite external_run, Hopen.
  cbn [fst snd]. unfold bind at 1. unfold order_monitor_get. cbn [tracked_orders].
  apply for_sum_all_skipped. intros slug e0 Hslug.
  apply iter_set_In in Hslug. unfold get_markets_with_orders in Hslug.
  apply in_map_iff in Hslug. destruct Hslug as [o [<- Ho]].
  rewrite forallb_forall in Hskip. specialize (Hskip o Ho).
  unfold set_tp_for_market.
  unfold should_skip_market in Hskip. unfold str_in. rewrite Hskip. reflexivity.
Qed.

Lemma all_markets_skipped_witness :
  check_filled_positions_and_set_tp Scenario.exchange Scenario.insertion_order
    ["market-1"] Scenario.one_open_start =
    (Ret 0%nat,
     mkEnv (world Scenario.one_open_start) (tracked_orders Scenario.one_open_start)
       (calls Scenario.one_open_start ++ [GetOpenOrders])).
Proof.
  apply (all_markets_skipped Scenario.exchange Scenario.insertion_order ["market-1"]
           Scenario.one_open_start
           [Scenario.listed_order "o2" "tok-a" "BUY" 16%Q]
           (world Scenario.one_open_start)).
  - reflexivity.
  - reflexivity.
Defined.

(** ** The reconciliation as a whole *)

Lemma placements_app (a b : list Call) :
  placements (a ++ b) = (placements a + placements b)%nat.
Proof. unfold placements. rewrite filter_app, length_app. reflexivity. Qed.

Lemma balance_queries_app (a b : list Call) :
  balance_queries (a ++ b) = (balance_queries a + balance_queries b)%nat.
Proof. unfold balance_queries. rewrite filter_app, length_app. reflexivity. Qed.

(** The calls of one turn: at most one balance query, a placement only
    after it, and a count of 1 only with a placement. *)
Lemma recreate_order_calls {W : Type} (self : Self W) (ended_markets : list string)
    (order_data : TrackedOrder) (e : Env W) :
  exists n e' cs,
    recreate_order self ended_markets order_data e = (Ret n, e') /\
    calls e' = calls e ++ cs /\
    forallb turn_call cs = true /\
    (n <= placements cs <= balance_queries cs)%nat /\
    (balance_queries cs <= 1)%nat.
Proof.
  destruct (str_in (market_slug order_data) ended_markets) eqn:Hended.
  - pose proof (recreate_order_ended self ended_markets order_data e Hended) as H.
    cbv zeta in H. rewrite H.
    destruct (market_queue self).
    + eexists; eexists; exists [RemoveMarket (market_slug order_data)].
      split; [ reflexivity | ]. cbn.
      split; [ reflexivity | ]. split; [ reflexivity | ]. lia.
    + eexists; eexists; exists []. split; [ reflexivity | ]. cbn.
      split; [ symmetry; apply app_nil_r | ]. split; [ reflexivity | ]. lia.
  - destruct (client_get_token_balance self (token_id order_data) (world e))
      as [[b |] w1] eqn:Hbal.
    + destruct (Qlt_le_dec 0.1 b) as [Hb | Hb].
      * pose proof (recreate_order_filled self ended_markets order_data e b w1
                      Hended Hbal Hb) as H.
        cbv zeta in H. rewrite H.
        eexists; eexists; exists [GetTokenBalance (token_id order_data)].
        split; [ reflexivity | ]. cbn.
        split; [ reflexivity | ]. split; [ reflexivity | ]. lia.
      * pose proof (recreate_order_placement self ended_markets order_data e b w1
                      Hended Hbal Hb) as H.
        cbv zeta in H. rewrite H.
        assert (Hcs : forallb turn_call
                        [GetTokenBalance (token_id order_data);
                         recreate_call order_data] = true
                      /\ placements [GetTokenBalance (token_id order_data);
                                     recreate_call order_data] = 1%nat
                      /\ balance_queries [GetTokenBalance (token_id order_data);
                                          recreate_call order_data] = 1%nat).
        { unfold recreate_call. destruct (side order_data); repeat split. }
        destruct Hcs as [Hf [Hp Hq]].
        assert (Hle : forall n, (n <= 1)%nat ->
                  (n <= placements [GetTokenBalance (token_id order_data);
                                    recreate_call order_data]
                   <= balance_queries [GetTokenBalance (token_id order_data);
                                       recreate_call order_data])%nat
                  /\ (balance_queries [GetTokenBalance (token_id order_data);
                                       recreate_call order_data] <= 1)%nat).
        { intros n Hn. rewrite Hp, Hq. lia. }
        destruct (recreate_answer self order_data w1) as [[[new_id |] |] w2].
        -- destruct (has_order new_id (tracked_orders e)) eqn:Hnew;
             eexists; eexists; eexists; (split; [ reflexivity | ]);
             cbn [calls]; (split; [ reflexivity | ]); (split; [ exact Hf | ]);
             apply Hle; lia.
        -- eexists; eexists; eexists; split; [ reflexivity | ].
           cbn [calls]. split; [ reflexivity | ]. split; [ exact Hf | ].
           apply Hle; lia.
        -- eexists; eexists; eexists; split; [ reflexivity | ].
           cbn [calls]. split; [ reflexivity | ]. split; [ exact Hf | ].
           apply Hle; lia.
    + pose proof (recreate_order_balance_raises self ended_markets order_data e w1
                    Hended Hbal) as H.
      cbv zeta in H. rewrite H.
      eexists; eexists; exists [GetTokenBalance (token_id order_data)].
      split; [ reflexivity | ]. cbn.
      split; [ reflexivity | ]. split; [ reflexivity | ]. lia.
Qed.

Lemma recreate_loop_turn_calls {W : Type} (self : Self W)
    (ended_markets : list string) (rest : list TrackedOrder) :
  forall (count : nat) (e : Env W),
    exists n e' cs,
      for_sum rest (recreate_order self ended_markets) count e = (Ret n, e') /\
      calls e' = calls e ++ cs /\
      forallb turn_call cs = true /\
      (n <= count + placements cs)%nat /\
      (placements cs <= balance_queries cs <= List.length rest)%nat.
Proof.
  induction rest as [| d rest IH]; intros count e.
  - exists count, e, []. cbn.
    split; [ reflexivity | ]. split; [ symmetry; apply app_nil_r | ].
    split; [ reflexivity | ]. lia.
  - destruct (recreate_order_calls self ended_markets d e)
      as [k [e1 [cs1 [Hrun [Hcs1 [Hf1 [Hk1 Hq1]]]]]]].
    destruct (IH (count + k)%nat e1) as [n [e' [cs2 [Hloop [Hcs2 [Hf2 [Hn Hq2]]]]]]].
    exists n, e', (cs1 ++ cs2).
    rewrite (for_sum_cons_run d rest _ count k e e1 Hrun).
    split; [ exact Hloop | ].
    split; [ rewrite Hcs2, Hcs1, app_assoc; reflexivity | ].
    split; [ rewrite forallb_app, Hf1, Hf2; reflexivity | ].
    rewrite placements_app, balance_queries_app. cbn [List.length]. lia.
Qed.

(** X13. The calls of [check_and_recreate_orders]: it reads the open
    orders first, then asks the scanner about markets, and only then
    takes the turns of the disappeared orders, which query balances,
    place orders and remove markets from the queue and nothing else.  At
    most one balance is queried per disappeared order, no order is placed
    without a balance query before it, and the returned count is at most
    the number of placements.  When the call raises, no turn was taken:
    the exception comes from the read of the open orders or from the
    scanner. *)
Theorem reconcile_calls {W : Type} (self : Self W) (sets : SetIteration)
    (e : Env W) :
  let run := check_and_recreate_orders self sets e in
  exists asked turns,
    calls (snd run) = calls e ++ GetOpenOrders :: map IsMarketActive asked ++ turns /\
    forallb turn_call turns = true /\
    (placements turns <= balance_queries turns
     <= List.length (disappeared_slugs self e))%nat /\
    match fst run with
    | Ret recreated_count => (recreated_count <= placements turns)%nat
    | Raise => turns = []
    end.
Proof.
  intro run. subst run. rewrite check_and_recreate_orders_run.
  unfold disappeared_slugs.
  destruct (client_get_open_orders self (world e)) as [[open_orders |] w1].
  2: { exists [], []. cbn. split; [ reflexivity | ]. split; [ reflexivity | ].
       split; [ lia | reflexivity ]. }
  cbv zeta.
  set (l1 := presence_updated (open_order_ids_of open_orders) (tracked_orders e)).
  rewrite length_map.
  destruct (get_disappeared_orders l1) as [| d ds].
  { exists [], []. cbn. split; [ reflexivity | ]. split; [ reflexivity | ].
    split; [ lia | lia ]. }
  set (dis := d :: ds).
  set (e1 := mkEnv w1 l1 (calls e ++ [GetOpenOrders])).
  unfold bind.
  destruct (match market_scanner self with
            | Some is_market_active =>
                batch_check is_market_active (iter_set sets (map market_slug dis)) []
            | None => ret []
            end e1) as [[ended_markets |] e2] eqn:Hbatch.
  - assert (Hasked : exists asked, calls e2 = calls e1 ++ map IsMarketActive asked).
    { destruct (market_scanner self) as [f |].
      - apply batch_check_frame in Hbatch. destruct Hbatch as [_ [asked [Hc _]]].
        exists asked. exact Hc.
      - injection Hbatch as <- <-. exists []. cbn. symmetry. apply app_nil_r. }
    destruct Hasked as [asked Hasked].
    destruct (recreate_loop_turn_calls self ended_markets dis 0%nat e2)
      as [n [e3 [cs [Hloop [Hcs [Hf [Hn Hq]]]]]]].
    rewrite Hloop. cbn [fst snd]. exists asked, cs.
    split.
    + rewrite Hcs, Hasked. subst e1. cbn [calls]. rewrite <- !app_assoc. reflexivity.
    + split; [ exact Hf | ]. split; [ exact Hq | lia ].
  - assert (Hasked : exists asked, calls e2 = calls e1 ++ map IsMarketActive asked).
    { destruct (market_scanner self) as [f |].
      - apply batch_check_frame in Hbatch. destruct Hbatch as [_ [asked [Hc _]]].
        exists asked. exact Hc.
      - discriminate. }
    destruct Hasked as [asked Hasked].
    cbn [fst snd]. exists asked, [].
    split.
    + rewrite Hasked. subst e1. cbn [calls]. rewrite app_nil_r, <- !app_assoc.
      reflexivity.
    + split; [ reflexivity | ]. split; [ cbn; lia | reflexivity ].
Qed.

(** The presence update leaves an order alone when the exchange lists its
    id or its status is not OPEN. *)
Lemma update_order_status_keeps (open_order_ids : list string) (id : string)
    (o : TrackedOrder) :
  status o <> OPEN \/ str_in (order_id o) open_order_ids = true ->
  (if String.eqb (order_id o) id
   then if negb (str_in id open_order_ids) && status_eqb (status o) OPEN
        then set_status DISAPPEARED o else o
   else o) = o.
Proof.
  intro Hcond. destruct (String.eqb (order_id o) id) eqn:Hid; [ | reflexivity ].
  apply String.eqb_eq in Hid. subst id.
  destruct Hcond as [Hst | Hlisted].
  - destruct (status o); try reflexivity; try (rewrite andb_false_r; reflexivity).
    contradiction.
  - rewrite Hlisted. reflexivity.
Qed.

Lemma presence_updated_keeps (open_order_ids : list string) (l : Ledger)
    (o : TrackedOrder) :
  In o l ->
  status o <> OPEN \/ str_in (order_id o) open_order_ids = true ->
  In o (presence_updated open_order_ids l).
Proof.
  intros Ho Hcond. unfold presence_updated.
  assert (H : forall ks l0, In o l0 ->
            In o (fold_left
                    (fun acc id => update_order_status id (str_in id open_order_ids) acc)
                    ks l0)).
  { induction ks as [| id ks IH]; intros l0 Hl0; [ exact Hl0 | ].
    cbn [fold_left]. apply IH.
    unfold update_order_status, update_order.
    rewrite <- (update_order_status_keeps open_order_ids id o Hcond) at 1.
    apply (in_map (fun x => if String.eqb (order_id x) id
                            then if negb (str_in id open_order_ids)
                                    && status_eqb (status x) OPEN
                                 then set_status DISAPPEARED x else x
                            else x) l0 o Hl0). }
  apply H. exact Ho.
Qed.

Lemma presence_updated_quiet (open_order_ids : list string) (l : Ledger) :
  (forall o, In o l ->
     status o <> OPEN \/ str_in (order_id o) open_order_ids = true) ->
  presence_updated open_order_ids l = l.
Proof.
  intro Hall. unfold presence_updated.
  assert (H : forall ks,
            fold_left
              (fun acc id => update_order_status id (str_in id open_order_ids) acc)
              ks l = l).
  { induction ks as [| id ks IH]; [ reflexivity | ].
    cbn [fold_left].
    assert (Hstep : update_order_status id (str_in id open_order_ids) l = l).
    { unfold update_order_status, update_order.
      rewrite <- (map_id l) at 2. apply map_ext_in. intros o Ho.
      apply update_order_status_keeps. apply Hall. exact Ho. }
    rewrite Hstep. exact IH. }
  apply H.
Qed.

Lemma recreate_loop_keeps {W : Type} (self : Self W) (ended_markets : list string)
    (rest : list TrackedOrder) :
  forall (count : nat) (e : Env W),
    NoDup (keys (tracked_orders e)) ->
    NoDup (map order_id rest) ->
    (forall d, In d rest -> In d (tracked_orders e) /\ status d = DISAPPEARED) ->
    exists n e',
      for_sum rest (recreate_order self ended_markets) count e = (Ret n, e') /\
      forall o, In o (tracked_orders e) -> ~ In (order_id o) (map order_id rest) ->
                In o (tracked_orders e').
Proof.
  induction rest as [| d rest IH]; intros count e Hnd Hids Hin.
  - exists count, e. split; [ reflexivity | ]. intros o Ho _. exact Ho.
  - destruct (recreate_order_effect self ended_markets d e)
      as [k [e1 [cs [Hrun [Heff _]]]]].
    destruct (Hin d (or_introl eq_refl)) as [Hd Hst].
    destruct (turn_effect_invariant d _ _ k Heff Hnd Hd Hst) as [Hnd1 [Hkeep _]].
    inversion Hids as [| ? ? Hnotin Hids']; subst.
    destruct (IH (count + k)%nat e1 Hnd1 Hids') as [n [e' [Hloop Hrest]]].
    + intros o Ho. destruct (Hin o (or_intror Ho)) as [Hol Host].
      split; [ | exact Host ].
      apply Hkeep; [ exact Hol | ].
      intro Heq. apply Hnotin. rewrite <- Heq. apply in_map. exact Ho.
    + exists n, e'. rewrite (for_sum_cons_run d rest _ count k e e1 Hrun).
      split; [ exact Hloop | ].
      intros o Ho Hnot. apply Hrest.
      * apply Hkeep; [ exact Ho | ].
        intro Heq. apply Hnot. left. symmetry. exact Heq.
      * intro Hr. apply Hnot. right. exact Hr.
Qed.

(** X14. [check_and_recreate_orders] leaves alone what has not
    disappeared.  Over a ledger of distinct ids and an exchange that
    answers the read of the open orders, a tracked order that is not
    DISAPPEARED and that the exchange lists by its id, or whose status is
    not OPEN, is in the ledger afterwards as the same record, whether the
    call returns or raises. *)
Theorem reconcile_keeps_listed {W : Type} (self : Self W) (sets : SetIteration)
    (e : Env W) (open_orders : list OpenOrder) (w1 : W) (o : TrackedOrder) :
  NoDup (keys (tracked_orders e)) ->
  client_get_open_orders self (world e) = (Ret open_orders, w1) ->
  In o (tracked_orders e) ->
  status o <> DISAPPEARED ->
  status o <> OPEN \/ str_in (order_id o) (open_order_ids_of open_orders) = true ->
  In o (tracked_orders (snd (check_and_recreate_orders self sets e))).
Proof.
  intros Hnd Hopen Ho Hst Hcond.
  rewrite check_and_recreate_orders_run, Hopen. cbv zeta.
  set (l1 := presence_updated (open_order_ids_of open_orders) (tracked_orders e)).
  assert (Ho1 : In o l1) by (apply presence_updated_keeps; assumption).
  destruct (presence_updated_keys (open_order_ids_of open_orders) (tracked_orders e))
    as [Hkeys _].
  fold l1 in Hkeys.
  assert (Hnd1 : NoDup (keys l1)) by (rewrite Hkeys; exact Hnd).
  assert (Hd : forall d, In d (get_disappeared_orders l1) ->
                 In d l1 /\ status d = DISAPPEARED).
  { intros d Hdin. unfold get_disappeared_orders in Hdin. apply filter_In in Hdin.
    destruct Hdin as [Hdin Hdst]. split; [ exact Hdin | ].
    apply status_eqb_eq. exact Hdst. }
  assert (Hids : NoDup (map order_id (get_disappeared_orders l1))).
  { unfold get_disappeared_orders. apply keys_filter_NoDup. exact Hnd1. }
  assert (Hout : ~ In (order_id o) (map order_id (get_disappeared_orders l1))).
  { intro Hin. apply in_map_iff in Hin. destruct Hin as [d [Hid Hdin]].
    destruct (Hd d Hdin) as [Hdl Hdst].
    rewrite (same_id_same_order l1 d o Hnd1 Hdl Ho1 Hid) in Hdst. contradiction. }
  destruct (get_disappeared_orders l1) as [| d ds] eqn:Hdis.
  - cbn [snd tracked_orders]. exact Ho1.
  - unfold bind.
    set (e1 := mkEnv w1 l1 (calls e ++ [GetOpenOrders])).
    destruct (match market_scanner self with
              | Some is_market_active =>
                  batch_check is_market_active
                    (iter_set sets (map market_slug (d :: ds))) []
              | None => ret []
              end e1) as [[ended_markets |] e2] eqn:Hbatch.
    + assert (Hl2 : tracked_orders e2 = l1).
      { destruct (market_scanner self) as [f |].
        - apply batch_check_frame in Hbatch. apply Hbatch.
        - injection Hbatch as <- <-. reflexivity. }
      destruct (recreate_loop_keeps self ended_markets (d :: ds) 0%nat e2)
        as [k [e3 [Hloop Hkeep]]].
      * rewrite Hl2. exact Hnd1.
      * exact Hids.
      * rewrite Hl2. exact Hd.
      * rewrite Hloop. cbn [snd]. apply Hkeep; [ rewrite Hl2; exact Ho1 | exact Hout ].
    + assert (Hl2 : tracked_orders e2 = l1).
      { destruct (market_scanner self) as [f |].
        - apply batch_check_frame in Hbatch. apply Hbatch.
        - discriminate. }
      cbn [snd]. rewrite Hl2. exact Ho1.
Qed.

Lemma reconcile_keeps_listed_witness :
  In (Scenario.entry "a4" "tok-d" "market-4" 0.52%Q 9%Q 1 (Some 72%Q) OPEN)
    (tracked_orders
       (snd (check_and_recreate_orders Scenario.exchange Scenario.insertion_order
               Scenario.four_orders_start))).
Proof.
  apply (reconcile_keeps_listed Scenario.exchange Scenario.insertion_order
           Scenario.four_orders_start
           [Scenario.listed_order "a4" "tok-d" "BUY" 9%Q]
           (world Scenario.four_orders_start)).
  - repeat constructor; cbn; intuition discriminate.
  - reflexivity.
  - cbn. right. right. right. left. reflexivity.
  - discriminate.
  - right. reflexivity.
Defined.

(** X15. A pass with nothing to reconcile.  When the exchange answers the
    read of the open orders, no tracked order is DISAPPEARED and every
    OPEN one is listed under its id (an id that is missing or empty in
    the listing does not count), [check_and_recreate_orders] returns 0,
    leaves the ledger as it was and makes no other call: the scanner, the
    balances and the queue are not asked. *)
Theorem reconcile_quiet {W : Type} (self : Self W) (sets : SetIteration)
    (e : Env W) (open_orders : list OpenOrder) (w1 : W) :
  client_get_open_orders self (world e) = (Ret open_orders, w1) ->
  forallb (fun o => negb (status_eqb (status o) DISAPPEARED)
                    && (negb (status_eqb (status o) OPEN)
                        || str_in (order_id o) (open_order_ids_of open_orders)))
    (tracked_orders e) = true ->
  check_and_recreate_orders self sets e =
    (Ret 0%nat, mkEnv w1 (tracked_orders e) (calls e ++ [GetOpenOrders])).
Proof.
  intros Hopen Hall. rewrite forallb_forall in Hall.
  rewrite check_and_recreate_orders_run, Hopen. cbv zeta.
  rewrite presence_updated_quiet.
  - assert (Hnone : get_disappeared_orders (tracked_orders e) = []).
    { unfold get_disappeared_orders.
      destruct (filter (fun o => status_eqb (status o) DISAPPEARED) (tracked_orders e))
        as [| d ds] eqn:Hf; [ reflexivity | ].
      assert (Hd : In d (filter (fun o => status_eqb (status o) DISAPPEARED)
                           (tracked_orders e))) by (rewrite Hf; left; reflexivity).
      apply filter_In in Hd. destruct Hd as [Hd Hst].
      specialize (Hall d Hd). rewrite Hst in Hall. discriminate. }
    rewrite Hnone. reflexivity.
  - intros o Ho. specialize (Hall o Ho). apply andb_prop in Hall.
    destruct Hall as [_ Hall]. apply orb_prop in Hall.
    destruct Hall as [Hst | Hlisted]; [ left | right; exact Hlisted ].
    intro Heq. rewrite Heq in Hst. discriminate.
Qed.

Lemma reconcile_quiet_witness :
  check_and_recreate_orders Scenario.exchange Scenario.insertion_order
    Scenario.crowded_start =
    (Ret 0%nat,
     mkEnv Scenario.crowded_world (tracked_orders Scenario.crowded_start)
       (calls Scenario.crowded_start ++ [GetOpenOrders])).
Proof.
  apply (reconcile_quiet Scenario.exchange Scenario.insertion_order
           Scenario.crowded_start (Scenario.listed Scenario.crowded_world)
           Scenario.crowded_world).
  - reflexivity.
  - reflexivity.
Defined.

(** ** Grouping the orders of a market by token *)

Lemma token_group_Some_In (t : string) (d : TokenData)
    (g : list (string * TokenData)) :
  token_group t g = Some d -> In (t, d) g.
Proof.
  induction g as [| [t0 d0] g IH]; cbn [token_group]; intro H; [ discriminate | ].
  destruct (String.eqb t0 t) eqn:Ht.
  - apply String.eqb_eq in Ht. injection H as ->. subst t0. left. reflexivity.
  - right. apply IH. exact H.
Qed.

(** X16. The grouping loop of [check_filled_positions_and_set_tp] splits
    the orders of a market by token: every token appears once, a token has
    a group exactly when it has a BUY order, its group holds its BUY
    orders in their order (SELL orders are in no group), and the favored
    start price of the group is the one recorded on the first of them,
    whatever the later ones carry. *)
Theorem group_by_token_partition (market_orders : list TrackedOrder) :
  NoDup (map fst (group_by_token market_orders))
  /\ forall t d,
       In (t, d) (group_by_token market_orders) <->
       exists first rest,
         buys_of t market_orders = first :: rest /\
         d = mkTokenData (first :: rest) (strong_team_price_cents first).
Proof.
  split; [ apply group_by_token_NoDup | ].
  intros t d. pose proof (group_by_token_group t market_orders) as Hg. split.
  - intro Hin.
    rewrite (token_group_In t d _ (group_by_token_NoDup market_orders) Hin) in Hg.
    destruct (buys_of t market_orders) as [| first rest]; [ discriminate | ].
    injection Hg as ->. exists first, rest. split; reflexivity.
  - intros [first [rest [Hbuys ->]]]. rewrite Hbuys in Hg.
    apply token_group_Some_In. exact Hg.
Qed.

(** ** The size of what a take-profit turn offers *)

(** The legs of the strategy: none, or two of half the position each. *)
Lemma take_profit_legs_halves (filled : list FilledEntry) (cents total : Q) :
  (List.length (calculate_take_profit_orders filled cents total) <= 2)%nat /\
  Forall (fun leg => tp_size leg = decimal_div total 2%Q)
    (calculate_take_profit_orders filled cents total).
Proof.
  unfold calculate_take_profit_orders.
  destruct (scan_entry_prices filled None None) as [p1 p2].
  destruct (py_in 1 (map fe_entry_number filled));
    destruct (py_in 2 (map fe_entry_number filled)); cbn [andb negb List.length];
    (split; [ lia | repeat constructor ]).
Qed.

Lemma place_leg_sell {W : Type} (self : Self W) (token slug : string)
    (tp_spec : TPSpec) (e : Env W) :
  exists k e' sells,
    place_leg self token slug tp_spec e = (Ret k, e') /\
    tracked_orders e' = tracked_orders e ++ sells /\
    (k <= List.length sells <= 1)%nat /\
    Forall (sell_of token slug (tp_size tp_spec)) sells.
Proof.
  unfold place_leg.
  destruct (tp_price tp_spec) as [p |].
  2: { exists 0%nat, e, []. rewrite app_nil_r.
       split; [ reflexivity | ]. split; [ reflexivity | ].
       split; [ cbn; lia | constructor ]. }
  unfold bind at 1. unfold place_take_profit_orders, try_except.
  unfold bind at 1. unfold place_limit_sell. rewrite external_run.
  destruct (client_place_limit_sell self token p (tp_size tp_spec) (world e))
    as [[[new_id |] |] w1]; cbn [fst snd].
  - unfold bind, order_monitor_add_order, add_order. cbn [tracked_orders world calls].
    destruct (has_order new_id (tracked_orders e)).
    + eexists; eexists; exists []. cbn. rewrite app_nil_r.
      split; [ reflexivity | ]. split; [ reflexivity | ].
      split; [ lia | constructor ].
    + eexists; eexists; eexists. cbn [ret tracked_orders].
      split; [ reflexivity | ]. split; [ reflexivity | ].
      split; [ cbn [List.length]; destruct (truthy new_id); lia | ].
      constructor; [ | constructor ].
      unfold sell_of. cbn. repeat split.
  - eexists; eexists; exists []. cbn. rewrite app_nil_r.
    split; [ reflexivity | ]. split; [ reflexivity | ].
    split; [ lia | constructor ].
  - eexists; eexists; exists []. cbn. rewrite app_nil_r.
    split; [ reflexivity | ]. split; [ reflexivity | ].
    split; [ lia | constructor ].
Qed.

Lemma place_legs_sells {W : Type} (self : Self W) (token slug : string) (h : Q)
    (tp_specs : list TPSpec) :
  Forall (fun leg => tp_size leg = h) tp_specs ->
  forall (count : nat) (e : Env W),
    exists k e' sells,
      for_sum tp_specs (place_leg self token slug) count e = (Ret k, e') /\
      tracked_orders e' = tracked_orders e ++ sells /\
      (k <= count + List.length sells)%nat /\
      (List.length sells <= List.length tp_specs)%nat /\
      Forall (sell_of token slug h) sells.
Proof.
  induction tp_specs as [| leg rest IH]; intros Hh count e.
  - exists count, e, []. rewrite app_nil_r. cbn.
    split; [ reflexivity | ]. split; [ reflexivity | ].
    split; [ lia | ]. split; [ lia | constructor ].
  - inversion Hh as [| ? ? Hleg Hrest]; subst.
    destruct (place_leg_sell self token slug leg e)
      as [k1 [e1 [s1 [Hrun [Hl1 [Hk1 Hs1]]]]]].
    destruct (IH Hrest (count + k1)%nat e1) as [k [e' [s2 [Hloop [Hl2 [Hk [Hn Hs2]]]]]]].
    exists k, e', (s1 ++ s2).
    rewrite (for_sum_cons_run leg rest _ count k1 e e1 Hrun).
    split; [ exact Hloop | ].
    split; [ rewrite Hl2, Hl1, app_assoc; reflexivity | ].
    rewrite length_app. cbn [List.length].
    split; [ lia | ]. split; [ lia | ].
    apply Forall_app. split; [ exact Hs1 | exact Hs2 ].
Qed.

(** At most two orders of half of [u] each offer at most [u], when the
    half is exact. *)
Lemma total_size_halves (token slug : string) (u h : Q) (sells : list TrackedOrder) :
  (0 <= u)%Q -> (h == u / 2)%Q ->
  (List.length sells <= 2)%nat ->
  Forall (sell_of token slug h) sells ->
  (total_size sells <= u)%Q.
Proof.
  intros Hu Hh Hlen Hs.
  assert (Hhalf : (u / 2 == u * (1 # 2))%Q) by reflexivity.
  rewrite Hhalf in Hh.
  destruct sells as [| a [| b [| c rest]]]; cbn [total_size fold_right].
  - exact Hu.
  - destruct (Forall_inv Hs) as [_ [_ [_ [_ Ha]]]]. rewrite Ha, Hh. lra.
  - destruct (Forall_inv Hs) as [_ [_ [_ [_ Ha]]]].
    destruct (Forall_inv (Forall_inv_tail Hs)) as [_ [_ [_ [_ Hb]]]].
    rewrite Ha, Hb, Hh. lra.
  - cbn [List.length] in Hlen. lia.
Qed.

(** X17. What a take-profit turn offers.  When the balance of the token
    is read as [b], the turn of [check_filled_positions_and_set_tp] for
    that token returns, keeps every tracked order in place (as it was or
    marked FILLED) and adds at most two orders, all of them OPEN SELL
    orders on that token and market, each of half the unsold position:
    [b] minus the size already in open SELL orders, difference and half
    as the decimal context computes them.  Nothing is added unless the
    unsold position exceeds 0.01; and when it has at most 27 significant
    digits, so that halving it is exact, the sizes of the added orders
    add up to no more than it.  The count returned is at most the number
    of orders added. *)
Theorem take_profit_offer_bounded {W : Type} (self : Self W)
    (all_open_orders : list OpenOrder) (slug token : string) (data : TokenData)
    (e : Env W) (b : Decimal) (w1 : W) :
  client_get_token_balance self token (world e) = (Ret b, w1) ->
  let unsold_position :=
    decimal_sub b (existing_sell_size_of all_open_orders token) in
  exists k e' kept sells,
    set_tp_for_token self all_open_orders slug token data e = (Ret k, e') /\
    tracked_orders e' = kept ++ sells /\
    Forall2 same_or_filled (tracked_orders e) kept /\
    Forall (sell_of token slug (decimal_div unsold_position 2%Q)) sells /\
    (k <= List.length sells <= 2)%nat /\
    (sells = [] \/
     ((0.01 < unsold_position)%Q /\
      (digits_at_most 27 unsold_position ->
       (total_size sells <= unsold_position)%Q))).
Proof.
  intros Hbal u.
  assert (Hnone : forall (kept : Ledger) (e0 : Env W),
            tracked_orders e0 = kept ->
            Forall2 same_or_filled (tracked_orders e) kept ->
            exists k e' kept sells,
              (@Ret nat 0%nat, e0) = (Ret k, e') /\
              tracked_orders e' = kept ++ sells /\
              Forall2 same_or_filled (tracked_orders e) kept /\
              Forall (sell_of token slug (decimal_div u 2%Q)) sells /\
              (k <= List.length sells <= 2)%nat /\
              (sells = [] \/
               ((0.01 < u)%Q /\
                (digits_at_most 27 u -> (total_size sells <= u)%Q)))).
  { intros kept e0 He0 Hkept. exists 0%nat, e0, kept, [].
    rewrite app_nil_r. split; [ reflexivity | ]. split; [ exact He0 | ].
    split; [ exact Hkept | ].
    split; [ constructor | ]. split; [ cbn; lia | left; reflexivity ]. }
  unfold set_tp_for_token.
  unfold bind at 1. unfold get_token_balance. rewrite external_run, Hbal.
  cbn [fst snd].
  destruct (Qle_bool b 0);
    [ apply (Hnone (tracked_orders e));
      [ reflexivity | apply same_or_filled_ledger_refl ] | ].
  fold u.
  destruct (Qle_bool u 0.01) eqn:Hu;
    [ apply (Hnone (tracked_orders e));
      [ reflexivity | apply same_or_filled_ledger_refl ] | ].
  apply Qle_bool_false in Hu.
  unfold bind at 1. rewrite mark_loop_run. cbn [world tracked_orders calls].
  set (marked := py_slice_to (buy_orders data)
                   (Z.of_nat (List.length (buy_orders data))
                    - open_buy_count_of all_open_orders token)).
  set (e2 := mkEnv w1 (filled_where (map order_id marked) (tracked_orders e))
               (calls e ++ [GetTokenBalance token])).
  destruct (td_strong_team_price_cents data) as [cents |];
    [ | apply (Hnone (filled_where (map order_id marked) (tracked_orders e)));
        [ reflexivity | apply filled_where_same_or_filled ] ].
  destruct (price_recorded (Some cents));
    [ | apply (Hnone (filled_where (map order_id marked) (tracked_orders e)));
        [ reflexivity | apply filled_where_same_or_filled ] ].
  destruct (take_profit_legs_halves (build_filled_entries 0 marked) cents u)
    as [Hlen Hhalves].
  destruct (place_legs_sells self token slug (decimal_div u 2%Q)
              (calculate_take_profit_orders (build_filled_entries 0 marked) cents u)
              Hhalves 0%nat e2)
    as [k [e' [sells [Hloop [Hl [Hk [Hn Hs]]]]]]].
  exists k, e', (filled_where (map order_id marked) (tracked_orders e)), sells.
  split; [ exact Hloop | ]. split; [ exact Hl | ].
  split; [ apply filled_where_same_or_filled | ].
  split; [ exact Hs | ]. split; [ lia | ].
  right. split; [ exact Hu | ].
  intro Hdigits.
  apply (total_size_halves token slug u (decimal_div u 2%Q) sells);
    [ lra | | lia | exact Hs ].
  unfold decimal_div. apply context_round_short. apply half_digits. exact Hdigits.
Qed.

Lemma take_profit_offer_bounded_witness :
  exists k e' kept sells,
    set_tp_for_token Scenario.exchange
      (Scenario.listed (world Scenario.one_open_start)) "market-1" "tok-a"
      (mkTokenData Scenario.tracked_two (Some 65%Q)) Scenario.one_open_start =
      (Ret k, e') /\
    tracked_orders e' = kept ++ sells /\
    Forall2 same_or_filled (tracked_orders Scenario.one_open_start) kept /\
    Forall (sell_of "tok-a" "market-1"
              (decimal_div
                 (decimal_sub 11%Q
                    (existing_sell_size_of
                       (Scenario.listed (world Scenario.one_open_start)) "tok-a"))
                 2%Q))
      sells /\
    (k <= List.length sells <= 2)%nat /\
    (sells = [] \/
     ((0.01 < decimal_sub 11%Q
                (existing_sell_size_of
                   (Scenario.listed (world Scenario.one_open_start)) "tok-a"))%Q /\
      (digits_at_most 27
         (decimal_sub 11%Q
            (existing_sell_size_of
               (Scenario.listed (world Scenario.one_open_start)) "tok-a")) ->
       (total_size sells <=
        decimal_sub 11%Q
          (existing_sell_size_of
             (Scenario.listed (world Scenario.one_open_start)) "tok-a"))%Q))).
Proof.
  apply (take_profit_offer_bounded Scenario.exchange
           (Scenario.listed (world Scenario.one_open_start)) "market-1" "tok-a"
           (mkTokenData Scenario.tracked_two (Some 65%Q)) Scenario.one_open_start
           11%Q (world Scenario.one_open_start)).
  reflexivity.
Defined.

(** An unsold position of 28 digits whose half is rounded up: the two
    orders of a turn offer one unit of the last decimal place more than
    is unsold. *)
Example take_profit_offer_rounded_up :
  let e := mkEnv (Scenario.mkWorld [] [("tok-a", 3.000000000000000000000000003%Q)]
                    ["n1"; "n2"] [] false) Scenario.tracked_two [] in
  let run := set_tp_for_token Scenario.exchange [] "market-1" "tok-a"
               (mkTokenData Scenario.tracked_two (Some 65%Q)) e in
  fst run = Ret 2%nat
  /\ map size (skipn 2 (tracked_orders (snd run))) =
       [ 1.500000000000000000000000002%Q; 1.500000000000000000000000002%Q ]
  /\ (3.000000000000000000000000003 <
      1.500000000000000000000000002 + 1.500000000000000000000000002)%Q.
Proof.
  cbv zeta. split; [ vm_compute; reflexivity | ].
  split; [ vm_compute; reflexivity | ]. vm_compute. reflexivity.
Qed.
